(** * Job orchestration and output parsing of the app-builder server

    A shallow embedding of the server module that drives the scaffolding
    CLI inside a remote sandbox: the job store with its in-memory
    fallback, the per-tick logic of [monitorShopifyCliProcess] with its
    two signal extractors, the job endpoints, [saveProject] and
    [extractCodeBlocks]; then the start of the background process, the
    acknowledgement endpoint, the hourly clean-up, [getProject], the
    authentication middleware and [deployCodeToSandbox], and on the
    browser side the polling of the set-up page and the display of
    generated code on the dashboard.

    Conventions of the embedding.
    - A JavaScript string is the list of its UTF-16 code units
      ([list N]); [js] turns an ASCII literal into such a list, and code
      units outside ASCII are written as numbers.
    - A plain JavaScript object used as a dictionary is a [gmap] from its
      own property names to values.  Two things come from its prototype
      and are written out where the code meets them: an assignment under
      the name [__proto__] goes to the setter of [Object.prototype], which
      ignores a string and stores nothing ([assign_text]), and a lookup
      also finds the inherited properties ([getContentType]).
    - Everything the environment decides (sandbox command results, the
      clock, [Math.random], whether a storage write throws) is an explicit
      argument of the function that consumes it.
    - A poll tick is one transition: [tick] runs the callback given to
      [setInterval] from its first statement to its last on the
      observations of that tick, as it goes when no other callback runs
      between its awaits.  The callback can wait ten seconds for the
      foreground run of the CLI while the interval is eight seconds: the
      module [Overlap] splits it at that await, so that a second callback
      can start while the first one waits. *)

From Stdlib Require Import String Ascii NArith List Bool Lia DecimalString.
From stdpp Require Import base option list gmap strings.
Import ListNotations.

Local Open Scope N_scope.
Local Open Scope list_scope.

(** ** JavaScript strings *)

Module JS.

Abbreviation jsstring := (list N).

(** An ASCII literal as a sequence of code units. *)
Definition js (s : string) : jsstring :=
  map N_of_ascii (list_ascii_of_string s).

Definition quote : jsstring := [34].
Definition newline : jsstring := [10].

(** Truthiness of a string: only the empty string is falsy. *)
Definition truthy (s : jsstring) : bool :=
  match s with [] => false | _ :: _ => true end.

(** Truthiness of a nullable string ([null] and the empty string are falsy). *)
Definition truthy_opt (o : option jsstring) : bool :=
  match o with Some s => truthy s | None => false end.

(** ECMAScript WhiteSpace and LineTerminator code units: what
    [String.prototype.trim] strips and what [\s] matches. *)
Definition isWhiteSpace (c : N) : bool :=
  ((9 <=? c) && (c <=? 13)) || (c =? 32) || (c =? 160) || (c =? 5760)
  || ((8192 <=? c) && (c <=? 8202)) || (c =? 8232) || (c =? 8233)
  || (c =? 8239) || (c =? 8287) || (c =? 12288) || (c =? 65279).

(** LineTerminator code units: what [.] refuses. *)
Definition isLineTerminator (c : N) : bool :=
  (c =? 10) || (c =? 13) || (c =? 8232) || (c =? 8233).

Fixpoint trimStart (s : jsstring) : jsstring :=
  match s with
  | c :: s' => if isWhiteSpace c then trimStart s' else s
  | [] => []
  end.

Definition trimEnd (s : jsstring) : jsstring :=
  rev (trimStart (rev s)).

Definition trim (s : jsstring) : jsstring := trimEnd (trimStart s).

Fixpoint startsWith (s p : jsstring) : bool :=
  match p, s with
  | [], _ => true
  | _ :: _, [] => false
  | c :: p', d :: s' => (c =? d) && startsWith s' p'
  end.

(** [s.includes(p)] *)
Fixpoint includes (s p : jsstring) : bool :=
  startsWith s p ||
  match s with
  | [] => false
  | _ :: s' => includes s' p
  end.

(** [s.split(sep)] for a separator of one code unit. *)
Fixpoint split (sep : N) (s : jsstring) : list jsstring :=
  match s with
  | [] => [[]]
  | c :: s' =>
      if c =? sep then [] :: split sep s'
      else match split sep s' with
           | l :: ls => (c :: l) :: ls
           | [] => [[c]]
           end
  end.

(** [s.split('\n')] *)
Definition split_lines (s : jsstring) : list jsstring := split 10 s.

(** [l.join(sep)] *)
Fixpoint join (sep : jsstring) (l : list jsstring) : jsstring :=
  match l with
  | [] => []
  | [x] => x
  | x :: xs => x ++ sep ++ join sep xs
  end.

(** [s.substring(0, n)] *)
Definition substring0 (n : nat) (s : jsstring) : jsstring := take n s.

(** [s.substr(start, len)] for non-negative arguments. *)
Definition substr (start len : nat) (s : jsstring) : jsstring :=
  take len (drop start s).

Definition lower1 (c : N) : N :=
  if (65 <=? c) && (c <=? 90) then c + 32 else c.

Definition upper1 (c : N) : N :=
  if (97 <=? c) && (c <=? 122) then c - 32 else c.

(** [s.toLowerCase()] on the letters A-Z; other code units are kept. *)
Definition toLowerCase (s : jsstring) : jsstring := map lower1 s.

(** [obj[key] = text] on a plain object that holds strings.  The name
    [__proto__] is answered by the setter that the object inherits from
    [Object.prototype]; given a string it does nothing, so that no
    property is stored and [Object.keys(obj)] stays as it was.  Under any
    other name the assignment adds or replaces an own property. *)
Definition assign_text (obj : gmap jsstring jsstring) (key text : jsstring)
    : gmap jsstring jsstring :=
  if bool_decide (key = js "__proto__") then obj else <[key := text]> obj.

End JS.
Import JS.

(** ** Regular expressions

    The fragment of ECMAScript regular expressions the server uses, with
    the backtracking order of the language: alternatives left to right,
    greedy quantifiers longest first, lazy quantifiers shortest first.
    Quantifiers only ever apply to a single character class in the
    patterns of this program. *)

Module Regex.

Inductive regex : Type :=
| Empty : regex
| Class (p : N -> bool) : regex
| Cat (r1 r2 : regex) : regex
| Alt (r1 r2 : regex) : regex
| Star (greedy : bool) (p : N -> bool) : regex
| Capture (i : nat) (r : regex) : regex.

(** Capture groups that took part in the match, most recent first. *)
Definition captures := list (nat * jsstring).

Fixpoint group (i : nat) (caps : captures) : option jsstring :=
  match caps with
  | [] => None
  | (j, s) :: caps' => if Nat.eqb i j then Some s else group i caps'
  end.

Section Matcher.
Context {R : Type}.

Fixpoint star_greedy (p : N -> bool) (k : jsstring -> option R)
    (s : jsstring) : option R :=
  match s with
  | c :: s' =>
      if p c then
        match star_greedy p k s' with
        | Some x => Some x
        | None => k s
        end
      else k s
  | [] => k []
  end.

Fixpoint star_lazy (p : N -> bool) (k : jsstring -> option R)
    (s : jsstring) : option R :=
  match k s with
  | Some x => Some x
  | None =>
      match s with
      | c :: s' => if p c then star_lazy p k s' else None
      | [] => None
      end
  end.

(** [rmatch r s caps k]: match [r] at the start of [s], then continue
    with [k] on the rest; the first success in backtracking order. *)
Fixpoint rmatch (r : regex) (s : jsstring) (caps : captures)
    (k : jsstring -> captures -> option R) : option R :=
  match r with
  | Empty => k s caps
  | Class p =>
      match s with
      | c :: s' => if p c then k s' caps else None
      | [] => None
      end
  | Cat r1 r2 => rmatch r1 s caps (fun s' caps' => rmatch r2 s' caps' k)
  | Alt r1 r2 =>
      match rmatch r1 s caps k with
      | Some x => Some x
      | None => rmatch r2 s caps k
      end
  | Star true p => star_greedy p (fun s' => k s' caps) s
  | Star false p => star_lazy p (fun s' => k s' caps) s
  | Capture i r' =>
      rmatch r' s caps
        (fun s' caps' =>
           k s' ((i, take (length s - length s') s) :: caps'))
  end.
End Matcher.

(** A match anchored at the start of [s]: the captures and the rest. *)
Definition match_here (r : regex) (s : jsstring)
    : option (captures * jsstring) :=
  rmatch r s [] (fun rest caps => Some (caps, rest)).

(** [s.match(r)] for a pattern without the [g] flag: leftmost match. *)
Fixpoint search (r : regex) (s : jsstring) : option captures :=
  match match_here r s with
  | Some (caps, _) => Some caps
  | None =>
      match s with
      | [] => None
      | _ :: s' => search r s'
      end
  end.

(** Successive [r.exec(s)] calls of a [g] pattern until [null]: after a
    match of [n] code units the next search starts [n] units further. *)
Fixpoint exec_all (r : regex) (skip : nat) (s : jsstring)
    : list captures :=
  match s with
  | [] => []
  | _ :: s' =>
      match skip with
      | S n => exec_all r n s'
      | O =>
          match match_here r s with
          | Some (caps, rest) =>
              caps :: exec_all r (length s - length rest - 1) s'
          | None => exec_all r 0 s'
          end
      end
  end.

(** [r.test(s)] for a pattern of the shape [^...$] without the [m]
    flag: the match starts at the first code unit and ends at the last. *)
Definition test_whole (r : regex) (s : jsstring) : bool :=
  match rmatch r s []
          (fun rest _ => match rest with [] => Some tt | _ :: _ => None end)
  with
  | Some _ => true
  | None => false
  end.

(** Pattern building blocks. *)
Definition chr (c : N) : regex := Class (N.eqb c).
Definition chr_i (c : N) : regex := Class (fun d => upper1 d =? upper1 c).

Fixpoint lit (s : jsstring) : regex :=
  match s with
  | [] => Empty
  | c :: s' => Cat (chr c) (lit s')
  end.

(** A literal under the [i] flag. *)
Fixpoint lit_i (s : jsstring) : regex :=
  match s with
  | [] => Empty
  | c :: s' => Cat (chr_i c) (lit_i s')
  end.

Definition opt (r : regex) : regex := Alt r Empty.
Definition plus (greedy : bool) (p : N -> bool) : regex :=
  Cat (Class p) (Star greedy p).

Definition ws : N -> bool := isWhiteSpace.
Definition not_ws : N -> bool := fun c => negb (isWhiteSpace c).
Definition dot : N -> bool := fun c => negb (isLineTerminator c).
Definition any : N -> bool := fun _ => true.

End Regex.
Import Regex.

(** ** OutputSignalExtractor: [extractAuthUrl] and [determineStage] *)

Module Signals.

Definition partners : jsstring := js "https://partners.shopify.com/".

(** [/PHRASE\s*(https:\/\/partners\.shopify\.com\/[^\s\n]+)/i] *)
Definition phrase_pattern (phrase : jsstring) : regex :=
  Cat (lit_i phrase)
    (Cat (Star true ws)
       (Capture 1 (Cat (lit_i partners) (plus true not_ws)))).

(** The last pattern: the partner-domain prefix, then a run of
    non-blank code units that has [auth] somewhere in it, all of it
    captured, under the [i] flag. *)
Definition bare_auth_pattern : regex :=
  Capture 1
    (Cat (lit_i partners)
       (Cat (Star true not_ws)
          (Cat (lit_i (js "auth")) (Star true not_ws)))).

Definition patterns : list regex :=
  [ phrase_pattern (js "To create your app, visit:");
    phrase_pattern (js "Please visit the following URL to authenticate:");
    phrase_pattern (js "Visit this URL to authenticate:");
    phrase_pattern (js "Authentication URL:");
    phrase_pattern (js "Open this link:");
    bare_auth_pattern ].

(** The loop over [patterns]: the first pattern that matches decides. *)
Fixpoint first_match (ps : list regex) (output : jsstring)
    : option jsstring :=
  match ps with
  | [] => None
  | p :: ps' =>
      match search p output with
      | Some caps =>
          match group 1 caps with
          | Some u => Some u
          | None => None
          end
      | None => first_match ps' output
      end
  end.

Definition extractAuthUrl (output : jsstring) : option jsstring :=
  first_match patterns output.

Inductive stage : Type :=
| initializing | creating | waiting_auth | authenticating
| finalizing | completed | error.

Definition stage_name (s : stage) : jsstring :=
  match s with
  | initializing => js "initializing"
  | creating => js "creating"
  | waiting_auth => js "waiting_auth"
  | authenticating => js "authenticating"
  | finalizing => js "finalizing"
  | completed => js "completed"
  | error => js "error"
  end.

Definition determineStage (output : jsstring) : stage :=
  let lowerOutput := toLowerCase output in
  if includes lowerOutput (js "creating app")
     || includes lowerOutput (js "setting up")
     || includes lowerOutput (js "initializing")
  then creating
  else if includes lowerOutput (js "authentication")
     || includes lowerOutput (js "auth")
     || includes lowerOutput (js "visit")
     || includes lowerOutput (js "partners.shopify.com")
  then waiting_auth
  else if includes lowerOutput (js "authenticating")
     || includes lowerOutput (js "completing")
  then authenticating
  else if includes lowerOutput (js "finalizing")
     || includes lowerOutput (js "finishing")
     || includes lowerOutput (js "installing dependencies")
  then finalizing
  else if includes lowerOutput (js "success")
     || includes lowerOutput (js "completed")
     || includes lowerOutput (js "done")
  then completed
  else creating.

End Signals.
Import Signals.

(** ** Results of fallible calls *)

(** What an awaited call does: it returns a value or it throws. *)
Inductive outcome (A : Type) : Type :=
| Return (a : A)
| Throw.
Arguments Return {A} a.
Arguments Throw {A}.

Definition returned {A} (o : outcome A) : bool :=
  match o with Return _ => true | Throw => false end.

(** ** JobRecord and JobStore *)

Module JobStore.

(** The metadata object built by [saveShopifyAppMetadata]; its two
    server-timestamp sentinels carry no information and are left out. *)
Record AppData : Type := {
  appId : jsstring;
  appOwner : jsstring;
  appDataName : jsstring;
  appDescription : jsstring;
  appType : jsstring;
  appTemplate : jsstring;
  appStatus : jsstring;
  cliPath : option jsstring;
  projectPath : option jsstring;
  authCompleted : bool
}.

(** Values held by the properties of a job object. *)
Inductive value : Type :=
| VNull
| VUndefined
| VBool (b : bool)
| VStr (s : jsstring)
| VLines (l : list jsstring)
| VServerTime (t : jsstring)
| VApp (d : AppData).

(** A job object, or a partial one passed to an update. *)
Abbreviation job := (gmap string value).

Definition newJob (jobId userId appName now : jsstring) : job :=
  list_to_map
    [ ("jobId"%string, VStr jobId);
      ("userId"%string, VStr userId);
      ("appName"%string, VStr appName);
      ("status"%string, VStr (js "running"));
      ("stage"%string, VStr (js "initializing"));
      ("createdAt"%string, VStr now);
      ("updatedAt"%string, VStr now);
      ("output"%string, VLines []);
      ("authUrl"%string, VNull);
      ("error"%string, VNull);
      ("sandboxId"%string, VNull);
      ("appData"%string, VNull) ].

(** The two collections of the durable document store. *)
Record firestore : Type := {
  app_creation_jobs : gmap jsstring job;
  user_shopify_apps : gmap jsstring AppData
}.

(** The process-wide state of the store: the [inMemoryJobs] map and what
    [getFirestore()] returns ([None] when the SDK is not initialised). *)
Record store : Type := {
  inMemoryJobs : gmap jsstring job;
  db : option firestore
}.

Definition set_memory (st : store) (m : gmap jsstring job) : store :=
  {| inMemoryJobs := m; db := db st |}.

Definition set_jobs (st : store) (fs : firestore) (d : gmap jsstring job)
    : store :=
  {| inMemoryJobs := inMemoryJobs st;
     db := Some {| app_creation_jobs := d;
                   user_shopify_apps := user_shopify_apps fs |} |}.

Definition set_apps (st : store) (fs : firestore)
    (a : gmap jsstring AppData) : store :=
  {| inMemoryJobs := inMemoryJobs st;
     db := Some {| app_creation_jobs := app_creation_jobs fs;
                   user_shopify_apps := a |} |}.

(** [{...existing, ...updates, updatedAt: now}] *)
Definition merge (existing updates : job) (now : value) : job :=
  <["updatedAt"%string := now]> (updates ∪ existing).

(** [createAppCreationJob]: [jobId] is the identifier drawn by
    [generateJobId], [now] the clock, [fs_ok] whether the document write
    goes through.  The function returns the job identifier. *)
Definition createAppCreationJob (userId appName jobId now : jsstring)
    (fs_ok : bool) (st : store) : outcome jsstring * store :=
  let jobData := newJob jobId userId appName now in
  match db st with
  | None =>
      (Return jobId, set_memory st (<[jobId := jobData]> (inMemoryJobs st)))
  | Some fs =>
      if fs_ok then
        let firestoreJobData :=
          <["updatedAt"%string := VServerTime now]>
            (<["createdAt"%string := VServerTime now]> jobData) in
        (Return jobId,
         set_jobs st fs (<[jobId := firestoreJobData]> (app_creation_jobs fs)))
      else
        (Return jobId, set_memory st (<[jobId := jobData]> (inMemoryJobs st)))
  end.

(** [firestore.collection('app_creation_jobs').doc(jobId).update(data)]:
    throws when there is no client, when the call is refused, and when
    the document does not exist. *)
Definition firestore_update (jobId : jsstring) (updateData : job)
    (fs_ok : bool) (st : store) : outcome unit * store :=
  match db st with
  | None => (Throw, st)
  | Some fs =>
      if fs_ok then
        match app_creation_jobs fs !! jobId with
        | Some doc =>
            (Return tt,
             set_jobs st fs
               (<[jobId := updateData ∪ doc]> (app_creation_jobs fs)))
        | None => (Throw, st)
        end
      else (Throw, st)
  end.

Definition update_in_memory (jobId : jsstring) (existingJob updates : job)
    (now : jsstring) (st : store) : store :=
  set_memory st
    (<[jobId := merge existingJob updates (VStr now)]> (inMemoryJobs st)).

(** [updateAppCreationJob], with its three nested handlers. *)
Definition updateAppCreationJob (jobId : jsstring) (updates : job)
    (now : jsstring) (fs_ok : bool) (st : store) : outcome unit * store :=
  let in_memory_first :=
    if negb (bool_decide (is_Some (db st)))
       || bool_decide (is_Some (inMemoryJobs st !! jobId))
    then inMemoryJobs st !! jobId
    else None in
  match in_memory_first with
  | Some existingJob =>
      (Return tt, update_in_memory jobId existingJob updates now st)
  | None =>
      let updateData := <["updatedAt"%string := VServerTime now]> updates in
      match firestore_update jobId updateData fs_ok st with
      | (Return _, st') => (Return tt, st')
      | (Throw, st') =>
          (* catch (firestoreError) *)
          match inMemoryJobs st' !! jobId with
          | Some existingJob =>
              (Return tt, update_in_memory jobId existingJob updates now st')
          | None => (Return tt, st')
          end
      end
  end.

(** Timestamps read back from the document store become ISO strings. *)
Definition normalize_time (v : value) : value :=
  match v with
  | VServerTime t => VStr t
  | _ => v
  end.

Definition normalize (doc : job) : job :=
  alter normalize_time "updatedAt"%string
    (alter normalize_time "createdAt"%string doc).

(** [getAppCreationJob]: [None] is [null]. *)
Definition getAppCreationJob (jobId : jsstring) (fs_ok : bool) (st : store)
    : outcome (option job) :=
  match inMemoryJobs st !! jobId with
  | Some j => Return (Some j)
  | None =>
      match db st with
      | None => Return None
      | Some fs =>
          if fs_ok then
            match app_creation_jobs fs !! jobId with
            | Some doc => Return (Some (normalize doc))
            | None => Return None
            end
          else Return None
      end
  end.

(** [saveShopifyAppMetadata]: returns [undefined] without a client, and
    rethrows when the document write is refused. *)
Definition saveShopifyAppMetadata (userId name : jsstring)
    (cli_path project_path : option jsstring) (auth_completed : bool)
    (newAppId : jsstring) (fs_ok : bool) (st : store)
    : outcome (option AppData) * store :=
  match db st with
  | None => (Return None, st)
  | Some fs =>
      let appMetadata :=
        {| appId := newAppId;
           appOwner := userId;
           appDataName := name;
           appDescription := js "Shopify app created with CLI: " ++ name;
           appType := js "shopify-cli-app";
           appTemplate := js "typescript-react";
           appStatus := js "active";
           cliPath := if truthy_opt cli_path then cli_path else None;
           projectPath :=
             if truthy_opt project_path then project_path else None;
           authCompleted := auth_completed |} in
      if fs_ok then
        (Return (Some appMetadata),
         set_apps st fs (<[newAppId := appMetadata]> (user_shopify_apps fs)))
      else (Throw, st)
  end.

End JobStore.
Import JobStore.

(** ** SandboxProcessMonitor: [monitorShopifyCliProcess] *)

Module Monitor.

(** What [sandbox.commands.run] resolves to: [(stdout, stderr)], a missing
    stream being the empty string; [Throw] is a rejected call. *)
Definition cmd : Type := outcome (jsstring * jsstring).

(** Everything the environment decides during one tick, in the order in
    which the callback asks for it. *)
Record observation : Type := {
  processCheck : cmd;      (* ps aux | grep -v grep | grep "shopify" *)
  logRead : cmd;           (* cat /tmp/shopify_output.log *)
  outputCheck : cmd;       (* ls -la /tmp/app/ *)
  appDirCheck : cmd;       (* cd /tmp && ls -la "<appName>" *)
  filesCheck : cmd;        (* cd /tmp/"<appName>" && ls -la | head -20 *)
  authCheck : cmd;         (* timeout 10 shopify app init ... *)
  newAppId : jsstring;     (* generateProjectId() for the metadata *)
  meta_ok : bool;          (* the metadata document write goes through *)
  now : jsstring;          (* new Date().toISOString() *)
  update_ok : bool         (* the job document update goes through *)
}.

(** The variables of the closure shared by the poll callback and the
    ceiling callback.  [currentOutput] and [lastOutputLength] only feed
    log messages and are left out. *)
Record monitor : Type := {
  outputBuffer : list jsstring;
  authUrl : option jsstring;
  isWaitingForAuth : bool;
  isProcessComplete : bool
}.

(** The part of the process state one monitored job can touch. *)
Record world : Type := {
  jobs : store;
  activeJobs : gset jsstring;          (* keys of the [activeJobs] map *)
  polling : bool;                      (* [pollInterval] is still set *)
  vars : monitor;
  updates : list (jsstring * job)      (* [updateAppCreationJob] calls *)
}.

Definition initial_buffer (appName : jsstring) : list jsstring :=
  [ js "E2B sandbox created successfully";
    js "Initializing Shopify CLI...";
    js "Running shopify app init " ++ quote ++ appName ++ quote ++ js "..." ].

Definition initial_monitor (appName : jsstring) : monitor :=
  {| outputBuffer := initial_buffer appName;
     authUrl := None;
     isWaitingForAuth := false;
     isProcessComplete := false |}.

Definition generic_url : jsstring := js "https://partners.shopify.com/".

Definition auth_required_line (url : jsstring) : jsstring :=
  [55357; 56599] ++ js " Authentication required: " ++ url.

Definition completion_lines : list jsstring :=
  [ [9989] ++ js " Shopify app created successfully!";
    [55357; 56513] ++ js " Project files have been generated";
    [55356; 57225] ++ js " Setup complete!" ].

Definition paused_line : jsstring :=
  [9208; 65039] ++ js "  CLI process paused - may require authentication".

Definition timeout_message : jsstring :=
  js "Process timed out after 25 minutes. This may be due to network issues or authentication requirements.".

Definition abandoned_message : jsstring := js "Job abandoned due to timeout".

Definition set_auth (m : monitor) (url : option jsstring) : monitor :=
  {| outputBuffer := outputBuffer m;
     authUrl := url;
     isWaitingForAuth := true;
     isProcessComplete := isProcessComplete m |}.

Definition set_complete (m : monitor) : monitor :=
  {| outputBuffer := outputBuffer m;
     authUrl := authUrl m;
     isWaitingForAuth := isWaitingForAuth m;
     isProcessComplete := true |}.

Definition push (m : monitor) (lines : list jsstring) : monitor :=
  {| outputBuffer := outputBuffer m ++ lines;
     authUrl := authUrl m;
     isWaitingForAuth := isWaitingForAuth m;
     isProcessComplete := isProcessComplete m |}.

Definition set_url_only (m : monitor) (url : option jsstring) : monitor :=
  {| outputBuffer := outputBuffer m;
     authUrl := url;
     isWaitingForAuth := isWaitingForAuth m;
     isProcessComplete := isProcessComplete m |}.

(** The test that keeps a line out of the buffer: some buffered line
    contains the first 50 code units of the trimmed line. *)
Definition already_buffered (buffer : list jsstring) (trimmedLine : jsstring)
    : bool :=
  existsb (fun existing => includes existing (substring0 50 trimmedLine))
    buffer.

(** The [for (const line of allLines)] loop. *)
Fixpoint collect_new (buffer : list jsstring) (lines : list jsstring)
    : list jsstring :=
  match lines with
  | [] => []
  | line :: rest =>
      let trimmedLine := trim line in
      if truthy trimmedLine && negb (already_buffered buffer trimmedLine)
      then trimmedLine :: collect_new buffer rest
      else collect_new buffer rest
  end.

Definition new_log_lines (buffer : list jsstring) (currentOutput : jsstring)
    : list jsstring :=
  let allLines :=
    List.filter (fun line => truthy (trim line)) (split_lines currentOutput) in
  collect_new buffer allLines.

(** Reading the log: the new lines of this tick and the closure after a
    possible first discovery of the authentication URL. *)
Definition read_log (m : monitor) (log : jsstring)
    : list jsstring * monitor :=
  if truthy log && truthy (trim log) then
    let newOutputLines := new_log_lines (outputBuffer m) log in
    if negb (truthy_opt (authUrl m)) then
      let foundAuthUrl := extractAuthUrl log in
      if truthy_opt foundAuthUrl then
        (newOutputLines
           ++ [auth_required_line (default [] foundAuthUrl)],
         set_auth m foundAuthUrl)
      else (newOutputLines, m)
    else (newOutputLines, m)
  else ([], m).

(** The filesystem probe and, when the process is gone without a URL, the
    one-shot foreground run.  Any rejected command ends the block. *)
Definition probe (isProcessRunning : bool) (o : observation) (m : monitor)
    : monitor :=
  match outputCheck o with
  | Throw => m
  | Return _ =>
  match appDirCheck o with
  | Throw => m
  | Return (dir, _) =>
      if truthy dir && negb (includes dir (js "no app dir yet")) then
        match filesCheck o with
        | Throw => m
        | Return (listing, _) =>
            if truthy listing
               && (includes listing (js "package.json")
                   && includes listing (js "app"))
            then set_complete m
            else m
        end
      else if negb isProcessRunning && negb (truthy_opt (authUrl m)) then
        match authCheck o with
        | Throw => m
        | Return (out, err) =>
            if truthy out || truthy err then
              let fullOutput := out ++ err in
              let foundAuthUrl := extractAuthUrl fullOutput in
              if truthy_opt foundAuthUrl then set_auth m foundAuthUrl
              else if includes fullOutput (js "Authentication")
                      || includes fullOutput (js "login")
                      || includes fullOutput (js "auth")
              then set_auth m (Some generic_url)
              else m
            else m
        end
      else m
  end end.

Definition url_value (u : option jsstring) : value :=
  match u with Some s => VStr s | None => VNull end.

Definition stage_value (s : stage) : value := VStr (stage_name s).

(** One call of [updateAppCreationJob], recorded in the call log. *)
Definition call_update (jobId : jsstring) (updateData : job)
    (t : jsstring) (ok : bool) (w : world) : world :=
  {| jobs := snd (updateAppCreationJob jobId updateData t ok (jobs w));
     activeJobs := activeJobs w;
     polling := polling w;
     vars := vars w;
     updates := updates w ++ [(jobId, updateData)] |}.

Definition clear_interval (w : world) : world :=
  {| jobs := jobs w; activeJobs := activeJobs w; polling := false;
     vars := vars w; updates := updates w |}.

Definition delete_active (jobId : jsstring) (w : world) : world :=
  {| jobs := jobs w; activeJobs := activeJobs w ∖ {[jobId]};
     polling := polling w; vars := vars w; updates := updates w |}.

Definition with_vars (w : world) (m : monitor) : world :=
  {| jobs := jobs w; activeJobs := activeJobs w; polling := polling w;
     vars := m; updates := updates w |}.

Definition with_jobs (w : world) (st : store) : world :=
  {| jobs := st; activeJobs := activeJobs w; polling := polling w;
     vars := vars w; updates := updates w |}.

Definition last_line (buffer : list jsstring) : jsstring :=
  default [] (last buffer).

(** The second half of the callback: from the new lines to the update. *)
Definition settle (jobId userId appName : jsstring)
    (isProcessRunning : bool) (newOutputLines : list jsstring)
    (o : observation) (w : world) (m0 : monitor) : world :=
  let m := push m0 newOutputLines in
  if isProcessComplete m then
    let m := push m completion_lines in
    let path := Some (js "/tmp/" ++ appName) in
    let '(saved, st) :=
      saveShopifyAppMetadata userId appName path path
        (negb (isWaitingForAuth m) || bool_decide (is_Some (authUrl m)))
        (newAppId o) (meta_ok o) (jobs w) in
    let updateData : job :=
      match saved with
      | Return appData =>
          list_to_map
            [ ("stage"%string, stage_value completed);
              ("status"%string, VStr (js "completed"));
              ("appData"%string,
                match appData with Some d => VApp d | None => VUndefined end);
              ("output"%string, VLines (outputBuffer m)) ]
      | Throw => {[ "output"%string := VLines (outputBuffer m) ]}
      end in
    call_update jobId updateData (now o) (update_ok o)
      (clear_interval (delete_active jobId (with_vars (with_jobs w st) m)))
  else if truthy_opt (authUrl m) && isWaitingForAuth m then
    call_update jobId
      (list_to_map
         [ ("output"%string, VLines (outputBuffer m));
           ("authUrl"%string, url_value (authUrl m));
           ("stage"%string, stage_value waiting_auth) ])
      (now o) (update_ok o) (with_vars w m)
  else if negb isProcessRunning && (3 <? length (outputBuffer m))%nat then
    let lastOutput := last_line (outputBuffer m) in
    if includes lastOutput (js "success")
       || includes lastOutput (js "complete")
    then
      call_update jobId
        (list_to_map
           [ ("output"%string, VLines (outputBuffer m));
             ("stage"%string, stage_value completed) ])
        (now o) (update_ok o) (with_vars w (set_complete m))
    else
      let m := push m [paused_line] in
      if negb (truthy_opt (authUrl m)) then
        call_update jobId
          (list_to_map
             [ ("output"%string, VLines (outputBuffer m));
               ("authUrl"%string, VStr generic_url);
               ("stage"%string, stage_value waiting_auth) ])
          (now o) (update_ok o)
          (with_vars w (set_url_only m (Some generic_url)))
      else
        call_update jobId
          (list_to_map
             [ ("output"%string, VLines (outputBuffer m));
               ("stage"%string, stage_value waiting_auth) ])
          (now o) (update_ok o) (with_vars w m)
  else
    call_update jobId
      (list_to_map
         [ ("output"%string, VLines (outputBuffer m));
           ("stage"%string,
             stage_value (determineStage (join (js " ") (outputBuffer m)))) ])
      (now o) (update_ok o) (with_vars w m).

(** One run of the callback given to [setInterval], from its first
    statement to its last with nothing else running between its awaits;
    [Overlap] splits it at the await of the foreground run. *)
Definition tick (jobId userId appName : jsstring) (o : observation)
    (w : world) : world :=
  if negb (bool_decide (jobId ∈ activeJobs w)) || isProcessComplete (vars w)
  then clear_interval w
  else
    match processCheck o with
    | Throw => w                       (* catch (pollError) *)
    | Return (ps, _) =>
        let isProcessRunning := truthy ps && includes ps (js "shopify") in
        match logRead o with
        | Throw =>                     (* catch (outputError) *)
            settle jobId userId appName isProcessRunning [] o w (vars w)
        | Return (log, _) =>
            let '(newOutputLines, m) := read_log (vars w) log in
            settle jobId userId appName isProcessRunning newOutputLines o w
              (probe isProcessRunning o m)
        end
    end.

Definition failure (status_stage_error : jsstring) : job :=
  list_to_map
    [ ("status"%string, VStr (js "failed"));
      ("stage"%string, stage_value error);
      ("error"%string, VStr status_stage_error) ].

(** The callback given to [setTimeout] with the 25 minute delay. *)
Definition ceiling (jobId : jsstring) (t : jsstring) (ok : bool) (w : world)
    : world :=
  let w := clear_interval w in
  if bool_decide (jobId ∈ activeJobs w) && negb (isProcessComplete (vars w))
  then delete_active jobId (call_update jobId (failure timeout_message) t ok w)
  else w.

(** [cleanupAbandonedJobs] finding the entry of [j] older than 30 minutes. *)
Definition abandon (j : jsstring) (t : jsstring) (ok : bool) (w : world)
    : world :=
  if bool_decide (j ∈ activeJobs w)
  then call_update j (failure abandoned_message) t ok (delete_active j w)
  else w.

(** The timers that act on a monitored job: the poll interval, the
    ceiling time-out and the sweep of abandoned jobs.  The poll callback
    only fires while its interval is set. *)
Inductive event : Type :=
| Tick (o : observation)
| Ceiling (t : jsstring) (ok : bool)
| Abandon (j : jsstring) (t : jsstring) (ok : bool).

Definition step (jobId userId appName : jsstring) (w : world) (e : event)
    : world :=
  match e with
  | Tick o => if polling w then tick jobId userId appName o w else w
  | Ceiling t ok => ceiling jobId t ok w
  | Abandon j t ok => abandon j t ok w
  end.

Definition run (jobId userId appName : jsstring) (w : world)
    (es : list event) : world :=
  fold_left (step jobId userId appName) es w.

(** The world in which [monitorShopifyCliProcess] starts: the job is in
    the active table and nothing has been polled yet. *)
Definition started (jobId appName : jsstring) (st : store)
    (others : gset jsstring) : world :=
  {| jobs := st;
     activeJobs := {[jobId]} ∪ others;
     polling := true;
     vars := initial_monitor appName;
     updates := [] |}.

End Monitor.
Import Monitor.

(** ** The job endpoints *)

Module Endpoints.

(** An HTTP response: the status code and the object given to [res.json]. *)
Record response : Type := {
  code : N;
  body : gmap string value
}.

Definition error_response (c : N) (err message : jsstring) : response :=
  {| code := c;
     body := list_to_map [ ("error"%string, VStr err);
                           ("message"%string, VStr message) ] |}.

Definition isLetter (c : N) : bool :=
  ((97 <=? c) && (c <=? 122)) || ((65 <=? c) && (c <=? 90)).
Definition isDigit (c : N) : bool := (48 <=? c) && (c <=? 57).
Definition isDash (c : N) : bool := c =? 45.

(** The class [[a-zA-Z0-9\s\-]]. *)
Definition name_class (c : N) : bool :=
  isLetter c || isDigit c || isWhiteSpace c || isDash c.

(** [/^[a-zA-Z0-9\s\-]+$/] *)
Definition validPattern : regex := plus true name_class.

(** [POST /api/create-shopify-app]: the two guards, the creation of the
    job and the response the handler sends.  Between the creation and
    the response the handler calls [startShopifyAppCreationProcess]
    without awaiting it; the store as that call leaves it is in
    [Creation.post_create_shopify_app]. *)
Definition create_shopify_app (userId appName : jsstring)
    (jobId now : jsstring) (fs_ok : bool) (st : store) : response * store :=
  if negb (truthy appName) || negb (truthy (trim appName)) then
    (error_response 400 (js "App name is required")
       (js "Please provide a valid app name"), st)
  else if negb (test_whole validPattern (trim appName)) then
    (error_response 400 (js "Invalid app name")
       (js "App name can only contain letters, numbers, spaces, and dashes"),
     st)
  else
    match createAppCreationJob userId (trim appName) jobId now fs_ok st with
    | (Return id, st') =>
        ({| code := 200;
            body := list_to_map
              [ ("success"%string, VBool true);
                ("jobId"%string, VStr id);
                ("message"%string, VStr (js "Shopify app creation started"));
                ("estimatedTime"%string, VStr (js "5-15 minutes")) ] |},
         st')
    | (Throw, st') =>
        (error_response 500 (js "Failed to start app creation")
           (js "Failed to create app creation job"), st')
    end.

Definition field (j : job) (k : string) : value :=
  default VUndefined (j !! k).

(** [jobData.output || []] *)
Definition output_or_empty (v : value) : value :=
  match v with
  | VNull | VUndefined | VBool false | VStr [] => VLines []
  | _ => v
  end.

(** [v === s] for a string [s]. *)
Definition is_string (v : value) (s : jsstring) : bool :=
  match v with
  | VStr u => bool_decide (u = s)
  | _ => false
  end.

(** [GET /api/app-creation-status/:jobId] *)
Definition app_creation_status (jobId userId : jsstring) (fs_ok : bool)
    (st : store) : response :=
  match getAppCreationJob jobId fs_ok st with
  | Return None =>
      error_response 404 (js "Job not found")
        (js "The requested job does not exist")
  | Return (Some jobData) =>
      if is_string (field jobData "userId") userId then
        {| code := 200;
           body := list_to_map
             [ ("success"%string, VBool true);
               ("jobId"%string, field jobData "jobId");
               ("status"%string, field jobData "status");
               ("stage"%string, field jobData "stage");
               ("output"%string, output_or_empty (field jobData "output"));
               ("authUrl"%string, field jobData "authUrl");
               ("error"%string, field jobData "error");
               ("appData"%string, field jobData "appData");
               ("createdAt"%string, field jobData "createdAt");
               ("updatedAt"%string, field jobData "updatedAt") ] |}
      else
        error_response 403 (js "Access denied")
          (js "You do not have access to this job")
  | Throw =>
      error_response 500 (js "Failed to get status")
        (js "Internal server error")
  end.

End Endpoints.
Import Endpoints.

(** ** ProjectStore: [saveProject] *)

Module Projects.

Definition digit36 (d : N) : N := if d <? 10 then 48 + d else 87 + d.

Fixpoint toString36_aux (fuel : nat) (n : N) : jsstring :=
  match fuel with
  | O => []
  | S fuel' =>
      if n <? 36 then [digit36 n]
      else toString36_aux fuel' (n / 36) ++ [digit36 (n mod 36)]
  end.

(** [n.toString(36)] for a non-negative integer; the number of binary
    digits of [n] bounds the number of base-36 digits. *)
Definition toString36 (n : N) : jsstring :=
  toString36_aux (S (N.to_nat (N.log2 n))) n.

(** The number a base-36 numeral stands for. *)
Definition undigit36 (c : N) : N := if c <? 58 then c - 48 else c - 87.

Definition value36 (s : jsstring) : N :=
  fold_left (fun acc c => 36 * acc + undigit36 c) s 0.

(** [generateProjectId]: [ms] is [Date.now()] and [rnd] the text of
    [Math.random().toString(36)]. *)
Definition generateProjectId (ms : N) (rnd : jsstring) : jsstring :=
  toString36 ms ++ substr 2 5 rnd.

(** The argument of [saveProject]; a missing property is [None]. *)
Record ProjectData : Type := {
  name : option jsstring;
  description : option jsstring;
  prompt : option jsstring;
  previewUrl : option jsstring;
  sandboxId : option jsstring;
  files : option (list (jsstring * jsstring))    (* Object.entries order *)
}.

(** What a storage object holds. *)
Inductive content : Type :=
| Json (m : gmap string value)       (* JSON.stringify of an object *)
| Text (s : jsstring).

(** What is given to the storage service as the content type of an
    object: a string, or one of the two values that a lookup in a plain
    object finds under a lower-case name without the object having such a
    property, the function [Object] and the object [Object.prototype]. *)
Inductive content_type : Type :=
| Mime (t : jsstring)
| ObjectFunction
| ObjectPrototype.

Record blob : Type := {
  blob_content : content;
  contentType : content_type
}.

Abbreviation bucket_files := (gmap jsstring blob).

Definition contentTypes : gmap jsstring jsstring :=
  list_to_map
    [ (js "js", js "application/javascript");
      (js "json", js "application/json");
      (js "html", js "text/html");
      (js "css", js "text/css");
      (js "txt", js "text/plain");
      (js "md", js "text/markdown") ].

(** [getContentType].  [contentTypes[ext]] finds the six own properties
    and, since [contentTypes] is a plain object, what it inherits: of the
    names of [Object.prototype] only [constructor] and [__proto__] are
    left as they are by [toLowerCase]; both values are truthy, so that
    they are returned in place of ['text/plain']. *)
Definition getContentType (filename : jsstring) : content_type :=
  let ext := toLowerCase (default [] (last (split 46 filename))) in
  match contentTypes !! ext with
  | Some t => if truthy t then Mime t else Mime (js "text/plain")
  | None =>
      if bool_decide (ext = js "constructor") then ObjectFunction
      else if bool_decide (ext = js "__proto__") then ObjectPrototype
      else Mime (js "text/plain")
  end.

(** [a || b] on a nullable string. *)
Definition or_else (a : option jsstring) (b : jsstring) : jsstring :=
  match a with
  | Some s => if truthy s then s else b
  | None => b
  end.

(** [a || null] on a nullable string. *)
Definition or_null (a : option jsstring) : value :=
  match a with
  | Some s => if truthy s then VStr s else VNull
  | None => VNull
  end.

Record saved : Type := {
  projectId : jsstring;
  metadata : gmap string value
}.

Definition minimal (projectId : jsstring) : saved :=
  {| projectId := projectId;
     metadata := {[ "id"%string := VStr projectId ]} |}.

(** The [for ... of Object.entries(projectData.files)] loop; [save_ok]
    tells for each object path whether [file.save] goes through. *)
Fixpoint save_files (projectPath : jsstring)
    (entries : list (jsstring * jsstring)) (save_ok : jsstring -> bool)
    (b : bucket_files) : outcome unit * bucket_files :=
  match entries with
  | [] => (Return tt, b)
  | (filename, text) :: rest =>
      let path := projectPath ++ js "/" ++ filename in
      if save_ok path then
        save_files projectPath rest save_ok
          (<[path := {| blob_content := Text text;
                        contentType := getContentType filename |}]> b)
      else (Throw, b)
  end.

(** The body of the [try] block of [saveProject]. *)
Definition try_save (userId : jsstring) (projectData : option ProjectData)
    (ms : N) (rnd : jsstring) (now : jsstring) (save_ok : jsstring -> bool)
    (bucket : option bucket_files) : outcome saved * option bucket_files :=
  match bucket with
  | None => (Return (minimal (generateProjectId ms rnd)), None)
  | Some b =>
      let projectId := generateProjectId ms rnd in
      let projectPath :=
        js "users/" ++ userId ++ js "/projects/" ++ projectId in
      match projectData with
      | None => (Throw, Some b)
      | Some pd =>
          let metadata : gmap string value :=
            list_to_map
              [ ("id"%string, VStr projectId);
                ("name"%string,
                  VStr (or_else (name pd) (js "Project " ++ projectId)));
                ("description"%string, VStr (or_else (description pd) []));
                ("prompt"%string, VStr (or_else (prompt pd) []));
                ("createdAt"%string, VStr now);
                ("previewUrl"%string, or_null (previewUrl pd));
                ("sandboxId"%string, or_null (sandboxId pd)) ] in
          let metaPath := projectPath ++ js "/project.json" in
          if save_ok metaPath then
            let b1 :=
              <[metaPath := {| blob_content := Json metadata;
                               contentType :=
                                 Mime (js "application/json") |}]> b in
            match files pd with
            | None => (Throw, Some b1)
            | Some entries =>
                match save_files projectPath entries save_ok b1 with
                | (Return _, b2) =>
                    (Return {| projectId := projectId;
                               metadata := metadata |}, Some b2)
                | (Throw, b2) => (Throw, Some b2)
                end
            end
          else (Throw, Some b)
      end
  end.

(** [saveProject]: [(ms1, rnd1)] feed the first [generateProjectId] call
    and [(ms2, rnd2)] the one of the [catch] block. *)
Definition saveProject (userId : jsstring) (projectData : option ProjectData)
    (ms1 : N) (rnd1 : jsstring) (ms2 : N) (rnd2 : jsstring)
    (now : jsstring) (save_ok : jsstring -> bool)
    (bucket : option bucket_files) : outcome saved * option bucket_files :=
  match try_save userId projectData ms1 rnd1 now save_ok bucket with
  | (Return r, b) => (Return r, b)
  | (Throw, b) => (Return (minimal (generateProjectId ms2 rnd2)), b)
  end.

End Projects.
Import Projects.

(** ** Code-block extraction: [extractCodeBlocks] *)

Module CodeBlocks.

Definition fence : jsstring := js "```".

Definition language : regex :=
  Alt (lit_i (js "javascript"))
    (Alt (lit_i (js "js"))
       (Alt (lit_i (js "json"))
          (Alt (lit_i (js "html")) (lit_i (js "css"))))).

Definition isCrLf (c : N) : bool := (c =? 13) || (c =? 10).

(** The pattern of the function, under the flags [g] and [i]: a fence,
    an optional language tag, blanks, an optional [//] comment whose text
    is group 1 (lazy, no line terminator), one of CR and LF, the body as
    group 2 (lazy, any code unit) and the closing fence. *)
Definition codeBlockRegex : regex :=
  Cat (lit fence)
    (Cat (opt language)
       (Cat (Star true ws)
          (Cat (opt (Cat (lit (js "//"))
                       (Cat (Star true ws) (Capture 1 (plus false dot)))))
             (Cat (Class isCrLf)
                (Cat (Capture 2 (Star false any)) (lit fence)))))).

(** One match: [match[1]] and [match[2]]. *)
Record block : Type := {
  comment : option jsstring;
  source : jsstring
}.

Definition block_of (caps : captures) : block :=
  {| comment := group 1 caps; source := default [] (group 2 caps) |}.

(** The matches of the [while ((match = codeBlockRegex.exec(...)))] loop.
    The pattern cannot match the empty string, so every [exec] moves on. *)
Definition blocks (generatedCode : jsstring) : list block :=
  map block_of (exec_all codeBlockRegex 0 generatedCode).

Definition decimal (n : nat) : jsstring :=
  js (NilZero.string_of_uint (Nat.to_uint n)).

(** The chain of [content.includes] tests; [keys] is
    [Object.keys(files).length]. *)
Definition infer_filename (keys : nat) (content : jsstring) : jsstring :=
  if includes content (js "const express = require")
     || includes content (js "app.listen")
  then js "server.js"
  else if includes content (quote ++ js "name" ++ quote ++ js ":")
          && includes content (quote ++ js "dependencies" ++ quote)
  then js "package.json"
  else if includes content (js "<!DOCTYPE html>")
          || includes content (js "<html")
  then js "index.html"
  else if includes content (js "body {") || includes content (js ".")
  then js "styles.css"
  else js "file_" ++ decimal keys ++ js ".js".

(** The file name a block is stored under, given the object built so far. *)
Definition filename_of (files : gmap jsstring jsstring) (b : block)
    : jsstring :=
  let filename :=
    if truthy_opt (comment b) then trim (default [] (comment b)) else [] in
  if negb (truthy filename)
  then infer_filename (size files) (trim (source b))
  else filename.

(** One iteration: [files[filename] = content], on the plain object
    [files]: a block that resolves to the name [__proto__] is not
    stored. *)
Definition store_block (files : gmap jsstring jsstring) (b : block)
    : gmap jsstring jsstring :=
  assign_text files (filename_of files b) (trim (source b)).

Definition extractCodeBlocks (generatedCode : jsstring)
    : gmap jsstring jsstring :=
  fold_left store_block (blocks generatedCode) ∅.

(** The assignments [files[filename] = content] made along the loop, in
    order: the file name chosen for each block, and its content. *)
Fixpoint assignments (files : gmap jsstring jsstring) (bs : list block)
    : list (jsstring * jsstring) :=
  match bs with
  | [] => []
  | b :: bs' =>
      (filename_of files b, trim (source b))
        :: assignments (store_block files b) bs'
  end.

End CodeBlocks.
Import CodeBlocks.

(** ** Vocabulary of the properties and sample inputs *)

(** The code units of the claimed allow-list: letters, digits, the space
    and the dash. *)
Definition listed (c : N) : bool :=
  isLetter c || isDigit c || (c =? 32) || isDash c.

(** A job object as [createAppCreationJob] writes it, in either backend. *)
Definition job_created (st : store) (jobId userId appName : jsstring)
    : Prop :=
  exists j : job,
    (inMemoryJobs st !! jobId = Some j
     \/ exists fs, db st = Some fs /\ app_creation_jobs fs !! jobId = Some j)
    /\ j !! "userId"%string = Some (VStr userId)
    /\ j !! "appName"%string = Some (VStr appName)
    /\ j !! "status"%string = Some (VStr (js "running"))
    /\ j !! "stage"%string = Some (VStr (js "initializing")).

(** A store holding one job, created by alice while no document store
    is configured. *)
Definition two_users_store : store :=
  snd (createAppCreationJob (js "alice") (js "shop") (js "job_1") (js "t0")
         true {| inMemoryJobs := ∅; db := None |}).

(** A generated project with one file. *)
Definition sample_project : ProjectData :=
  {| name := Some (js "inventory tracker");
     description := None;
     prompt := Some (js "inventory tracker");
     previewUrl := None;
     sandboxId := None;
     files := Some [ (js "server.js", js "app.listen(3000)") ] |}.

(** The content of the last pair stored under [f], if any. *)
Fixpoint last_assigned (f : jsstring) (trace : list (jsstring * jsstring))
    : option jsstring :=
  match trace with
  | [] => None
  | (g, c) :: rest =>
      match last_assigned f rest with
      | Some c' => Some c'
      | None => if bool_decide (g = f) then Some c else None
      end
  end.

(** Two blocks announced as [server.js], then one without a name. *)
Definition colliding_blocks : jsstring :=
  js "```js // server.js" ++ newline ++ js "first" ++ newline ++ js "```"
  ++ newline
  ++ js "```js // server.js" ++ newline ++ js "second" ++ newline ++ js "```"
  ++ newline
  ++ js "```" ++ newline ++ js "third" ++ newline ++ js "```".

(** The lines the monitor writes itself. *)
Definition own_line (l : jsstring) : Prop :=
  l = paused_line \/ In l completion_lines
  \/ exists u, l = auth_required_line u.

(** [l] is a trimmed, non-empty line of the log read in this tick, and no
    line of the buffer [before] contains its first 50 code units. *)
Definition from_log (o : observation) (before : list jsstring)
    (l : jsstring) : Prop :=
  exists log err line,
    logRead o = Return (log, err) /\ In line (split_lines log)
    /\ l = trim line /\ l <> []
    /\ forall existing, In existing before ->
         includes existing (substring0 50 l) = false.

(** The monitor holds a URL: [authUrl] is truthy. *)
Definition url_set (m : monitor) : Prop := truthy_opt (authUrl m) = true.

(** An update call that, if it has an [authUrl] property, has [u] there. *)
Definition carries_url (u : option jsstring) (c : jsstring * job) : Prop :=
  forall v, snd c !! "authUrl"%string = Some v -> v = url_value u.

(** The URL variable is [null] until it holds a non-empty string. *)
Definition url_wellformed (m : monitor) : Prop :=
  authUrl m = None \/ url_set m.

(** The update calls made so far for one job. *)
Definition calls_for (jobId : jsstring) (w : world)
    : list (jsstring * job) :=
  List.filter (fun c => bool_decide (fst c = jobId)) (updates w).

(** The record of a job in the in-memory map. *)
Definition record_of (jobId : jsstring) (w : world) : option job :=
  inMemoryJobs (jobs w) !! jobId.

(** The monitor of [jobId] is over: no interval, no entry in the table. *)
Definition quiet (jobId : jsstring) (w : world) : Prop :=
  polling w = false /\ jobId ∉ activeJobs w.

(** A record forced to failure with the message [msg]. *)
Definition failed_record (j : job) (msg : jsstring) : Prop :=
  j !! "status"%string = Some (VStr (js "failed"))
  /\ j !! "stage"%string = Some (VStr (js "error"))
  /\ j !! "error"%string = Some (VStr msg).

(** A command that resolves with the given standard output. *)
Definition ok_cmd (stdout : jsstring) : cmd := Return (stdout, []).

(** No document store; one job, held in memory. *)
Definition memory_store : store :=
  snd (createAppCreationJob (js "u") (js "shop") (js "job_1") (js "t0") true
         {| inMemoryJobs := ∅; db := None |}).

(** The document store is configured and refuses every call. *)
Definition outage_store : store :=
  snd (createAppCreationJob (js "u") (js "shop") (js "job_1") (js "t0") false
         {| inMemoryJobs := ∅;
            db := Some {| app_creation_jobs := ∅;
                          user_shopify_apps := ∅ |} |}).

(** The process is gone, the log ends with a success line, the project
    directory does not exist and the foreground run is rejected. *)
Definition stalled_with_success : observation :=
  {| processCheck := ok_cmd [];
     logRead := ok_cmd (js "Build success");
     outputCheck := ok_cmd (js "no app dir");
     appDirCheck := ok_cmd (js "no app dir yet");
     filesCheck := ok_cmd [];
     authCheck := Throw;
     newAppId := js "app_1";
     meta_ok := true;
     now := js "t1";
     update_ok := true |}.

(** The process is listed, the log is empty, the project directory lists
    an app directory and a package manifest; [metadata_ok] tells whether
    the document store takes writes. *)
Definition markers_found (metadata_ok : bool) : observation :=
  {| processCheck :=
       ok_cmd (js "user 4242 node /usr/local/bin/shopify app init");
     logRead := ok_cmd [];
     outputCheck := ok_cmd (js "no app dir");
     appDirCheck := ok_cmd (js "total 16");
     filesCheck :=
       ok_cmd (js "total 16" ++ newline
               ++ js "drwxr-xr-x 2 user user 4096 app" ++ newline
               ++ js "-rw-r--r-- 1 user user 512 package.json");
     authCheck := Throw;
     newAppId := js "app_1";
     meta_ok := metadata_ok;
     now := js "t1";
     update_ok := metadata_ok |}.

(** The log shows the authentication prompt. *)
Definition prompt_seen : observation :=
  {| processCheck :=
       ok_cmd (js "user 4242 node /usr/local/bin/shopify app init");
     logRead := ok_cmd (js "Please visit the following URL to authenticate: https://partners.shopify.com/abc123");
     outputCheck := ok_cmd (js "no app dir");
     appDirCheck := ok_cmd (js "no app dir yet");
     filesCheck := ok_cmd [];
     authCheck := Throw;
     newAppId := js "app_1";
     meta_ok := true;
     now := js "t1";
     update_ok := true |}.

(** Later the process is gone, the log shows another link and the
    foreground run would print a third one. *)
Definition other_prompt_seen : observation :=
  {| processCheck := ok_cmd [];
     logRead := ok_cmd (js "Open this link: https://partners.shopify.com/zzz999");
     outputCheck := ok_cmd (js "no app dir");
     appDirCheck := ok_cmd (js "no app dir yet");
     filesCheck := ok_cmd [];
     authCheck := ok_cmd (js "Authentication URL: https://partners.shopify.com/other");
     newAppId := js "app_1";
     meta_ok := true;
     now := js "t2";
     update_ok := true |}.

(** The [status] and the [stage] of the in-memory record of a job. *)
Definition status_of (jobId : jsstring) (w : world) : value :=
  match record_of jobId w with
  | Some j => field j "status"
  | None => VUndefined
  end.

Definition stage_of (jobId : jsstring) (w : world) : value :=
  match record_of jobId w with
  | Some j => field j "stage"
  | None => VUndefined
  end.

(** The tick gets as far as the probe and the probe finds the project
    directory with a package manifest and an app entry. *)
Definition markers_observed (o : observation) : Prop :=
  returned (processCheck o) = true
  /\ returned (logRead o) = true
  /\ returned (outputCheck o) = true
  /\ (exists dir err,
        appDirCheck o = Return (dir, err)
        /\ truthy dir = true /\ includes dir (js "no app dir yet") = false)
  /\ (exists listing err,
        filesCheck o = Return (listing, err)
        /\ includes listing (js "package.json") = true
        /\ includes listing (js "app") = true).

(** The callback passes its guard: the job is in the active table and
    not flagged complete. *)
Definition tick_runs (jobId : jsstring) (w : world) : Prop :=
  jobId ∈ activeJobs w /\ isProcessComplete (vars w) = false.

(** The record of the job in the in-memory map shows no URL, or the URL
    the monitor holds. *)
Definition record_url_inv (jobId : jsstring) (w : world) : Prop :=
  exists j, record_of jobId w = Some j
    /\ (j !! "authUrl"%string = Some VNull
        \/ exists u, authUrl (vars w) = Some u /\ u <> []
                     /\ j !! "authUrl"%string = Some (VStr u)).

(** ** What a pattern matches

    [matches r s c c']: the pattern [r] matches the whole of [s], and
    the capture groups go from [c] to [c']. *)
Inductive matches : regex -> jsstring -> captures -> captures -> Prop :=
| matches_empty (c : captures) : matches Empty [] c c
| matches_class (p : N -> bool) (ch : N) (c : captures) :
    p ch = true -> matches (Class p) [ch] c c
| matches_cat (r1 r2 : regex) (s1 s2 : jsstring) (c c1 c2 : captures) :
    matches r1 s1 c c1 -> matches r2 s2 c1 c2 ->
    matches (Cat r1 r2) (s1 ++ s2) c c2
| matches_alt_l (r1 r2 : regex) (s : jsstring) (c c' : captures) :
    matches r1 s c c' -> matches (Alt r1 r2) s c c'
| matches_alt_r (r1 r2 : regex) (s : jsstring) (c c' : captures) :
    matches r2 s c c' -> matches (Alt r1 r2) s c c'
| matches_star (g : bool) (p : N -> bool) (s : jsstring) (c : captures) :
    forallb p s = true -> matches (Star g p) s c c
| matches_capture (i : nat) (r : regex) (s : jsstring) (c c' : captures) :
    matches r s c c' -> matches (Capture i r) s c ((i, s) :: c').

(** [p] occurs in [s]. *)
Definition occurs_in (p s : jsstring) : Prop :=
  exists a b, s = a ++ p ++ b.

(** A code unit that [toLowerCase] leaves alone. *)
Definition not_upper (c : N) : bool := negb ((65 <=? c) && (c <=? 90)).

(** A URL of the partner portal: after case folding it starts with the
    portal prefix, and it has no white space. *)
Definition on_partner_domain (u : jsstring) : Prop :=
  toLowerCase (take (length partners) u) = partners
  /\ forallb not_ws u = true.

(** The URL variable, when set, holds a URL of the partner portal. *)
Definition url_on_domain (m : monitor) : Prop :=
  forall u, authUrl m = Some u -> on_partner_domain u.

(** An update call whose [authUrl], if any, is a URL of the partner
    portal. *)
Definition domain_update (c : jsstring * job) : Prop :=
  forall v, snd c !! "authUrl"%string = Some v ->
            exists u, v = VStr u /\ on_partner_domain u.

(** The stages a timer of the monitor writes. *)
Definition timer_stage (v : value) : Prop :=
  v = stage_value creating \/ v = stage_value waiting_auth
  \/ v = stage_value completed \/ v = stage_value error.

Definition timer_stage_update (c : jsstring * job) : Prop :=
  forall v, snd c !! "stage"%string = Some v -> timer_stage v.

(** The second line of the buffer the monitor starts with. *)
Definition initializing_line : jsstring := js "Initializing Shopify CLI...".



(** The process is gone and the log holds one line that asks to log in;
    the foreground run is rejected. *)
Definition login_needed : observation :=
  {| processCheck := ok_cmd [];
     logRead := ok_cmd (js "Please log in to continue");
     outputCheck := ok_cmd (js "no app dir");
     appDirCheck := ok_cmd (js "no app dir yet");
     filesCheck := ok_cmd [];
     authCheck := Throw;
     newAppId := js "app_1";
     meta_ok := true;
     now := js "t1";
     update_ok := true |}.

(** ** The acknowledgement endpoint and the hourly clean-up *)

Module Setup.

(** The object [{stage: 'finalizing', status: 'running'}]. *)
Definition acknowledged : job :=
  list_to_map [ ("stage"%string, stage_value finalizing);
                ("status"%string, VStr (js "running")) ].

(** [POST /api/complete-app-setup]: [jobId] is the property of the request
    body, [None] when it is missing; [get_ok] and [upd_ok] tell whether
    the document store answers the read and takes the write. *)
Definition complete_app_setup (jobId : option jsstring) (userId : jsstring)
    (get_ok : bool) (t : jsstring) (upd_ok : bool) (st : store)
    : response * store :=
  if negb (truthy_opt jobId) then
    (error_response 400 (js "Job ID is required")
       (js "Please provide a valid job ID"), st)
  else
    let id := default [] jobId in
    match getAppCreationJob id get_ok st with
    | Return None =>
        (error_response 404 (js "Job not found")
           (js "The requested job does not exist"), st)
    | Return (Some jobData) =>
        if is_string (field jobData "userId") userId then
          match updateAppCreationJob id acknowledged t upd_ok st with
          | (Return _, st') =>
              ({| code := 200;
                  body := list_to_map
                    [ ("success"%string, VBool true);
                      ("message"%string,
                        VStr (js "App setup completion acknowledged")) ] |},
               st')
          | (Throw, st') =>
              (error_response 500 (js "Failed to complete setup")
                 (js "Internal server error"), st')
          end
        else
          (error_response 403 (js "Access denied")
             (js "You do not have access to this job"), st)
    | Throw =>
        (error_response 500 (js "Failed to complete setup")
           (js "Internal server error"), st)
    end.

(** The documents matched by [where('createdAt', '<', cutoffTime)]: those
    whose [createdAt] is a timestamp before the cut-off; [older] compares
    a timestamp with the time 24 hours before the call. *)
Definition is_old (older : jsstring -> bool) (doc : job) : bool :=
  match doc !! "createdAt"%string with
  | Some (VServerTime t) => older t
  | _ => false
  end.

(** [cleanupOldJobs]: [query_ok] and [commit_ok] tell whether the query
    and the batch of deletions go through. *)
Definition cleanupOldJobs (older : jsstring -> bool)
    (query_ok commit_ok : bool) (st : store) : store :=
  match db st with
  | None => st
  | Some fs =>
      if query_ok then
        let oldJobs :=
          filter (fun kd => is_old older (snd kd) = true)
            (app_creation_jobs fs) in
        if bool_decide (oldJobs = ∅) then st          (* deleteCount = 0 *)
        else if commit_ok
             then set_jobs st fs (app_creation_jobs fs ∖ oldJobs)
             else st
      else st
  end.

End Setup.
Import Setup.

(** ** Starting the background process: [startShopifyAppCreationProcess] *)

Module Launch.

(** What the sandbox service decides while the process is started: the
    identifier of the new sandbox, whether the three commands resolve, the
    [message] of whatever is thrown (empty when there is none), and for
    the n-th update call the clock and whether the document store takes
    the write. *)
Record launch : Type := {
  sandboxCreate : outcome jsstring;
  cdRun : bool;                       (* cd /tmp *)
  wrapperRun : bool;                  (* the wrapper around the CLI command *)
  touchRun : bool;                    (* touch /tmp/shopify_output.log *)
  thrownMessage : jsstring;
  clock : nat -> jsstring;
  write_ok : nat -> bool
}.

Definition shopifyCommand (appName : jsstring) : jsstring :=
  js "shopify app init " ++ quote ++ appName ++ quote
  ++ js " --template=typescript-react --headless --no-color".

Definition set_active (jobId : jsstring) (w : world) : world :=
  {| jobs := jobs w; activeJobs := {[jobId]} ∪ activeJobs w;
     polling := polling w; vars := vars w; updates := updates w |}.

(** [setInterval] in [monitorShopifyCliProcess], with the closure
    variables at their initial values. *)
Definition start_polling (appName : jsstring) (w : world) : world :=
  {| jobs := jobs w; activeJobs := activeJobs w; polling := true;
     vars := initial_monitor appName; updates := updates w |}.

(** The [catch] block. *)
Definition start_failed (jobId : jsstring) (l : launch) (n : nat)
    (w : world) : world :=
  delete_active jobId
    (call_update jobId
       (failure (if truthy (thrownMessage l) then thrownMessage l
                 else js "Failed to start CLI process"))
       (clock l n) (write_ok l n) w).

Definition startShopifyAppCreationProcess (jobId userId appName : jsstring)
    (l : launch) (st : store) (active : gset jsstring) : world :=
  let w :=
    {| jobs := st; activeJobs := active; polling := false;
       vars := initial_monitor appName; updates := [] |} in
  let w :=
    call_update jobId
      (list_to_map [ ("stage"%string, stage_value initializing);
                     ("status"%string, VStr (js "running")) ])
      (clock l 0) (write_ok l 0) w in
  match sandboxCreate l with
  | Throw => start_failed jobId l 1 w
  | Return sandbox_id =>
      let w := set_active jobId w in
      let w :=
        call_update jobId
          (list_to_map
             [ ("stage"%string, stage_value creating);
               ("sandboxId"%string, VStr sandbox_id);
               ("output"%string,
                 VLines [ js "E2B sandbox created successfully";
                          js "Initializing Shopify CLI..." ]) ])
          (clock l 1) (write_ok l 1) w in
      if negb (cdRun l) then start_failed jobId l 2 w
      else
        let w :=
          call_update jobId
            {[ "output"%string :=
                 VLines [ js "E2B sandbox created successfully";
                          js "Initializing Shopify CLI...";
                          js "Running: " ++ shopifyCommand appName ] ]}
            (clock l 2) (write_ok l 2) w in
        if negb (wrapperRun l) then start_failed jobId l 3 w
        else if negb (touchRun l) then start_failed jobId l 3 w
        else start_polling appName w
  end.

End Launch.
Import Launch.

(** The calls that write to the job store. *)
Inductive store_op : Type :=
| Create (userId appName jobId t : jsstring) (ok : bool)
| Update (jobId : jsstring) (updates : job) (t : jsstring) (ok : bool)
| SaveMetadata (userId appName : jsstring) (cli project : option jsstring)
    (auth : bool) (newAppId : jsstring) (ok : bool)
| Acknowledge (jobId : option jsstring) (userId : jsstring) (get_ok : bool)
    (t : jsstring) (upd_ok : bool)
| Cleanup (older : jsstring -> bool) (query_ok commit_ok : bool).

Definition apply_op (st : store) (op : store_op) : store :=
  match op with
  | Create userId appName jobId t ok =>
      snd (createAppCreationJob userId appName jobId t ok st)
  | Update jobId updates t ok =>
      snd (updateAppCreationJob jobId updates t ok st)
  | SaveMetadata userId appName cli project auth newAppId ok =>
      snd (saveShopifyAppMetadata userId appName cli project auth newAppId
             ok st)
  | Acknowledge jobId userId get_ok t upd_ok =>
      snd (complete_app_setup jobId userId get_ok t upd_ok st)
  | Cleanup older query_ok commit_ok =>
      cleanupOldJobs older query_ok commit_ok st
  end.

(** The app name passes the two guards of the creation endpoint. *)
Definition name_accepted (appName : jsstring) : Prop :=
  truthy (trim appName) = true
  /\ test_whole validPattern (trim appName) = true.

(** Every sandbox call resolves. *)
Definition launch_ok (l : launch) : Prop :=
  returned (sandboxCreate l) = true /\ cdRun l = true
  /\ wrapperRun l = true /\ touchRun l = true.

(** The sandbox is refused; the error carries a message. *)
Definition no_sandbox : launch :=
  {| sandboxCreate := Throw;
     cdRun := true; wrapperRun := true; touchRun := true;
     thrownMessage := js "quota exceeded";
     clock := fun _ => js "t1";
     write_ok := fun _ => true |}.

(** ** ProjectStore: [getProject] *)

Module Loading.

(** The object [getProject] returns: the object parsed from
    [project.json], and the file contents put in its [files] property. *)
Record project : Type := {
  loaded_metadata : gmap string value;
  loaded_files : gmap jsstring jsstring
}.

(** What the storage service decides during one [getProject]: whether
    [exists] and [getFiles] resolve, and for each object whether its
    [download] does. *)
Record reads : Type := {
  exists_ok : bool;
  list_ok : bool;
  download_ok : jsstring -> bool
}.

Definition is_undefined (v : value) : bool :=
  match v with VUndefined => true | _ => false end.

(** What [JSON.parse] gives back for the text [JSON.stringify] made of an
    object: the properties that are not [undefined]. *)
Definition json_image (m : gmap string value) : gmap string value :=
  filter (fun kv => is_undefined (snd kv) = false) m.

Section Json.

(** [JSON.stringify(_, null, 2)] of an object, and [JSON.parse] of a text
    that was stored as such; the second throws or returns an object. *)
Variable stringify : gmap string value -> jsstring.
Variable parse : jsstring -> outcome (gmap string value).

(** [content.toString()] *)
Definition text_of (c : content) : jsstring :=
  match c with
  | Text s => s
  | Json m => stringify m
  end.

(** [JSON.parse(content.toString())] *)
Definition parse_content (c : content) : outcome (gmap string value) :=
  match c with
  | Json m => Return (json_image m)
  | Text s => parse s
  end.

(** One round of [for (const file of files)]; [prefix] is
    [projectFilesPath].  [projectFiles] is a plain object: the text of an
    object named [__proto__] is downloaded and not kept. *)
Definition load_file (prefix : jsstring) (r : reads)
    (file : jsstring * blob) (projectFiles : gmap jsstring jsstring)
    : gmap jsstring jsstring :=
  let filename := drop (length prefix) (fst file) in
  if truthy filename
     && negb (bool_decide (filename = js "project.json"))
     && download_ok r (fst file)
  then assign_text projectFiles filename (text_of (blob_content (snd file)))
  else projectFiles.

(** [getProject]; [None] is [null].  The objects listed under the prefix
    have different names, so the order in which they are visited does
    not show in [projectFiles]. *)
Definition getProject (userId projectId : jsstring) (r : reads)
    (bucket : option bucket_files) : option project :=
  match bucket with
  | None => None
  | Some b =>
      let projectPath :=
        js "users/" ++ userId ++ js "/projects/" ++ projectId
        ++ js "/project.json" in
      if negb (exists_ok r) then None
      else
        match b !! projectPath with
        | None => None
        | Some projectFile =>
            if negb (download_ok r projectPath) then None
            else
              match parse_content (blob_content projectFile) with
              | Throw => None
              | Return metadata =>
                  let projectFilesPath :=
                    js "users/" ++ userId ++ js "/projects/" ++ projectId
                    ++ js "/" in
                  if negb (list_ok r) then None
                  else
                    let files :=
                      filter (fun kv =>
                                startsWith (fst kv) projectFilesPath = true)
                        b in
                    let projectFiles :=
                      foldr (load_file projectFilesPath r) ∅
                        (map_to_list files) in
                    Some {| loaded_metadata :=
                              delete "files"%string metadata;
                            loaded_files := projectFiles |}
              end
        end
  end.

End Json.

End Loading.
Import Loading.

(** ** The authentication middleware: [authenticateUser] *)

Module Auth.

(** [req.user] *)
Record user : Type := {
  uid : jsstring;
  email : option jsstring;
  token : jsstring
}.

(** The middleware answers itself or hands over to the next handler. *)
Inductive decision : Type :=
| Answer (r : response)
| Next (u : user).

Definition fallback_user (token : jsstring) : user :=
  {| uid := js "user_" ++ substring0 10 token;
     email := Some (js "demo@example.com");
     token := token |}.

(** [authenticateUser]: [authHeader] is the [authorization] header,
    [initialised] tells whether the admin SDK has an app and a bucket,
    [verifyIdToken] gives the [uid] and the [email] of the decoded token
    or throws. *)
Definition authenticateUser (authHeader : option jsstring)
    (initialised : bool)
    (verifyIdToken : jsstring -> outcome (jsstring * option jsstring))
    : decision :=
  if negb (truthy_opt authHeader)
     || negb (startsWith (default [] authHeader) (js "Bearer "))
  then
    Answer (error_response 401 (js "Authentication required")
              (js "Please provide a valid authentication token"))
  else
    let token := drop 7 (default [] authHeader) in
    if negb initialised then Next (fallback_user token)
    else
      match verifyIdToken token with
      | Return (id, mail) =>
          Next {| uid := id; email := mail; token := token |}
      | Throw => Next (fallback_user token)
      end.

End Auth.
Import Auth.

(** The path of an object of a project. *)
Definition object_path (userId projectId filename : jsstring) : jsstring :=
  js "users/" ++ userId ++ js "/projects/" ++ projectId ++ js "/"
  ++ filename.

(** No object of the bucket lies under the directory of the project. *)
Definition unused_project (b : bucket_files) (userId projectId : jsstring)
    : Prop :=
  forall name, startsWith name (object_path userId projectId []) = true ->
               b !! name = None.

(** File names that pass the test of the loop of [getProject]: not
    empty, not [project.json]. *)
Definition plain_name (filename : jsstring) : Prop :=
  filename <> [] /\ filename <> js "project.json".

(** The entries of an object: no property name comes twice. *)
Definition entries_of_object (entries : list (jsstring * jsstring)) : Prop :=
  NoDup (map fst entries).

(** Every call of the storage service resolves. *)
Definition all_reads : reads :=
  {| exists_ok := true; list_ok := true; download_ok := fun _ => true |}.

(** A project whose values are all present. *)
Definition full_project : ProjectData :=
  {| name := Some (js "alice-001");
     description := Some (js "Generated from prompt");
     prompt := Some (js "inventory tracker");
     previewUrl := Some (js "https://3000-abc.e2b.dev");
     sandboxId := Some (js "abc");
     files := Some [ (js "server.js", js "app.listen(3000)");
                     (js "package.json", js "{}") ] |}.

(** A project with a generated file named like the metadata object. *)
Definition clobbering_project : ProjectData :=
  {| name := Some (js "alice-002");
     description := None;
     prompt := None;
     previewUrl := None;
     sandboxId := None;
     files := Some [ (js "project.json", js "not json") ] |}.

(** The directory of a user in the bucket. *)
Definition user_directory (userId : jsstring) : jsstring :=
  js "users/" ++ userId ++ js "/projects/".

(** An identifier without a slash. *)
Definition slash_free (s : jsstring) : Prop := ~ In 47 s.

(** The record of the job in the in-memory map shows the buffer of the
    monitor as its output. *)
Definition in_sync (jobId : jsstring) (w : world) : Prop :=
  exists j, record_of jobId w = Some j
            /\ j !! "output"%string = Some (VLines (outputBuffer (vars w))).

(** The lines of output of the in-memory record of a job. *)
Definition reported_output (jobId : jsstring) (w : world)
    : list jsstring :=
  match record_of jobId w with
  | Some j => match j !! "output"%string with
              | Some (VLines l) => l
              | _ => []
              end
  | None => []
  end.

(** The process check is rejected, while the project directory holds
    the package manifest and the app entry. *)
Definition check_rejected : observation :=
  {| processCheck := Throw;
     logRead := ok_cmd [];
     outputCheck := ok_cmd (js "no app dir");
     appDirCheck := ok_cmd (js "total 16");
     filesCheck :=
       ok_cmd (js "total 16" ++ newline
               ++ js "drwxr-xr-x 2 user user 4096 app" ++ newline
               ++ js "-rw-r--r-- 1 user user 512 package.json");
     authCheck := Throw;
     newAppId := js "app_1";
     meta_ok := true;
     now := js "t1";
     update_ok := true |}.

(** ** The set-up page: the caller of the job endpoints *)

Module Page.

(** The section of the page that is displayed. *)
Inductive view : Type :=
| NameView | ProgressView | AuthView | SuccessView | ErrorView.

(** The part of the page the status polling acts on: the lines of the
    output panel, whether the polling interval is set, the section on
    display, the target of the authentication link and the text of the
    error message.  The classes and texts of the three progress steps
    play no part in these and are left out. *)
Record page : Type := {
  outputLines : list jsstring;
  isPolling : bool;
  section : view;
  authLink : option value;
  errorMessage : option value
}.

(** Truthiness of a value of a response. *)
Definition truthy_value (v : value) : bool :=
  match v with
  | VNull | VUndefined | VBool false | VStr [] => false
  | _ => true
  end.

(** [validateAppName]; the page tests the pattern of the endpoint. *)
Definition validateAppName (name : jsstring) : bool :=
  test_whole validPattern name && (0 <? length (trim name))%nat.

(** [handleCreateApp] up to the request: the app name it sends for the
    text [value] of the input, or [None] when it returns at once. *)
Definition handleCreateApp (value : jsstring) (signedIn : bool)
    : option jsstring :=
  let appName := trim value in
  if negb (truthy appName) || negb (validateAppName appName)
     || negb signedIn
  then None
  else Some appName.

Definition stopStatusPolling (p : page) : page :=
  {| outputLines := outputLines p; isPolling := false;
     section := section p; authLink := authLink p;
     errorMessage := errorMessage p |}.

Definition showSection (s : view) (p : page) : page :=
  {| outputLines := outputLines p; isPolling := isPolling p;
     section := s; authLink := authLink p;
     errorMessage := errorMessage p |}.

Definition appendToOutput (p : page) (line : jsstring) : page :=
  {| outputLines := outputLines p ++ [line]; isPolling := isPolling p;
     section := section p; authLink := authLink p;
     errorMessage := errorMessage p |}.

Definition showAuthSection (url : value) (p : page) : page :=
  showSection AuthView
    {| outputLines := outputLines p; isPolling := isPolling p;
       section := section p; authLink := Some url;
       errorMessage := errorMessage p |}.

Definition showError (message : value) (p : page) : page :=
  showSection ErrorView
    {| outputLines := outputLines p; isPolling := isPolling p;
       section := section p; authLink := authLink p;
       errorMessage := Some message |}.

(** The [switch (stage)] of [updateProgressUI]. *)
Definition show_stage (statusData : gmap string value) (p : page) : page :=
  match field statusData "stage" with
  | VStr stage =>
      if bool_decide (stage = js "waiting_auth") then
        if truthy_value (field statusData "authUrl")
        then showAuthSection (field statusData "authUrl") p
        else p
      else if bool_decide (stage = js "completed") then
        showSection SuccessView (stopStatusPolling p)
      else if bool_decide (stage = js "failed")
              || bool_decide (stage = js "error") then
        showError
          (if truthy_value (field statusData "error")
           then field statusData "error"
           else VStr (js "An unexpected error occurred during app creation."))
          (stopStatusPolling p)
      else p
  | _ => p
  end.

(** [updateProgressUI] on the object of the response; an [output] that
    is a non-empty string has no [forEach], and the call throws. *)
Definition updateProgressUI (statusData : gmap string value) (p : page)
    : outcome page :=
  match field statusData "output" with
  | VLines output =>
      Return (show_stage statusData (fold_left appendToOutput output p))
  | VStr (_ :: _) => Throw
  | _ => Return (show_stage statusData p)
  end.

(** One run of the polling callback, [checkAppCreationStatus], given the
    response of the status endpoint; the callback runs while the interval
    is set.  A response that is not [ok] is thrown away, like anything
    thrown while the page is updated. *)
Definition checkAppCreationStatus (r : response) (p : page) : page :=
  if isPolling p then
    if (200 <=? code r) && (code r <=? 299)
    then match updateProgressUI (body r) p with
         | Return p' => p'
         | Throw => p
         end
    else p
  else p.

End Page.
Import Page.

(** The page right after [startStatusPolling]. *)
Definition polling_page : page :=
  {| outputLines := [js "Starting Shopify CLI..."];
     isPolling := true;
     section := ProgressView;
     authLink := None;
     errorMessage := None |}.

(** The stages at which the page stops polling. *)
Definition final_stage (v : value) : Prop :=
  v = VStr (js "completed") \/ v = VStr (js "failed")
  \/ v = VStr (js "error").

(** The record of the job is in memory, belongs to the user, has lines
    as output and a stage at which the page goes on polling. *)
Definition unfinished (jobId userId : jsstring) (w : world) : Prop :=
  exists j lines,
    record_of jobId w = Some j
    /\ j !! "userId"%string = Some (VStr userId)
    /\ j !! "output"%string = Some (VLines lines)
    /\ ~ final_stage (field j "stage").

(** The polling callback of the page of [userId], run once in each of
    the worlds [ws]. *)
Definition polls (jobId userId : jsstring) (ok : bool) (ws : list world)
    (p : page) : page :=
  fold_left
    (fun p w =>
       checkAppCreationStatus (app_creation_status jobId userId ok (jobs w)) p)
    ws p.

(** ** Deploying generated code: [deployCodeToSandbox] *)

Module Deploy.

(** [JSON.stringify(basicPackageJson, null, 2)] *)
Definition basicPackageJson : jsstring :=
  js "{" ++ newline
  ++ js "  " ++ quote ++ js "name" ++ quote ++ js ": "
  ++ quote ++ js "shopify-app" ++ quote ++ js "," ++ newline
  ++ js "  " ++ quote ++ js "version" ++ quote ++ js ": "
  ++ quote ++ js "1.0.0" ++ quote ++ js "," ++ newline
  ++ js "  " ++ quote ++ js "main" ++ quote ++ js ": "
  ++ quote ++ js "server.js" ++ quote ++ js "," ++ newline
  ++ js "  " ++ quote ++ js "dependencies" ++ quote ++ js ": {" ++ newline
  ++ js "    " ++ quote ++ js "express" ++ quote ++ js ": "
  ++ quote ++ js "^4.18.2" ++ quote ++ newline
  ++ js "  }" ++ newline
  ++ js "}".

(** [deployCodeToSandbox], as far as its result goes: [mkdir_ok] tells
    whether the directory is made and [write_ok path content] whether a
    write goes through.  The function throws when one of the calls is
    rejected and returns [codeBlocks] otherwise; the files of the sandbox
    are not part of the model. *)
Definition deployCodeToSandbox (mkdir_ok : bool)
    (write_ok : jsstring -> jsstring -> bool) (generatedCode : jsstring)
    : outcome (gmap jsstring jsstring) :=
  if negb mkdir_ok then Throw
  else
    let codeBlocks := extractCodeBlocks generatedCode in
    if negb (bool_decide
               (map_Forall
                  (fun filename content =>
                     write_ok (js "/tmp/app/" ++ filename) content = true)
                  codeBlocks))
    then Throw
    else if truthy_opt (codeBlocks !! js "package.json")
    then Return codeBlocks
    else if write_ok (js "/tmp/app/package.json") basicPackageJson
    then Return (<[js "package.json" := basicPackageJson]> codeBlocks)
    else Throw.

(** The [projectData] that [POST /api/generate-code] hands to
    [saveProject]; the entries of [files] are those of [codeBlocks], in
    the order of the map, which shows only when a write is refused
    midway. *)
Definition generated_project (projectName promptText url sandbox : jsstring)
    (codeBlocks : gmap jsstring jsstring) : ProjectData :=
  {| name := Some projectName;
     description :=
       Some (js "Generated from prompt: " ++ quote
             ++ substring0 100 promptText
             ++ (if (100 <? length promptText)%nat then js "..." else [])
             ++ quote);
     prompt := Some promptText;
     previewUrl := Some url;
     sandboxId := Some sandbox;
     files := Some (map_to_list codeBlocks) |}.

End Deploy.
Import Deploy.

(** A generated answer with one block, a server without a manifest. *)
Definition one_block : jsstring :=
  js "Here is the app:" ++ newline
  ++ js "```javascript" ++ newline
  ++ js "// server.js" ++ newline
  ++ js "const express = require('express');" ++ newline
  ++ js "```".

(** ** The dashboard: how generated code is put on the page *)

Module Dashboard.

(** [s.replace(/c/g, r)] for a pattern of one code unit. *)
Fixpoint replace_unit (c : N) (r : jsstring) (s : jsstring) : jsstring :=
  match s with
  | [] => []
  | d :: s' => (if d =? c then r else [d]) ++ replace_unit c r s'
  end.

(** [s.replace(/  /g, r)]: the pairs of spaces, from the left, without
    overlap. *)
Fixpoint replace_two_spaces (r : jsstring) (s : jsstring) : jsstring :=
  match s with
  | c :: s' =>
      match s' with
      | d :: s'' =>
          if (c =? 32) && (d =? 32) then r ++ replace_two_spaces r s''
          else c :: replace_two_spaces r s'
      | [] => [c]
      end
  | [] => []
  end.

(** [formatCodeForDisplay]; its result is assigned to [innerHTML]. *)
Definition formatCodeForDisplay (code : jsstring) : jsstring :=
  replace_two_spaces (js "&nbsp;&nbsp;")
    (replace_unit 10 (js "<br>")
       (replace_unit 62 (js "&gt;")
          (replace_unit 60 (js "&lt;") code))).

End Dashboard.
Import Dashboard.

(** A text made of code units other than the two angle brackets and of
    line-break tags. *)
Inductive text_and_breaks : jsstring -> Prop :=
| tb_nil : text_and_breaks []
| tb_unit (c : N) (s : jsstring) :
    c <> 60 -> c <> 62 -> text_and_breaks s -> text_and_breaks (c :: s)
| tb_break (s : jsstring) :
    text_and_breaks s -> text_and_breaks (js "<br>" ++ s).

(** The names of the properties of the object [createAppCreationJob]
    builds. *)
Definition job_fields : list string :=
  [ "jobId"; "userId"; "appName"; "status"; "stage"; "createdAt";
    "updatedAt"; "output"; "authUrl"; "error"; "sandboxId";
    "appData" ]%string.

(** Two blocks announced as [__proto__], then one without a name. *)
Definition proto_blocks : jsstring :=
  js "```js // __proto__" ++ newline ++ js "first" ++ newline ++ js "```"
  ++ newline
  ++ js "```js // __proto__" ++ newline ++ js "second" ++ newline ++ js "```"
  ++ newline
  ++ js "```" ++ newline ++ js "third" ++ newline ++ js "```".

(** A fenced block with a language tag that the pattern does not list. *)
Definition python_block : jsstring :=
  js "```python" ++ newline ++ js "print(1)" ++ newline ++ js "```".

(** A project with a file named [__proto__]. *)
Definition proto_project : ProjectData :=
  {| name := Some (js "alice-003");
     description := None;
     prompt := None;
     previewUrl := None;
     sandboxId := None;
     files := Some [ (js "server.js", js "app.listen(3000)");
                     (js "__proto__", js "{}") ] |}.

(** ** The creation endpoint as a whole *)

Module Creation.

(** The object of the first update of [startShopifyAppCreationProcess]. *)
Definition first_update : job :=
  list_to_map [ ("stage"%string, stage_value initializing);
                ("status"%string, VStr (js "running")) ].

(** [startShopifyAppCreationProcess] from its call to the first point
    where it gives way.  An async function runs on the stack of its
    caller up to its first pending await: for a job held in the in-memory
    map [updateAppCreationJob] writes the merged record and returns
    without awaiting anything, at the time [t] of its clock; for any other
    job the call to the document store is sent and not yet answered (and
    without a document store nothing is written). *)
Definition start_call (jobId t : jsstring) (st : store) : store :=
  match inMemoryJobs st !! jobId with
  | Some existingJob => update_in_memory jobId existingJob first_update t st
  | None => st
  end.

(** The handler of [POST /api/create-shopify-app] from the request to the
    response: the two guards, the creation of the job, the call of
    [startShopifyAppCreationProcess], which is not awaited, and
    [res.json].  The store is the one the handler leaves when it
    responds; the rest of the background process runs afterwards
    ([Launch.startShopifyAppCreationProcess]). *)
Definition post_create_shopify_app (userId appName : jsstring)
    (jobId now t : jsstring) (fs_ok : bool) (st : store) : response * store :=
  if negb (truthy appName) || negb (truthy (trim appName)) then
    (error_response 400 (js "App name is required")
       (js "Please provide a valid app name"), st)
  else if negb (test_whole validPattern (trim appName)) then
    (error_response 400 (js "Invalid app name")
       (js "App name can only contain letters, numbers, spaces, and dashes"),
     st)
  else
    match createAppCreationJob userId (trim appName) jobId now fs_ok st with
    | (Return id, st') =>
        ({| code := 200;
            body := list_to_map
              [ ("success"%string, VBool true);
                ("jobId"%string, VStr id);
                ("message"%string, VStr (js "Shopify app creation started"));
                ("estimatedTime"%string, VStr (js "5-15 minutes")) ] |},
         start_call id t st')
    | (Throw, st') =>
        (error_response 500 (js "Failed to start app creation")
           (js "Failed to create app creation job"), st')
    end.

(** The store once the first update, called by [start_call], has been
    answered; [ok] tells whether the document store took it.  For a job
    held in memory this is the store [start_call] made. *)
Definition first_update_done (jobId t : jsstring) (ok : bool) (st : store)
    : store :=
  snd (updateAppCreationJob jobId first_update t ok st).

End Creation.
Import Creation.

(** The status endpoint answers with a job as it is before the sandbox
    service has answered the background process. *)
Definition reports_new_job (s : response) (jobId created updated : jsstring)
    : Prop :=
  code s = 200
  /\ body s !! "jobId"%string = Some (VStr jobId)
  /\ body s !! "status"%string = Some (VStr (js "running"))
  /\ body s !! "stage"%string = Some (VStr (js "initializing"))
  /\ body s !! "output"%string = Some (VLines [])
  /\ body s !! "authUrl"%string = Some VNull
  /\ body s !! "error"%string = Some VNull
  /\ body s !! "createdAt"%string = Some (VStr created)
  /\ body s !! "updatedAt"%string = Some (VStr updated).

(** ** Overlapping poll callbacks

    [setInterval] fires the callback every eight seconds and does not
    wait for the promise the callback returns.  Of the commands a
    callback awaits, the foreground run of the CLI is given ten seconds
    by [timeout 10]: a second callback can start while the first one
    waits for it.  The callback is split here at that await; the other
    commands are short and are taken to resolve before the next callback
    fires. *)

Module Overlap.

(** The callback gets as far as starting the foreground run: the two
    listings resolve, the second one shows no project directory, the
    process is gone and the closure holds no URL. *)
Definition reaches_auth_check (isProcessRunning : bool) (o : observation)
    (m : monitor) : bool :=
  match outputCheck o with
  | Throw => false
  | Return _ =>
      match appDirCheck o with
      | Throw => false
      | Return (dir, _) =>
          negb (truthy dir && negb (includes dir (js "no app dir yet")))
          && (negb isProcessRunning && negb (truthy_opt (authUrl m)))
      end
  end.

(** The statements after the await of the foreground run, on the closure
    as the resuming callback finds it: the test of [authUrl] was made
    before the await, and neither assignment repeats it. *)
Definition after_auth_check (result : cmd) (m : monitor) : monitor :=
  match result with
  | Throw => m
  | Return (out, err) =>
      if truthy out || truthy err then
        let fullOutput := out ++ err in
        let foundAuthUrl := extractAuthUrl fullOutput in
        if truthy_opt foundAuthUrl then set_auth m foundAuthUrl
        else if includes fullOutput (js "Authentication")
                || includes fullOutput (js "login")
                || includes fullOutput (js "auth")
        then set_auth m (Some generic_url)
        else m
      else m
  end.

(** Where a callback stands when it gives way: at its end, or at the
    await of the foreground run, with its local variables
    [isProcessRunning] and [newOutputLines]. *)
Inductive callback : Type :=
| Finished (w : world)
| AwaitingAuthCheck (isProcessRunning : bool)
    (newOutputLines : list jsstring) (w : world).

(** The callback from its first statement to the await of the foreground
    run, or to its end when it does not get there. *)
Definition tick_begin (jobId userId appName : jsstring) (o : observation)
    (w : world) : callback :=
  if negb (bool_decide (jobId ∈ activeJobs w)) || isProcessComplete (vars w)
  then Finished (clear_interval w)
  else
    match processCheck o with
    | Throw => Finished w
    | Return (ps, _) =>
        let isProcessRunning := truthy ps && includes ps (js "shopify") in
        match logRead o with
        | Throw =>
            Finished
              (settle jobId userId appName isProcessRunning [] o w (vars w))
        | Return (log, _) =>
            let '(newOutputLines, m) := read_log (vars w) log in
            if reaches_auth_check isProcessRunning o m
            then AwaitingAuthCheck isProcessRunning newOutputLines
                   (with_vars w m)
            else
              Finished
                (settle jobId userId appName isProcessRunning newOutputLines
                   o w (probe isProcessRunning o m))
        end
    end.

(** The callback from the answer of the foreground run to its end, in the
    world as it is by then; [o] holds that answer and what the
    environment decides afterwards. *)
Definition tick_resume (jobId userId appName : jsstring)
    (isProcessRunning : bool) (newOutputLines : list jsstring)
    (o : observation) (w : world) : world :=
  settle jobId userId appName isProcessRunning newOutputLines o w
    (after_auth_check (authCheck o) (vars w)).

End Overlap.
Import Overlap.

(** The foreground run of this callback prints the URL [u]. *)
Definition probe_prints (o : observation) (u : jsstring) : Prop :=
  exists out err,
    authCheck o = Return (out, err)
    /\ extractAuthUrl (out ++ err) = Some u /\ u <> [].

(** The process is gone, the log asks to log in without a link, there is
    no project directory, and the foreground run prints a link that ends
    with [code]. *)
Definition login_printed (code : jsstring) (t : jsstring) : observation :=
  {| processCheck := ok_cmd [];
     logRead := ok_cmd (js "Please log in to continue");
     outputCheck := ok_cmd (js "no app dir");
     appDirCheck := ok_cmd (js "no app dir yet");
     filesCheck := ok_cmd [];
     authCheck :=
       ok_cmd (js "Please visit the following URL to authenticate: https://partners.shopify.com/"
               ++ code);
     newAppId := js "app_1";
     meta_ok := true;
     now := t;
     update_ok := true |}.

(** * Properties *)

(** ** Strings and patterns *)

Lemma truthy_nonempty (s : jsstring) : truthy s = true <-> s <> [].
Proof. destruct s; simpl; split; intros; congruence. Qed.

Lemma trimStart_keeps (s : jsstring) (c : N) :
  In c s -> isWhiteSpace c = false -> In c (trimStart s).
Proof.
  induction s as [|d s IH]; simpl; [tauto|].
  intros [->|Hin] Hc.
  - rewrite Hc. now left.
  - destruct (isWhiteSpace d); [auto | now right].
Qed.

Lemma trimStart_sub (s : jsstring) (c : N) :
  In c (trimStart s) -> In c s.
Proof.
  induction s as [|d s IH]; simpl; [tauto|].
  destruct (isWhiteSpace d); simpl; tauto.
Qed.

Lemma trim_keeps (s : jsstring) (c : N) :
  In c s -> isWhiteSpace c = false -> In c (trim s).
Proof.
  intros Hin Hc. unfold trim, trimEnd.
  apply in_rev. rewrite rev_involutive.
  apply trimStart_keeps; [|exact Hc].
  apply in_rev. rewrite rev_involutive.
  now apply trimStart_keeps.
Qed.

Lemma trim_sub (s : jsstring) (c : N) : In c (trim s) -> In c s.
Proof.
  unfold trim, trimEnd. intros Hin.
  apply in_rev in Hin. apply trimStart_sub in Hin.
  apply in_rev in Hin. now apply trimStart_sub in Hin.
Qed.

Lemma star_greedy_to_end (p : N -> bool) (s : jsstring) :
  star_greedy p
    (fun rest => match rest with [] => Some tt | _ :: _ => None end) s
  = if forallb p s then Some tt else None.
Proof.
  induction s as [|c s IH]; simpl; [reflexivity|].
  destruct (p c); simpl; [|reflexivity].
  rewrite IH. now destruct (forallb p s).
Qed.

(** A pattern [^[class]+$] accepts exactly the non-empty strings made of
    code units of the class. *)
Lemma test_whole_plus (p : N -> bool) (s : jsstring) :
  test_whole (plus true p) s = truthy s && forallb p s.
Proof.
  unfold test_whole, plus. simpl.
  destruct s as [|c s]; simpl; [reflexivity|].
  destruct (p c); simpl; [|reflexivity].
  rewrite star_greedy_to_end. now destruct (forallb p s).
Qed.

(** The matcher on small patterns: the [i] flag, a greedy and a lazy
    quantifier, and the restart of a [g] pattern after each match. *)
Example search_ignores_case :
  search (Capture 1 (lit_i (js "auth"))) (js "OAuth") = Some [(1%nat, js "Auth")].
Proof. reflexivity. Qed.

Example greedy_takes_longest :
  search (Cat (chr 97) (Cat (Capture 1 (Star true any)) (chr 98)))
    (js "a1b2b") = Some [(1%nat, js "1b2")].
Proof. reflexivity. Qed.

Example lazy_takes_shortest :
  search (Cat (chr 97) (Cat (Capture 1 (Star false any)) (chr 98)))
    (js "a1b2b") = Some [(1%nat, js "1")].
Proof. reflexivity. Qed.

Example exec_all_moves_on :
  exec_all (Cat (chr 97) (Capture 1 (plus true isLetter))) 0 (js "abc ab a")
  = [ [(1%nat, js "bc")]; [(1%nat, js "b")] ].
Proof. reflexivity. Qed.

Example patterns_in_order :
  extractAuthUrl
    (js "Open this link: https://partners.shopify.com/a To create your app, visit: https://partners.shopify.com/b")
  = Some (js "https://partners.shopify.com/b").
Proof. vm_compute. reflexivity. Qed.

(** ** The extractors on the authentication prompt *)

(** C6: on the text "Please visit the following URL to authenticate:
    https://partners.shopify.com/abc123" the URL extractor returns
    "https://partners.shopify.com/abc123" and the stage classifier
    returns [waiting_auth]. *)
Theorem C6_authentication_prompt :
  let text :=
    js "Please visit the following URL to authenticate: https://partners.shopify.com/abc123" in
  extractAuthUrl text = Some (js "https://partners.shopify.com/abc123")
  /\ determineStage text = waiting_auth.
Proof. vm_compute. split; reflexivity. Qed.

(** ** The job store behind its in-memory fallback *)

Lemma update_never_throws (jobId : jsstring) (updates : job)
    (t : jsstring) (ok : bool) (st : store) :
  fst (updateAppCreationJob jobId updates t ok st) = Return tt.
Proof.
  unfold updateAppCreationJob.
  destruct (if negb _ || _ then _ else _); [reflexivity|].
  destruct (firestore_update _ _ _ _) as [[[]|] st']; [reflexivity|].
  now destruct (inMemoryJobs st' !! jobId).
Qed.

(** An update of a job held in memory is the shallow merge, whatever the
    document store does. *)
Lemma update_of_memory_job (jobId : jsstring) (existing updates : job)
    (t : jsstring) (ok : bool) (st : store) :
  inMemoryJobs st !! jobId = Some existing ->
  updateAppCreationJob jobId updates t ok st
  = (Return tt, update_in_memory jobId existing updates t st).
Proof.
  intros Hm. unfold updateAppCreationJob. rewrite Hm.
  rewrite (bool_decide_eq_true_2 (is_Some (Some existing))) by eauto.
  now rewrite orb_true_r.
Qed.

Lemma merge_lookup (existing updates : job) (t : value) (k : string) :
  merge existing updates t !! k
  = if bool_decide (k = "updatedAt"%string) then Some t
    else match updates !! k with
         | Some v => Some v
         | None => existing !! k
         end.
Proof.
  unfold merge. case_bool_decide as Hk.
  - subst. apply lookup_insert_eq.
  - rewrite lookup_insert_ne by congruence.
    rewrite lookup_union. now destruct (updates !! k), (existing !! k).
Qed.

(** An update of one job leaves the in-memory records of the others. *)
Lemma update_other_job (j k : jsstring) (upd : job) (t : jsstring)
    (ok : bool) (st : store) :
  j <> k ->
  inMemoryJobs (snd (updateAppCreationJob j upd t ok st)) !! k
  = inMemoryJobs st !! k.
Proof.
  intros Hne. unfold updateAppCreationJob.
  destruct (if negb _ || _ then _ else _).
  - simpl. now rewrite lookup_insert_ne.
  - unfold firestore_update.
    destruct (db st) as [fs|]; [destruct ok|]; simpl.
    + destruct (app_creation_jobs fs !! j); simpl.
      * reflexivity.
      * destruct (inMemoryJobs st !! j); simpl;
          [now rewrite lookup_insert_ne | reflexivity].
    + destruct (inMemoryJobs st !! j); simpl;
        [now rewrite lookup_insert_ne | reflexivity].
    + destruct (inMemoryJobs st !! j); simpl;
        [now rewrite lookup_insert_ne | reflexivity].
Qed.

(** C3: when the document store is not configured or refuses the write,
    [create] returns the identifier and puts in the in-memory map the
    record [j0] with the twelve properties of a new job and no other:
    the identifier, the user, the app name, status running, stage
    initializing, the time of creation as [createdAt], a time as
    [updatedAt], an empty output and four nulls; [get] returns it.  [update] then returns without
    throwing and [get] returns the record [j1] that has the time of the
    update as [updatedAt], every property of [updates] at its new value
    and every other property as in [j0]; the later calls go to the map
    whatever the document store does. *)
Theorem C3_fallback_round_trip :
  forall (st : store) (userId appName jobId t0 t1 : jsstring) (updates : job)
         (ok_create ok_update ok_get : bool),
    db st = None \/ ok_create = false ->
    let created := createAppCreationJob userId appName jobId t0 ok_create st in
    let updated :=
      updateAppCreationJob jobId updates t1 ok_update (snd created) in
    fst created = Return jobId
    /\ fst updated = Return tt
    /\ exists j0 j1 : job,
         inMemoryJobs (snd created) !! jobId = Some j0
         /\ getAppCreationJob jobId ok_get (snd created) = Return (Some j0)
         /\ j0 !! "jobId"%string = Some (VStr jobId)
         /\ j0 !! "userId"%string = Some (VStr userId)
         /\ j0 !! "appName"%string = Some (VStr appName)
         /\ j0 !! "status"%string = Some (VStr (js "running"))
         /\ j0 !! "stage"%string = Some (VStr (js "initializing"))
         /\ j0 !! "createdAt"%string = Some (VStr t0)
         /\ (exists t, j0 !! "updatedAt"%string = Some (VStr t))
         /\ j0 !! "output"%string = Some (VLines [])
         /\ j0 !! "authUrl"%string = Some VNull
         /\ j0 !! "error"%string = Some VNull
         /\ j0 !! "sandboxId"%string = Some VNull
         /\ j0 !! "appData"%string = Some VNull
         /\ (forall k, ~ In k job_fields -> j0 !! k = None)
         /\ inMemoryJobs (snd updated) !! jobId = Some j1
         /\ getAppCreationJob jobId ok_get (snd updated) = Return (Some j1)
         /\ j1 !! "updatedAt"%string = Some (VStr t1)
         /\ (forall k v, k <> "updatedAt"%string ->
               updates !! k = Some v -> j1 !! k = Some v)
         /\ (forall k, k <> "updatedAt"%string ->
               updates !! k = None -> j1 !! k = j0 !! k).
Proof.
  intros st userId appName jobId t0 t1 updates okc oku okg Hdown
    created updated.
  assert (Hc : created
               = (Return jobId,
                  set_memory st
                    (<[jobId := newJob jobId userId appName t0]>
                       (inMemoryJobs st)))).
  { subst created. unfold createAppCreationJob.
    destruct Hdown as [Hdb | ->].
    - now rewrite Hdb.
    - now destruct (db st). }
  assert (Hm : inMemoryJobs (snd created) !! jobId
               = Some (newJob jobId userId appName t0))
    by (rewrite Hc; apply lookup_insert_eq).
  assert (Hu : updated
               = (Return tt,
                  update_in_memory jobId (newJob jobId userId appName t0)
                    updates t1 (snd created)))
    by (subst updated; now apply update_of_memory_job).
  split; [now rewrite Hc|]. split; [now rewrite Hu|].
  exists (newJob jobId userId appName t0),
         (merge (newJob jobId userId appName t0) updates (VStr t1)).
  split; [exact Hm|].
  split; [unfold getAppCreationJob; now rewrite Hm|].
  do 6 (split; [reflexivity|]).
  split; [eexists; reflexivity|].
  do 5 (split; [reflexivity|]).
  split.
  { intros k Hk. apply not_elem_of_list_to_map_1.
    intros Hin. apply Hk. apply list_elem_of_In in Hin. exact Hin. }
  assert (Hm1 : inMemoryJobs (snd updated) !! jobId
                = Some (merge (newJob jobId userId appName t0) updates
                          (VStr t1)))
    by (rewrite Hu; apply lookup_insert_eq).
  split; [exact Hm1|].
  split; [unfold getAppCreationJob; now rewrite Hm1|].
  split; [now rewrite merge_lookup|].
  split.
  - intros k v Hk Hv. rewrite merge_lookup.
    now rewrite (bool_decide_eq_false_2 _ Hk), Hv.
  - intros k Hk Hv. rewrite merge_lookup.
    now rewrite (bool_decide_eq_false_2 _ Hk), Hv.
Qed.

Lemma C3_fallback_round_trip_witness :
  let st := {| inMemoryJobs := ∅; db := None |} in
  let updates : job := {[ "stage"%string := VStr (js "creating") ]} in
  exists j1,
    getAppCreationJob (js "job_1") true
      (snd (updateAppCreationJob (js "job_1") updates (js "t1") true
              (snd (createAppCreationJob (js "u") (js "shop") (js "job_1")
                      (js "t0") true st))))
    = Return (Some j1)
    /\ j1 !! "stage"%string = Some (VStr (js "creating"))
    /\ j1 !! "status"%string = Some (VStr (js "running"))
    /\ j1 !! "updatedAt"%string = Some (VStr (js "t1"))
    /\ j1 !! "createdAt"%string = Some (VStr (js "t0")).
Proof.
  destruct (C3_fallback_round_trip {| inMemoryJobs := ∅; db := None |}
              (js "u") (js "shop") (js "job_1") (js "t0") (js "t1")
              {[ "stage"%string := VStr (js "creating") ]} true true true
              (or_introl eq_refl))
    as (_ & _ & j0 & j1 & _ & _ & _ & _ & _ & Hst & _ & Hcr & _ & _ & _ & _
        & _ & _ & _ & _ & Hget & Hup & Hnew & Hold).
  exists j1. split; [exact Hget|].
  split; [apply Hnew; [discriminate | reflexivity]|].
  split; [rewrite Hold; [exact Hst | discriminate | reflexivity]|].
  split; [exact Hup|].
  rewrite Hold; [exact Hcr | discriminate | reflexivity].
Defined.

(** ** The endpoints *)

Lemma is_string_true (v : value) (s : jsstring) :
  is_string v s = true <-> v = VStr s.
Proof.
  destruct v; simpl; try (split; intros; congruence).
  rewrite bool_decide_eq_true. split; intros; congruence.
Qed.

Lemma listed_in_class (c : N) : listed c = true -> name_class c = true.
Proof.
  unfold listed, name_class. intros H.
  destruct (isLetter c); [reflexivity|].
  destruct (isDigit c); [reflexivity|]. simpl in *.
  destruct (c =? 32) eqn:E; simpl in H.
  - apply N.eqb_eq in E. rewrite E. reflexivity.
  - rewrite H. apply orb_true_r.
Qed.

Lemma outside_class_not_blank (c : N) :
  name_class c = false -> isWhiteSpace c = false.
Proof.
  unfold name_class. destruct (isWhiteSpace c); [|reflexivity].
  now rewrite orb_true_r.
Qed.

Lemma create_stores_job (userId appName jobId t : jsstring) (ok : bool)
    (st : store) :
  fst (createAppCreationJob userId appName jobId t ok st) = Return jobId
  /\ job_created (snd (createAppCreationJob userId appName jobId t ok st))
       jobId userId appName.
Proof.
  unfold createAppCreationJob, job_created.
  destruct (db st) as [fs|] eqn:Hdb; [destruct ok|]; simpl;
    (split; [reflexivity|]).
  - eexists. split.
    + right. eexists. split; [reflexivity|]. simpl. apply lookup_insert_eq.
    + repeat split; reflexivity.
  - eexists. split; [left; apply lookup_insert_eq|].
    repeat split; reflexivity.
  - eexists. split; [left; apply lookup_insert_eq|].
    repeat split; reflexivity.
Qed.

(** The requests the endpoint accepts: the trimmed name is not empty and
    made of letters, digits, dashes and white space. *)
Lemma create_accepts_iff (userId appName jobId t : jsstring) (ok : bool)
    (st : store) :
  code (fst (create_shopify_app userId appName jobId t ok st)) = 200
  <-> trim appName <> [] /\ forallb name_class (trim appName) = true.
Proof.
  unfold create_shopify_app.
  destruct (truthy appName) eqn:Ea; simpl.
  - destruct (truthy (trim appName)) eqn:Et; simpl.
    + unfold validPattern. rewrite test_whole_plus, Et. simpl.
      destruct (forallb name_class (trim appName)); simpl.
      * pose proof (create_stores_job userId (trim appName) jobId t ok st)
          as [Hr _].
        destruct (createAppCreationJob _ _ _ _ _ _) as [[id|] st'];
          simpl in *; [|discriminate].
        split; [|reflexivity]. intros _. split; [|reflexivity].
        now apply truthy_nonempty.
      * split; [discriminate | intros [_ H]; discriminate].
    + split; [discriminate|]. intros [H _].
      apply truthy_nonempty in H. congruence.
  - split; [discriminate|]. intros [H _].
    destruct appName; [now elim H | discriminate].
Qed.

(** C4, as the code has it: an app name with a code unit that is neither
    a letter, a digit, a dash nor white space is rejected with status 400
    and the store is left as it was; an app name made of letters, digits,
    spaces and dashes whose trimmed form is not empty gets a job, created
    under the trimmed name. *)
Theorem C4_app_name_validation :
  forall (userId appName jobId t : jsstring) (ok : bool) (st : store),
    ((exists c, In c appName /\ name_class c = false) ->
       code (fst (create_shopify_app userId appName jobId t ok st)) = 400
       /\ snd (create_shopify_app userId appName jobId t ok st) = st)
    /\ (trim appName <> [] ->
        Forall (fun c => listed c = true) appName ->
        code (fst (create_shopify_app userId appName jobId t ok st)) = 200
        /\ job_created (snd (create_shopify_app userId appName jobId t ok st))
             jobId userId (trim appName)).
Proof.
  intros userId appName jobId t ok st. split.
  - intros (c & Hin & Hc). unfold create_shopify_app.
    destruct (negb (truthy appName) || negb (truthy (trim appName)));
      [split; reflexivity|].
    assert (Hbad : test_whole validPattern (trim appName) = false).
    { unfold validPattern. rewrite test_whole_plus.
      apply andb_false_iff. right.
      apply not_true_is_false. intros Hall.
      rewrite forallb_forall in Hall.
      specialize (Hall c (trim_keeps _ _ Hin (outside_class_not_blank _ Hc))).
      congruence. }
    rewrite Hbad. split; reflexivity.
  - intros Hne Hall. unfold create_shopify_app.
    assert (Ht : truthy (trim appName) = true) by now apply truthy_nonempty.
    assert (Ha : truthy appName = true).
    { destruct appName; [now elim Hne | reflexivity]. }
    rewrite Ha, Ht. simpl.
    assert (Hgood : test_whole validPattern (trim appName) = true).
    { unfold validPattern. rewrite test_whole_plus, Ht. simpl.
      apply forallb_forall. intros c Hc. apply listed_in_class.
      rewrite Forall_forall in Hall. apply Hall.
      apply list_elem_of_In. now apply trim_sub. }
    rewrite Hgood. simpl.
    pose proof (create_stores_job userId (trim appName) jobId t ok st)
      as [Hr Hj].
    destruct (createAppCreationJob userId (trim appName) jobId t ok st)
      as [[id|] st']; simpl in *; [|discriminate].
    split; [reflexivity | exact Hj].
Qed.

Lemma C4_app_name_validation_witness :
  let st := {| inMemoryJobs := ∅; db := None |} in
  code (fst (create_shopify_app (js "u") (js "my_app") (js "job_1")
               (js "t0") true st)) = 400
  /\ job_created
       (snd (create_shopify_app (js "u") (js " My App-2 ") (js "job_1")
               (js "t0") true st))
       (js "job_1") (js "u") (js "My App-2").
Proof.
  split.
  - apply (proj1 (C4_app_name_validation (js "u") (js "my_app") (js "job_1")
                    (js "t0") true {| inMemoryJobs := ∅; db := None |})).
    exists 95. split; vm_compute; auto.
  - apply (proj2 (C4_app_name_validation (js "u") (js " My App-2 ")
                    (js "job_1") (js "t0") true
                    {| inMemoryJobs := ∅; db := None |})).
    + vm_compute. discriminate.
    + vm_compute. repeat constructor.
Defined.

(** C4 as stated fails in both halves: the name made of one space is in
    the allow-list and not empty, yet it is refused as missing; a name
    with a TAB between two letters has a code unit outside the allow-list,
    yet its job is created. *)
Lemma C4_counterexample :
  let st := {| inMemoryJobs := ∅; db := None |} in
  (js " " <> [] /\ Forall (fun c => listed c = true) (js " ")
   /\ create_shopify_app (js "u") (js " ") (js "job_1") (js "t0") true st
      = (error_response 400 (js "App name is required")
           (js "Please provide a valid app name"), st))
  /\ (In 9 (js "a" ++ [9] ++ js "b") /\ listed 9 = false
      /\ code (fst (create_shopify_app (js "u") (js "a" ++ [9] ++ js "b")
                      (js "job_1") (js "t0") true st)) = 200
      /\ inMemoryJobs
           (snd (create_shopify_app (js "u") (js "a" ++ [9] ++ js "b")
                   (js "job_1") (js "t0") true st)) !! js "job_1"
         = Some (newJob (js "job_1") (js "u") (js "a" ++ [9] ++ js "b")
                   (js "t0"))).
Proof.
  split.
  - split; [discriminate|]. split; [repeat constructor|]. reflexivity.
  - split; [vm_compute; auto|]. split; [reflexivity|].
    split; [reflexivity|]. vm_compute. reflexivity.
Qed.

(** C7, as the code has it: an unknown job is answered with 404 "Job not
    found", a job of another user with 403 "Access denied", the owner with
    200; the two refusals are different responses. *)
Theorem C7_status_denials :
  forall (st : store) (jobId userId : jsstring) (ok : bool),
    (getAppCreationJob jobId ok st = Return None ->
       app_creation_status jobId userId ok st
       = error_response 404 (js "Job not found")
           (js "The requested job does not exist"))
    /\ (forall jobData,
          getAppCreationJob jobId ok st = Return (Some jobData) ->
          field jobData "userId" <> VStr userId ->
          app_creation_status jobId userId ok st
          = error_response 403 (js "Access denied")
              (js "You do not have access to this job"))
    /\ (forall jobData,
          getAppCreationJob jobId ok st = Return (Some jobData) ->
          field jobData "userId" = VStr userId ->
          code (app_creation_status jobId userId ok st) = 200)
    /\ error_response 404 (js "Job not found")
         (js "The requested job does not exist")
       <> error_response 403 (js "Access denied")
            (js "You do not have access to this job").
Proof.
  intros st jobId userId ok. unfold app_creation_status.
  repeat split.
  - intros ->. reflexivity.
  - intros jobData -> Hne.
    destruct (is_string (field jobData "userId") userId) eqn:E;
      [|reflexivity].
    apply is_string_true in E. contradiction.
  - intros jobData -> He.
    apply is_string_true in He. now rewrite He.
  - intros H. apply (f_equal code) in H. discriminate.
Qed.

Lemma C7_status_denials_witness :
  app_creation_status (js "job_2") (js "bob") true two_users_store
  = error_response 404 (js "Job not found")
      (js "The requested job does not exist")
  /\ app_creation_status (js "job_1") (js "bob") true two_users_store
     = error_response 403 (js "Access denied")
         (js "You do not have access to this job")
  /\ code (app_creation_status (js "job_1") (js "alice") true
             two_users_store) = 200.
Proof.
  pose proof (C7_status_denials two_users_store (js "job_2") (js "bob") true)
    as (H404 & _).
  pose proof (C7_status_denials two_users_store (js "job_1") (js "bob") true)
    as (_ & H403 & _).
  pose proof (C7_status_denials two_users_store (js "job_1") (js "alice") true)
    as (_ & _ & H200 & _).
  split; [apply H404; reflexivity|].
  split.
  - eapply H403; [reflexivity|]. vm_compute. discriminate.
  - eapply H200; [reflexivity|]. vm_compute. reflexivity.
Defined.

(** C7 as stated fails: bob, who owns nothing, asks for alice's job and
    for a job that does not exist, and gets two different responses. *)
Lemma C7_counterexample :
  inMemoryJobs two_users_store !! js "job_1"
  = Some (newJob (js "job_1") (js "alice") (js "shop") (js "t0"))
  /\ getAppCreationJob (js "job_2") true two_users_store = Return None
  /\ code (app_creation_status (js "job_1") (js "bob") true two_users_store)
     = 403
  /\ code (app_creation_status (js "job_2") (js "bob") true two_users_store)
     = 404
  /\ app_creation_status (js "job_1") (js "bob") true two_users_store
     <> app_creation_status (js "job_2") (js "bob") true two_users_store.
Proof.
  repeat split; try (vm_compute; reflexivity).
  intros H. apply (f_equal code) in H. vm_compute in H. discriminate.
Qed.

(** ** Saving a project *)

Lemma undigit_digit36 (d : N) : d < 36 -> undigit36 (digit36 d) = d.
Proof.
  intros Hd. unfold undigit36, digit36.
  destruct (N.ltb_spec d 10).
  - destruct (N.ltb_spec (48 + d) 58); lia.
  - destruct (N.ltb_spec (87 + d) 58); lia.
Qed.

Lemma value36_snoc (s : jsstring) (c : N) :
  value36 (s ++ [c]) = 36 * value36 s + undigit36 c.
Proof. unfold value36. now rewrite fold_left_app. Qed.

Lemma toString36_aux_value (fuel : nat) :
  forall n, n < 2 ^ N.of_nat fuel -> value36 (toString36_aux fuel n) = n.
Proof.
  induction fuel as [|fuel IH]; intros n Hn.
  - simpl in *. change (2 ^ 0) with 1 in Hn.
    assert (n = 0) by lia. now subst.
  - simpl toString36_aux. destruct (N.ltb_spec n 36) as [Hlt|Hge].
    + unfold value36. simpl. rewrite undigit_digit36 by exact Hlt. lia.
    + rewrite value36_snoc.
      rewrite undigit_digit36 by (apply N.mod_lt; lia).
      rewrite IH.
      * pose proof (N.div_mod n 36 ltac:(lia)). lia.
      * apply N.Div0.div_lt_upper_bound.
        rewrite Nat2N.inj_succ, N.pow_succ_r' in Hn. lia.
Qed.

(** The fuel of [toString36] is enough: the numeral reads back as the
    number. *)
Lemma toString36_value (n : N) : value36 (toString36 n) = n.
Proof.
  unfold toString36. apply toString36_aux_value.
  rewrite Nat2N.inj_succ, N2Nat.id.
  destruct (N.eq_dec n 0) as [->|Hn]; [reflexivity|].
  apply N.log2_spec. lia.
Qed.

Lemma toString36_nonempty (n : N) : toString36 n <> [].
Proof.
  unfold toString36. simpl.
  destruct (n <? 36); [discriminate|].
  intros H. apply app_eq_nil in H. destruct H; discriminate.
Qed.

Lemma generateProjectId_nonempty (ms : N) (rnd : jsstring) :
  generateProjectId ms rnd <> [].
Proof.
  unfold generateProjectId. intros H. apply app_eq_nil in H.
  destruct H as [H _]. now apply toString36_nonempty in H.
Qed.

(** When every write is refused the loop over the files stores nothing. *)
Lemma try_save_refused (userId : jsstring) (pd : option ProjectData)
    (ms : N) (rnd now : jsstring) (save_ok : jsstring -> bool)
    (b : bucket_files) :
  (forall p, save_ok p = false) ->
  try_save userId pd ms rnd now save_ok (Some b) = (Throw, Some b).
Proof.
  intros Hno. unfold try_save. destruct pd; [|reflexivity].
  now rewrite Hno.
Qed.

(** C9: [saveProject] returns for every input, never throws, and the
    object it returns has a non-empty [projectId]; without a bucket, or
    when every storage write is refused, the result is a freshly drawn
    identifier with the metadata [{ id }] and the bucket holds what it
    held before. *)
Theorem C9_saveProject_always_returns :
  forall (userId : jsstring) (projectData : option ProjectData)
         (ms1 : N) (rnd1 : jsstring) (ms2 : N) (rnd2 now : jsstring)
         (save_ok : jsstring -> bool) (bucket : option bucket_files),
    let result :=
      saveProject userId projectData ms1 rnd1 ms2 rnd2 now save_ok bucket in
    (exists r, fst result = Return r /\ projectId r <> [])
    /\ (bucket = None ->
        result = (Return (minimal (generateProjectId ms1 rnd1)), None))
    /\ (bucket <> None -> (forall p, save_ok p = false) ->
        result = (Return (minimal (generateProjectId ms2 rnd2)), bucket)).
Proof.
  intros userId pd ms1 rnd1 ms2 rnd2 now save_ok bucket result.
  subst result. unfold saveProject. repeat split.
  - destruct (try_save userId pd ms1 rnd1 now save_ok bucket)
      as [[r|] b] eqn:E; simpl.
    + exists r. split; [reflexivity|].
      unfold try_save in E. destruct bucket as [b0|].
      * destruct pd as [pd|]; [|discriminate].
        destruct (save_ok _); [|discriminate].
        destruct (files pd); [|discriminate].
        destruct (save_files _ _ _ _) as [[[]|] b2]; [|discriminate].
        injection E as <- _. apply generateProjectId_nonempty.
      * injection E as <- _. apply generateProjectId_nonempty.
    + eexists. split; [reflexivity|]. apply generateProjectId_nonempty.
  - intros ->. reflexivity.
  - intros Hb Hno. destruct bucket as [b|]; [|congruence].
    now rewrite try_save_refused.
Qed.

Lemma C9_saveProject_always_returns_witness :
  saveProject (js "u") (Some sample_project) 1730620800000 (js "0.4fzyo82m")
    1730620800001 (js "0.9x1k3p7q") (js "t0") (fun _ => false) None
  = (Return (minimal (js "m31axvk04fzyo")), None)
  /\ saveProject (js "u") (Some sample_project) 1730620800000
       (js "0.4fzyo82m") 1730620800001 (js "0.9x1k3p7q") (js "t0")
       (fun _ => false) (Some ∅)
     = (Return (minimal (js "m31axvk19x1k3")), Some ∅).
Proof.
  split.
  - exact (proj1 (proj2
      (C9_saveProject_always_returns (js "u") (Some sample_project)
         1730620800000 (js "0.4fzyo82m") 1730620800001 (js "0.9x1k3p7q")
         (js "t0") (fun _ => false) None)) eq_refl).
  - exact (proj2 (proj2
      (C9_saveProject_always_returns (js "u") (Some sample_project)
         1730620800000 (js "0.4fzyo82m") 1730620800001 (js "0.9x1k3p7q")
         (js "t0") (fun _ => false) (Some ∅)))
      ltac:(discriminate) (fun _ => eq_refl)).
Defined.

(** ** Extracting code blocks *)

Lemma infer_filename_nonempty (keys : nat) (content : jsstring) :
  infer_filename keys content <> [].
Proof.
  unfold infer_filename.
  repeat match goal with
         | |- context [if ?b then _ else _] => destruct b
         end; discriminate.
Qed.

Lemma filename_of_nonempty (files : gmap jsstring jsstring) (b : block) :
  filename_of files b <> [].
Proof.
  unfold filename_of.
  destruct (truthy_opt (comment b)).
  - destruct (truthy (trim (default [] (comment b)))) eqn:E; simpl.
    + now apply truthy_nonempty.
    + apply infer_filename_nonempty.
  - simpl. apply infer_filename_nonempty.
Qed.

Lemma assignments_length (bs : list block) :
  forall files, length (assignments files bs) = length bs.
Proof. induction bs as [|b bs IH]; intros files; simpl; [|rewrite IH]; auto. Qed.

Lemma assignments_named (bs : list block) :
  forall files, Forall (fun p => fst p <> []) (assignments files bs).
Proof.
  induction bs as [|b bs IH]; intros files; simpl; constructor.
  - apply filename_of_nonempty.
  - apply IH.
Qed.

(** Where the name of a block comes from. *)
Lemma filename_of_cases (files : gmap jsstring jsstring) (b : block) :
  (exists c, comment b = Some c /\ trim c <> []
             /\ filename_of files b = trim c)
  \/ In (filename_of files b)
        [ js "server.js"; js "package.json"; js "index.html";
          js "styles.css" ]
  \/ filename_of files b = js "file_" ++ decimal (size files) ++ js ".js".
Proof.
  assert (Hinfer : forall content,
            In (infer_filename (size files) content)
               [ js "server.js"; js "package.json"; js "index.html";
                 js "styles.css" ]
            \/ infer_filename (size files) content
               = js "file_" ++ decimal (size files) ++ js ".js").
  { intros content. unfold infer_filename.
    repeat match goal with
           | |- context [if ?c then _ else _] => destruct c
           end; cbn [In]; auto 10. }
  unfold filename_of.
  destruct (comment b) as [c|] eqn:Ec; cbn [truthy_opt default].
  - destruct (truthy c).
    + unfold id.
      destruct (truthy (trim c)) eqn:Et; cbn [negb].
      * left. exists c. split; [reflexivity|].
        split; [now apply truthy_nonempty | reflexivity].
      * right. apply Hinfer.
    + right. apply Hinfer.
  - right. apply Hinfer.
Qed.

(** What an assignment to a property of a plain object leaves under each
    name. *)
Lemma assign_text_lookup (obj : gmap jsstring jsstring)
    (key text f : jsstring) :
  assign_text obj key text !! f
  = if bool_decide (key = f) && negb (bool_decide (key = js "__proto__"))
    then Some text
    else obj !! f.
Proof.
  unfold assign_text.
  destruct (decide (key = js "__proto__")) as [Ep | Ep].
  - rewrite (bool_decide_eq_true_2 _ Ep). simpl. now rewrite andb_false_r.
  - rewrite (bool_decide_eq_false_2 _ Ep). simpl. rewrite andb_true_r.
    destruct (decide (key = f)) as [E | E].
    + rewrite (bool_decide_eq_true_2 _ E). subst. apply lookup_insert_eq.
    + rewrite (bool_decide_eq_false_2 _ E). now apply lookup_insert_ne.
Qed.

(** The object built by the loop holds, under each name other than
    [__proto__], the content of the last block stored under it. *)
Lemma fold_store_lookup (bs : list block) :
  forall (files : gmap jsstring jsstring) (f : jsstring),
    f <> js "__proto__" ->
    fold_left store_block bs files !! f
    = match last_assigned f (assignments files bs) with
      | Some c => Some c
      | None => files !! f
      end.
Proof.
  induction bs as [|b bs IH]; intros files f Hf; simpl; [reflexivity|].
  rewrite IH by exact Hf.
  destruct (last_assigned f (assignments (store_block files b) bs));
    [reflexivity|].
  unfold store_block. rewrite assign_text_lookup.
  destruct (decide (filename_of files b = f)) as [E | E].
  - rewrite (bool_decide_eq_true_2 _ E). rewrite E.
    now rewrite (bool_decide_eq_false_2 _ Hf).
  - now rewrite (bool_decide_eq_false_2 _ E).
Qed.

(** The loop stores nothing under [__proto__]. *)
Lemma fold_store_proto (bs : list block) :
  forall (files : gmap jsstring jsstring),
    fold_left store_block bs files !! js "__proto__"
    = files !! js "__proto__".
Proof.
  induction bs as [|b bs IH]; intros files; simpl; [reflexivity|].
  rewrite IH. unfold store_block. rewrite assign_text_lookup.
  destruct (decide (filename_of files b = js "__proto__")) as [E | E].
  - now rewrite !(bool_decide_eq_true_2 _ E).
  - now rewrite !(bool_decide_eq_false_2 _ E).
Qed.

Lemma extracted_has_no_proto (generatedCode : jsstring) :
  extractCodeBlocks generatedCode !! js "__proto__" = None.
Proof. unfold extractCodeBlocks. now rewrite fold_store_proto. Qed.

Lemma last_assigned_split (f c : jsstring)
    (before after : list (jsstring * jsstring)) :
  Forall (fun p => fst p <> f) after ->
  last_assigned f (before ++ (f, c) :: after) = Some c.
Proof.
  intros Hafter.
  assert (Hnone : last_assigned f after = None).
  { induction after as [|[g d] after IH]; simpl; [reflexivity|].
    inversion Hafter as [|? ? Hg Hrest]; subst. rewrite IH by exact Hrest.
    simpl in Hg. now rewrite bool_decide_eq_false_2. }
  induction before as [|[g d] before IH]; simpl.
  - rewrite Hnone. now rewrite bool_decide_eq_true_2.
  - now rewrite IH.
Qed.

(** C10, for the matches of the pattern and the names an object keeps:
    every block found by the pattern is assigned a file name, which is
    never empty: the trimmed text of its comment, one of four names
    chosen from its content, or [file_<n>.js] where [n] is the number of
    properties stored so far.  Under each name other than [__proto__]
    the returned object holds the content of the last block that got
    this name, so an earlier block of the same name is overwritten;
    under [__proto__] it holds nothing. *)
Theorem C10_later_block_overwrites :
  forall (generatedCode : jsstring),
    let trace := assignments ∅ (blocks generatedCode) in
    length trace = length (blocks generatedCode)
    /\ Forall (fun p => fst p <> []) trace
    /\ (forall files b,
          (exists c, comment b = Some c /\ trim c <> []
                     /\ filename_of files b = trim c)
          \/ In (filename_of files b)
                [ js "server.js"; js "package.json"; js "index.html";
                  js "styles.css" ]
          \/ filename_of files b
             = js "file_" ++ decimal (size files) ++ js ".js")
    /\ (forall f, f <> js "__proto__" ->
          extractCodeBlocks generatedCode !! f = last_assigned f trace)
    /\ extractCodeBlocks generatedCode !! js "__proto__" = None
    /\ (forall f c before after,
          f <> js "__proto__" ->
          trace = before ++ (f, c) :: after ->
          Forall (fun p => fst p <> f) after ->
          extractCodeBlocks generatedCode !! f = Some c).
Proof.
  intros generatedCode trace.
  assert (Hlookup : forall f,
             f <> js "__proto__" ->
             extractCodeBlocks generatedCode !! f = last_assigned f trace).
  { intros f Hf. unfold extractCodeBlocks.
    rewrite fold_store_lookup by exact Hf.
    fold trace. destruct (last_assigned f trace); [reflexivity|].
    apply lookup_empty. }
  split; [apply assignments_length|].
  split; [apply assignments_named|].
  split; [apply filename_of_cases|].
  split; [exact Hlookup|].
  split; [apply extracted_has_no_proto|].
  intros f c before after Hf Htrace Hafter.
  rewrite Hlookup by exact Hf. rewrite Htrace.
  now apply last_assigned_split.
Qed.

Lemma C10_later_block_overwrites_witness :
  assignments ∅ (blocks colliding_blocks)
  = [ (js "server.js", js "first"); (js "server.js", js "second");
      (js "file_1.js", js "third") ]
  /\ extractCodeBlocks colliding_blocks !! js "server.js" = Some (js "second").
Proof.
  split; [vm_compute; reflexivity|].
  apply (proj2 (proj2 (proj2 (proj2 (proj2
           (C10_later_block_overwrites colliding_blocks)))))
           (js "server.js") (js "second")
           [ (js "server.js", js "first") ]
           [ (js "file_1.js", js "third") ]).
  - vm_compute. discriminate.
  - vm_compute. reflexivity.
  - constructor; [|constructor]. vm_compute. discriminate.
Defined.

(** C10 as claimed fails in two ways.  A fenced block whose language tag
    is not one of the five of the pattern is not a match: the text is
    returned without any file.  And of two blocks announced as
    [__proto__] neither is kept: the object has no such property, and
    the block without a name that follows is numbered from zero. *)
Lemma C10_counterexample :
  blocks python_block = []
  /\ extractCodeBlocks python_block = ∅
  /\ assignments ∅ (blocks proto_blocks)
     = [ (js "__proto__", js "first"); (js "__proto__", js "second");
         (js "file_0.js", js "third") ]
  /\ extractCodeBlocks proto_blocks !! js "__proto__" = None
  /\ extractCodeBlocks proto_blocks !! js "file_0.js" = Some (js "third")
  /\ extractCodeBlocks proto_blocks !! js "file_2.js" = None.
Proof. vm_compute. repeat split; reflexivity. Qed.

(** ** The poll tick and the output buffer *)

Arguments js : simpl never.
Arguments includes : simpl never.
Arguments extractAuthUrl : simpl never.
Arguments determineStage : simpl never.
Arguments trim : simpl never.
Arguments updateAppCreationJob : simpl never.
Arguments saveShopifyAppMetadata : simpl never.

Section MonitoredJob.

(** The job a monitor was started for. *)
Variables jobId userId appName : jsstring.

(** What the de-duplication test says of a line that passes it. *)
Lemma already_buffered_false (buffer : list jsstring) (l : jsstring) :
  already_buffered buffer l = false <->
  forall existing, In existing buffer ->
    includes existing (substring0 50 l) = false.
Proof.
  unfold already_buffered. split.
  - intros H existing Hin.
    destruct (includes existing (substring0 50 l)) eqn:E; [|reflexivity].
    assert (existsb (fun e => includes e (substring0 50 l)) buffer = true)
      by (apply existsb_exists; eauto).
    congruence.
  - intros H. apply not_true_is_false. intros Hex.
    apply existsb_exists in Hex as (e & Hin & He).
    rewrite (H e Hin) in He. discriminate.
Qed.

(** The lines the loop keeps. *)
Lemma collect_new_spec (buffer lines : list jsstring) (l : jsstring) :
  In l (collect_new buffer lines) <->
  exists line, In line lines /\ l = trim line /\ l <> []
               /\ already_buffered buffer l = false.
Proof.
  induction lines as [|line lines IH]; simpl.
  - split; [tauto | intros (? & [] & _)].
  - destruct (truthy (trim line)) eqn:Et;
      [destruct (already_buffered buffer (trim line)) eqn:Eb|]; simpl;
      rewrite ?IH; split.
    + intros (x & Hx & H). exists x. split; [now right | exact H].
    + intros (x & [<-|Hx] & -> & Hne & Hb); [congruence|].
      exists x. auto.
    + intros [<-|(x & Hx & H)].
      * exists line. rewrite truthy_nonempty in Et. auto.
      * exists x. split; [now right | exact H].
    + intros (x & [<-|Hx] & H); [left; symmetry; apply H|].
      right. exists x. auto.
    + intros (x & Hx & H). exists x. split; [now right | exact H].
    + intros (x & [<-|Hx] & -> & Hne & Hb).
      * apply truthy_nonempty in Hne. congruence.
      * exists x. auto.
Qed.

Lemma new_log_lines_spec (buffer : list jsstring) (log l : jsstring) :
  In l (new_log_lines buffer log) <->
  exists line, In line (split_lines log) /\ l = trim line /\ l <> []
               /\ forall existing, In existing buffer ->
                    includes existing (substring0 50 l) = false.
Proof.
  unfold new_log_lines. rewrite collect_new_spec. split.
  - intros (line & Hin & -> & Hne & Hb).
    apply filter_In in Hin as [Hin _].
    exists line. rewrite <- already_buffered_false. auto.
  - intros (line & Hin & -> & Hne & Hb).
    exists line. rewrite already_buffered_false. repeat split; auto.
    apply filter_In. split; [exact Hin|]. now apply truthy_nonempty.
Qed.

(** Reading the log yields new log lines, then at most the line that
    announces the URL, and leaves the buffer as it is. *)
Lemma read_log_shape (m : monitor) (log : jsstring) :
  exists fromLog own,
    fst (read_log m log) = fromLog ++ own
    /\ outputBuffer (snd (read_log m log)) = outputBuffer m
    /\ Forall (fun l => In l (new_log_lines (outputBuffer m) log)) fromLog
    /\ Forall own_line own.
Proof.
  unfold read_log.
  destruct (truthy log && truthy (trim log)).
  - destruct (negb (truthy_opt (authUrl m)));
      [destruct (truthy_opt (extractAuthUrl log))|]; simpl.
    + exists (new_log_lines (outputBuffer m) log).
      exists [auth_required_line (default [] (extractAuthUrl log))].
      split; [reflexivity|]. split; [reflexivity|].
      split; [apply List.Forall_forall; auto|].
      constructor; [|constructor]. right. right. eauto.
    + exists (new_log_lines (outputBuffer m) log), [].
      rewrite app_nil_r. split; [reflexivity|]. split; [reflexivity|].
      split; [apply List.Forall_forall; auto | constructor].
    + exists (new_log_lines (outputBuffer m) log), [].
      rewrite app_nil_r. split; [reflexivity|]. split; [reflexivity|].
      split; [apply List.Forall_forall; auto | constructor].
  - exists [], []. repeat split; constructor.
Qed.

Lemma probe_buffer (r : bool) (o : observation) (m : monitor) :
  outputBuffer (probe r o m) = outputBuffer m.
Proof.
  unfold probe.
  repeat match goal with
         | |- context [match ?x with _ => _ end] => destruct x
         end; reflexivity.
Qed.

Ltac break_settle :=
  unfold settle;
  repeat match goal with
         | |- context [saveShopifyAppMetadata ?a ?b ?c ?d ?e ?f ?g ?h] =>
             destruct (saveShopifyAppMetadata a b c d e f g h) as [[?|] ?]
         | |- context [if ?b then _ else _] => destruct b eqn:?
         end.

(** The second half of the callback appends the new lines and messages
    of the monitor, and issues one update that carries the buffer. *)
Lemma settle_shape (r : bool)
    (nl : list jsstring) (o : observation) (w : world) (m0 : monitor) :
  exists own upd,
    outputBuffer (vars (settle jobId userId appName r nl o w m0))
    = outputBuffer m0 ++ nl ++ own
    /\ Forall own_line own
    /\ updates (settle jobId userId appName r nl o w m0)
       = updates w ++ [(jobId, upd)]
    /\ upd !! "output"%string
       = Some (VLines (outputBuffer
                         (vars (settle jobId userId appName r nl o w m0)))).
Proof.
  break_settle; simpl.
  all: try (exists completion_lines; eexists; rewrite <- app_assoc;
    split; [reflexivity|]; split;
    [ apply List.Forall_forall; intros l Hl; right; left; exact Hl |];
    split; [reflexivity|]; reflexivity).
  all: try (exists []; eexists; rewrite app_nil_r;
    split; [reflexivity|]; split; [constructor|];
    split; [reflexivity|]; reflexivity).
  all: try (exists [paused_line]; eexists; rewrite <- app_assoc;
    split; [reflexivity|]; split;
    [ constructor; [left; reflexivity | constructor] |];
    split; [reflexivity|]; reflexivity).
Qed.

(** The whole callback. *)
Lemma tick_shape (o : observation) (w : world) :
  exists fromLog own,
    outputBuffer (vars (tick jobId userId appName o w))
    = outputBuffer (vars w) ++ fromLog ++ own
    /\ Forall (from_log o (outputBuffer (vars w))) fromLog
    /\ Forall own_line own
    /\ (updates (tick jobId userId appName o w) = updates w
        \/ exists upd,
             updates (tick jobId userId appName o w)
             = updates w ++ [(jobId, upd)]
             /\ upd !! "output"%string
                = Some (VLines (outputBuffer
                                  (vars (tick jobId userId appName o w))))).
Proof.
  unfold tick.
  destruct (negb (bool_decide (jobId ∈ activeJobs w))
            || isProcessComplete (vars w)).
  { exists [], []. simpl. rewrite app_nil_r. auto. }
  destruct (processCheck o) as [[ps pserr]|].
  2: { exists [], []. simpl. rewrite app_nil_r. auto. }
  destruct (logRead o) as [[log err]|] eqn:Elog.
  - destruct (read_log_shape (vars w) log)
      as (fromLog & own0 & Hnl & Hbuf & Hfrom & Hown0).
    destruct (read_log (vars w) log) as [nl m]. simpl in Hnl, Hbuf. subst nl.
    destruct (settle_shape
                (truthy ps && includes ps (js "shopify")) (fromLog ++ own0) o w
                (probe (truthy ps && includes ps (js "shopify")) o m))
      as (own1 & upd & Hb & Hown1 & Hupd & Hout).
    exists fromLog, (own0 ++ own1).
    rewrite Hb, probe_buffer, Hbuf, <- !app_assoc.
    split; [reflexivity|]. split.
    + eapply List.Forall_impl; [|exact Hfrom]. intros l Hl.
      apply new_log_lines_spec in Hl as (line & Hin & Hl).
      exists log, err, line. auto.
    + split; [apply List.Forall_app; auto|]. right. exists upd.
      split; [exact Hupd|].
      rewrite Hout, Hb, probe_buffer, Hbuf, <- !app_assoc. reflexivity.
  - destruct (settle_shape
                (truthy ps && includes ps (js "shopify")) [] o w (vars w))
      as (own1 & upd & Hb & Hown1 & Hupd & Hout).
    exists [], own1. rewrite Hb. simpl.
    split; [reflexivity|]. split; [constructor|]. split; [exact Hown1|].
    right. exists upd. split; [exact Hupd|]. rewrite Hout, Hb. reflexivity.
Qed.

Lemma step_buffer_prefix (w : world) (e : event) :
  exists added,
    outputBuffer (vars (step jobId userId appName w e))
    = outputBuffer (vars w) ++ added.
Proof.
  destruct e as [o|t ok|j t ok]; simpl.
  - destruct (polling w).
    + destruct (tick_shape o w)
        as (fromLog & own & H & _).
      exists (fromLog ++ own). exact H.
    + exists []. now rewrite app_nil_r.
  - exists []. rewrite app_nil_r. unfold ceiling.
    now destruct (_ && _).
  - exists []. rewrite app_nil_r. unfold abandon.
    now destruct (bool_decide _).
Qed.

Lemma run_buffer_prefix (es : list event) :
  forall w, exists added,
    outputBuffer (vars (run jobId userId appName w es))
    = outputBuffer (vars w) ++ added.
Proof.
  induction es as [|e es IH]; intros w; simpl.
  - exists []. now rewrite app_nil_r.
  - destruct (IH (step jobId userId appName w e)) as (a2 & H2).
    destruct (step_buffer_prefix w e) as (a1 & H1).
    exists (a1 ++ a2). unfold run in *. simpl. rewrite H2, H1.
    now rewrite app_assoc.
Qed.


(** ** The authentication URL, once found *)

(** With a URL held, no step of the callback assigns [authUrl]. *)
Lemma read_log_keeps_url (m : monitor) (log : jsstring) :
  url_set m -> snd (read_log m log) = m.
Proof.
  unfold url_set, read_log. intros ->. simpl.
  now destruct (truthy log && truthy (trim log)).
Qed.

Lemma probe_keeps_url (r : bool) (o : observation) (m : monitor) :
  url_set m -> authUrl (probe r o m) = authUrl m.
Proof.
  unfold url_set, probe. intros ->. rewrite andb_false_r.
  repeat match goal with
         | |- context [match ?x with _ => _ end] => destruct x
         end; reflexivity.
Qed.

Lemma settle_keeps_url (r : bool)
    (nl : list jsstring) (o : observation) (w : world) (m0 : monitor) :
  url_set m0 ->
  authUrl (vars (settle jobId userId appName r nl o w m0)) = authUrl m0
  /\ exists upd,
       updates (settle jobId userId appName r nl o w m0)
       = updates w ++ [(jobId, upd)]
       /\ carries_url (authUrl m0) (jobId, upd).
Proof.
  unfold url_set. intros Hset. break_settle; simpl in *.
  all: try (rewrite Hset in *; discriminate).
  all: split; [reflexivity|]; eexists; split; [reflexivity|].
  all: intros v Hv; simpl in Hv; simplify_map_eq; reflexivity.
Qed.

Lemma tick_keeps_url (o : observation) (w : world) :
  url_set (vars w) ->
  authUrl (vars (tick jobId userId appName o w)) = authUrl (vars w)
  /\ exists new,
       updates (tick jobId userId appName o w) = updates w ++ new
       /\ Forall (carries_url (authUrl (vars w))) new.
Proof.
  intros Hset. unfold tick.
  destruct (negb (bool_decide (jobId ∈ activeJobs w))
            || isProcessComplete (vars w)).
  { split; [reflexivity|]. exists []. simpl. now rewrite app_nil_r. }
  destruct (processCheck o) as [[ps pserr]|].
  2: { split; [reflexivity|]. exists []. simpl. now rewrite app_nil_r. }
  destruct (logRead o) as [[log err]|].
  - pose proof (read_log_keeps_url (vars w) log Hset) as Hm.
    destruct (read_log (vars w) log) as [nl m]. simpl in Hm. subst m.
    set (r := truthy ps && includes ps (js "shopify")).
    assert (Hp : url_set (probe r o (vars w))).
    { unfold url_set. now rewrite probe_keeps_url. }
    destruct (settle_keeps_url r nl o w _ Hp)
      as (Hu & upd & Hupd & Hc).
    rewrite probe_keeps_url in Hu, Hc by exact Hset.
    split; [exact Hu|]. exists [(jobId, upd)]. split; [exact Hupd|].
    constructor; [exact Hc | constructor].
  - destruct (settle_keeps_url
                (truthy ps && includes ps (js "shopify")) [] o w _ Hset)
      as (Hu & upd & Hupd & Hc).
    split; [exact Hu|]. exists [(jobId, upd)]. split; [exact Hupd|].
    constructor; [exact Hc | constructor].
Qed.

Lemma failure_has_no_url (msg : jsstring) (u : option jsstring)
    (j : jsstring) :
  carries_url u (j, failure msg).
Proof. intros v Hv. simpl in Hv. unfold failure in Hv. simplify_map_eq. Qed.

Lemma step_keeps_url (w : world) (e : event) :
  url_set (vars w) ->
  authUrl (vars (step jobId userId appName w e)) = authUrl (vars w)
  /\ exists new,
       updates (step jobId userId appName w e) = updates w ++ new
       /\ Forall (carries_url (authUrl (vars w))) new.
Proof.
  intros Hset. destruct e as [o|t ok|j t ok]; simpl.
  - destruct (polling w); [now apply tick_keeps_url|].
    split; [reflexivity|]. exists []. now rewrite app_nil_r.
  - unfold ceiling. destruct (_ && _); simpl.
    + split; [reflexivity|]. eexists. split; [reflexivity|].
      constructor; [apply failure_has_no_url | constructor].
    + split; [reflexivity|]. exists []. now rewrite app_nil_r.
  - unfold abandon. destruct (bool_decide _); simpl.
    + split; [reflexivity|]. eexists. split; [reflexivity|].
      constructor; [apply failure_has_no_url | constructor].
    + split; [reflexivity|]. exists []. now rewrite app_nil_r.
Qed.

Lemma run_keeps_url (es : list event) :
  forall w,
    url_set (vars w) ->
    authUrl (vars (run jobId userId appName w es)) = authUrl (vars w)
    /\ exists new,
         updates (run jobId userId appName w es) = updates w ++ new
         /\ Forall (carries_url (authUrl (vars w))) new.
Proof.
  induction es as [|e es IH]; intros w Hset; unfold run in *; simpl.
  - split; [reflexivity|]. exists []. now rewrite app_nil_r.
  - destruct (step_keeps_url w e Hset)
      as (Hu1 & new1 & Hn1 & Hc1).
    assert (Hset' : url_set (vars (step jobId userId appName w e))).
    { unfold url_set in *. now rewrite Hu1. }
    destruct (IH _ Hset') as (Hu2 & new2 & Hn2 & Hc2).
    rewrite Hu1 in Hu2, Hc2.
    split; [exact Hu2|]. exists (new1 ++ new2).
    rewrite Hn2, Hn1, app_assoc. split; [reflexivity|].
    apply List.Forall_app. auto.
Qed.

(** Every assignment stores a non-empty string. *)
Lemma read_log_url_wellformed (m : monitor) (log : jsstring) :
  url_wellformed m -> url_wellformed (snd (read_log m log)).
Proof.
  unfold read_log. intros Hm.
  destruct (truthy log && truthy (trim log)); [|exact Hm].
  destruct (negb (truthy_opt (authUrl m))); [|exact Hm].
  destruct (truthy_opt (extractAuthUrl log)) eqn:E; [|exact Hm].
  right. exact E.
Qed.

Lemma probe_url_wellformed (r : bool) (o : observation) (m : monitor) :
  url_wellformed m -> url_wellformed (probe r o m).
Proof.
  unfold probe. intros Hm.
  repeat match goal with
         | |- context [match ?x with _ => _ end] => destruct x eqn:?
         end; try exact Hm.
  - right. assumption.
  - right. reflexivity.
Qed.

Lemma settle_url_wellformed (r : bool)
    (nl : list jsstring) (o : observation) (w : world) (m0 : monitor) :
  url_wellformed m0 ->
  url_wellformed (vars (settle jobId userId appName r nl o w m0)).
Proof.
  intros Hm. break_settle; simpl; try exact Hm.
  all: try (right; reflexivity).
  all: unfold url_wellformed, url_set in *; simpl; exact Hm.
Qed.

Lemma step_url_wellformed (w : world) (e : event) :
  url_wellformed (vars w) ->
  url_wellformed (vars (step jobId userId appName w e)).
Proof.
  intros Hm. destruct e as [o|t ok|j t ok]; simpl.
  - destruct (polling w); [|exact Hm]. unfold tick.
    destruct (_ || _); [exact Hm|].
    destruct (processCheck o) as [[ps pserr]|]; [|exact Hm].
    destruct (logRead o) as [[log err]|].
    + pose proof (read_log_url_wellformed (vars w) log Hm) as Hr.
      destruct (read_log (vars w) log) as [nl m]. simpl in Hr.
      apply settle_url_wellformed. now apply probe_url_wellformed.
    + now apply settle_url_wellformed.
  - unfold ceiling. now destruct (_ && _).
  - unfold abandon. now destruct (bool_decide _).
Qed.

Lemma run_url_wellformed (es : list event) :
  forall w, url_wellformed (vars w) ->
            url_wellformed (vars (run jobId userId appName w es)).
Proof.
  induction es as [|e es IH]; intros w Hm; unfold run in *; simpl; [exact Hm|].
  apply IH. now apply step_url_wellformed.
Qed.

Lemma save_keeps_memory (a b : jsstring) (c d : option jsstring) (e : bool)
    (f : jsstring) (g : bool) (st : store) :
  inMemoryJobs (snd (saveShopifyAppMetadata a b c d e f g st))
  = inMemoryJobs st.
Proof.
  unfold saveShopifyAppMetadata.
  destruct (db st); [destruct g|]; reflexivity.
Qed.

(** [settle] always ends in one update of the job, issued on a world
    whose in-memory map is the one it started with. *)
Lemma settle_is_update (r : bool) (nl : list jsstring) (o : observation)
    (w : world) (m0 : monitor) :
  exists upd w0,
    settle jobId userId appName r nl o w m0
    = call_update jobId upd (now o) (update_ok o) w0
    /\ inMemoryJobs (jobs w0) = inMemoryJobs (jobs w)
    /\ updates w0 = updates w
    /\ (upd !! "authUrl"%string = None
        \/ exists u, authUrl (vars w0) = Some u /\ u <> []
                     /\ upd !! "authUrl"%string = Some (VStr u)).
Proof.
  unfold settle.
  destruct (isProcessComplete (push m0 nl)).
  - pose proof (save_keeps_memory userId appName
                  (Some (js "/tmp/" ++ appName)) (Some (js "/tmp/" ++ appName))
                  (negb (isWaitingForAuth (push (push m0 nl) completion_lines))
                   || bool_decide
                        (is_Some (authUrl (push (push m0 nl) completion_lines))))
                  (newAppId o) (meta_ok o) (jobs w)) as Hmem.
    destruct (saveShopifyAppMetadata _ _ _ _ _ _ _ _) as [[saved|] st];
      simpl in Hmem; (eexists _, _; split; [reflexivity|]; split;
                      [exact Hmem | split; [reflexivity | left; reflexivity]]).
  - destruct (truthy_opt (authUrl (push m0 nl)) && isWaitingForAuth (push m0 nl))
      eqn:E2.
    + eexists _, _. split; [reflexivity|]. split; [reflexivity|]. split; [reflexivity|].
      right. apply andb_true_iff in E2 as [Ht _]. simpl in *.
      destruct (authUrl m0) as [u|]; [|discriminate].
      exists u. split; [reflexivity|]. split; [now apply truthy_nonempty|].
      reflexivity.
    + destruct (negb r && (3 <? length (outputBuffer (push m0 nl)))%nat).
      * destruct (includes _ _ || includes _ _).
        -- eexists _, _. split; [reflexivity|]. split; [reflexivity|]. split; [reflexivity|].
           left. reflexivity.
        -- destruct (negb (truthy_opt (authUrl (push (push m0 nl) [paused_line])))).
           ++ eexists _, _. split; [reflexivity|]. split; [reflexivity|]. split; [reflexivity|].
              right. exists generic_url. split; [reflexivity|].
              split; [discriminate | reflexivity].
           ++ eexists _, _. split; [reflexivity|]. split; [reflexivity|]. split; [reflexivity|].
              left. reflexivity.
      * eexists _, _. split; [reflexivity|]. split; [reflexivity|]. split; [reflexivity|].
        left. reflexivity.
Qed.

Lemma record_after_update (upd : job) (t : jsstring) (ok : bool)
    (w : world) (j : job) :
  record_of jobId w = Some j ->
  record_of jobId (call_update jobId upd t ok w)
  = Some (merge j upd (VStr t)).
Proof.
  unfold record_of. intros Hj. simpl.
  rewrite (update_of_memory_job _ _ _ _ _ _ Hj). simpl.
  apply lookup_insert_eq.
Qed.

Lemma merge_url (j upd : job) (t : value) :
  merge j upd t !! "authUrl"%string
  = match upd !! "authUrl"%string with
    | Some v => Some v
    | None => j !! "authUrl"%string
    end.
Proof. rewrite merge_lookup. reflexivity. Qed.

Lemma settle_record_url (r : bool) (nl : list jsstring) (o : observation)
    (w : world) (m0 : monitor) (j : job) :
  record_of jobId w = Some j ->
  (j !! "authUrl"%string = Some VNull
   \/ exists u, authUrl m0 = Some u /\ u <> []
                /\ j !! "authUrl"%string = Some (VStr u)) ->
  record_url_inv jobId (settle jobId userId appName r nl o w m0)
  /\ forall v, j !! "authUrl"%string = Some (VStr v) ->
       exists j', record_of jobId (settle jobId userId appName r nl o w m0)
                  = Some j'
                  /\ j' !! "authUrl"%string = Some (VStr v).
Proof.
  intros Hj Hinv.
  destruct (settle_is_update r nl o w m0)
    as (upd & w0 & Hs & Hmem & Hlog & Hupd).
  assert (Hj0 : record_of jobId w0 = Some j).
  { unfold record_of in *. now rewrite Hmem. }
  pose proof (record_after_update upd (now o) (update_ok o) w0 j Hj0) as Hrec.
  rewrite <- Hs in Hrec.
  destruct Hinv as [Hnull | (u & Hu & Hne & Hju)].
  - split.
    + exists (merge j upd (VStr (now o))). split; [exact Hrec|].
      rewrite merge_url.
      destruct Hupd as [Hn | (u' & Hu' & Hne' & Hv')].
      * rewrite Hn. now left.
      * rewrite Hv'. right. exists u'. rewrite Hs. simpl. auto.
    + intros v Hv. congruence.
  - assert (Hset : url_set m0).
    { unfold url_set. rewrite Hu. now apply truthy_nonempty. }
    destruct (settle_keeps_url r nl o w m0 Hset)
      as (Hkeep & upd' & Hupds & Hcarry).
    assert (upd' = upd) as ->.
    { rewrite Hs in Hupds. simpl in Hupds. rewrite Hlog in Hupds.
      apply app_inv_head in Hupds. now injection Hupds as ->. }
    assert (Hfield : merge j upd (VStr (now o)) !! "authUrl"%string
                     = Some (VStr u)).
    { rewrite merge_url. destruct (upd !! "authUrl"%string) as [v|] eqn:E.
      - rewrite (Hcarry v E), Hu. reflexivity.
      - exact Hju. }
    split.
    + exists (merge j upd (VStr (now o))). split; [exact Hrec|].
      right. exists u. rewrite Hkeep. auto.
    + intros v Hv. exists (merge j upd (VStr (now o))).
      split; [exact Hrec|]. congruence.
Qed.

Lemma tick_record_url (o : observation) (w : world) :
  record_url_inv jobId w ->
  record_url_inv jobId (tick jobId userId appName o w)
  /\ forall j v,
       record_of jobId w = Some j ->
       j !! "authUrl"%string = Some (VStr v) ->
       exists j', record_of jobId (tick jobId userId appName o w) = Some j'
                  /\ j' !! "authUrl"%string = Some (VStr v).
Proof.
  intros Hinv. pose proof Hinv as (j & Hj & Hcase). unfold tick.
  destruct (negb (bool_decide (jobId ∈ activeJobs w))
            || isProcessComplete (vars w)).
  { split; [exact Hinv|]. intros j0 v Hj0 Hv. exists j0. auto. }
  destruct (processCheck o) as [[ps pserr]|].
  2: { split; [exact Hinv|]. intros j0 v Hj0 Hv. exists j0. auto. }
  set (r := truthy ps && includes ps (js "shopify")).
  destruct (logRead o) as [[log err]|].
  - destruct (read_log (vars w) log) as [nl m] eqn:Er.
    assert (Hcase' : j !! "authUrl"%string = Some VNull
                     \/ exists u, authUrl (probe r o m) = Some u /\ u <> []
                                   /\ j !! "authUrl"%string = Some (VStr u)).
    { destruct Hcase as [Hnull | (u & Hu & Hne & Hju)]; [now left|].
      right. exists u.
      assert (Hset : url_set (vars w)).
      { unfold url_set. rewrite Hu. now apply truthy_nonempty. }
      pose proof (read_log_keeps_url (vars w) log Hset) as Hm.
      rewrite Er in Hm. simpl in Hm. subst m.
      rewrite probe_keeps_url by exact Hset. auto. }
    destruct (settle_record_url r nl o w (probe r o m) j Hj Hcase')
      as (Hi & Hkeep).
    split; [exact Hi|]. intros j0 v Hj0 Hv.
    rewrite Hj in Hj0. injection Hj0 as <-. now apply Hkeep.
  - destruct (settle_record_url r [] o w (vars w) j Hj Hcase) as (Hi & Hkeep).
    split; [exact Hi|]. intros j0 v Hj0 Hv.
    rewrite Hj in Hj0. injection Hj0 as <-. now apply Hkeep.
Qed.

Lemma failure_keeps_record_url (msg t : jsstring) (ok : bool) (w w0 : world) :
  record_url_inv jobId w ->
  vars w0 = vars w -> inMemoryJobs (jobs w0) = inMemoryJobs (jobs w) ->
  forall w1,
    vars w1 = vars w ->
    inMemoryJobs (jobs w1)
    = inMemoryJobs (jobs (call_update jobId (failure msg) t ok w0)) ->
    record_url_inv jobId w1
    /\ forall j v,
         record_of jobId w = Some j ->
         j !! "authUrl"%string = Some (VStr v) ->
         exists j', record_of jobId w1 = Some j'
                    /\ j' !! "authUrl"%string = Some (VStr v).
Proof.
  intros (j & Hj & Hcase) Hv0 Hm0 w1 Hv1 Hm1.
  assert (Hj0 : record_of jobId w0 = Some j).
  { unfold record_of in *. now rewrite Hm0. }
  pose proof (record_after_update (failure msg) t ok w0 j Hj0) as Hrec.
  assert (Hrec1 : record_of jobId w1 = Some (merge j (failure msg) (VStr t))).
  { unfold record_of in *. now rewrite Hm1. }
  assert (Hfield : merge j (failure msg) (VStr t) !! "authUrl"%string
                   = j !! "authUrl"%string).
  { rewrite merge_url. reflexivity. }
  split.
  - exists (merge j (failure msg) (VStr t)). split; [exact Hrec1|].
    rewrite Hfield, Hv1. exact Hcase.
  - intros j0 v Hj0' Hv. rewrite Hj in Hj0'. injection Hj0' as <-.
    exists (merge j (failure msg) (VStr t)). split; [exact Hrec1|].
    now rewrite Hfield.
Qed.

Lemma step_record_url (w : world) (e : event) :
  record_url_inv jobId w ->
  record_url_inv jobId (step jobId userId appName w e)
  /\ forall j v,
       record_of jobId w = Some j ->
       j !! "authUrl"%string = Some (VStr v) ->
       exists j', record_of jobId (step jobId userId appName w e) = Some j'
                  /\ j' !! "authUrl"%string = Some (VStr v).
Proof.
  intros Hinv.
  assert (Hsame : record_url_inv jobId w
                  /\ forall j v,
                       record_of jobId w = Some j ->
                       j !! "authUrl"%string = Some (VStr v) ->
                       exists j', record_of jobId w = Some j'
                                  /\ j' !! "authUrl"%string = Some (VStr v)).
  { split; [exact Hinv|]. intros j v Hj Hv. exists j. auto. }
  destruct e as [o|t ok|k t ok]; simpl.
  - destruct (polling w); [now apply tick_record_url | exact Hsame].
  - unfold ceiling. destruct (_ && _); [|exact Hsame].
    apply (failure_keeps_record_url timeout_message t ok w (clear_interval w));
      auto.
  - unfold abandon. destruct (bool_decide (k ∈ activeJobs w)); [|exact Hsame].
    destruct (decide (k = jobId)) as [->|Hne].
    + apply (failure_keeps_record_url abandoned_message t ok w
               (delete_active jobId w)); auto.
    + destruct Hinv as (j & Hj & Hcase).
      assert (Hrec : record_of jobId
                       (call_update k (failure abandoned_message) t ok
                          (delete_active k w)) = Some j).
      { unfold record_of in *. simpl.
        now rewrite update_other_job by exact Hne. }
      split.
      * exists j. split; [exact Hrec | exact Hcase].
      * intros j0 v Hj0 Hv. rewrite Hj in Hj0. injection Hj0 as <-.
        exists j. auto.
Qed.

Lemma run_record_url (es : list event) :
  forall w,
    record_url_inv jobId w ->
    record_url_inv jobId (run jobId userId appName w es)
    /\ forall j v,
         record_of jobId w = Some j ->
         j !! "authUrl"%string = Some (VStr v) ->
         exists j', record_of jobId (run jobId userId appName w es) = Some j'
                    /\ j' !! "authUrl"%string = Some (VStr v).
Proof.
  induction es as [|e es IH]; intros w Hinv; unfold run in *; simpl.
  - split; [exact Hinv|]. intros j v Hj Hv. exists j. auto.
  - destruct (step_record_url w e Hinv) as (Hi1 & Hk1).
    destruct (IH _ Hi1) as (Hi2 & Hk2).
    split; [exact Hi2|]. intros j v Hj Hv.
    destruct (Hk1 j v Hj Hv) as (j1 & Hj1 & Hv1).
    exact (Hk2 j1 v Hj1 Hv1).
Qed.

(** When the callbacks run one after the other, the first URL stays:
    once the monitor of a job holds an authentication URL [u], every
    later tick, ceiling or sweep leaves it equal to [u], and every update
    issued afterwards that carries [authUrl] carries [u]; the generic
    partner-portal URL is only assigned while no URL is held.  For a job
    whose record lives in the in-memory map and starts without a URL, a
    URL shown by the record is shown by it ever after. *)
Theorem first_url_kept_without_overlap :
  forall (st : store) (others : gset jsstring) (es1 es2 : list event),
    let w1 := run jobId userId appName (started jobId appName st others) es1 in
    let w2 := run jobId userId appName w1 es2 in
    (forall u,
       authUrl (vars w1) = Some u ->
       authUrl (vars w2) = Some u
       /\ forall j upd v,
            In (j, upd) (drop (length (updates w1)) (updates w2)) ->
            upd !! "authUrl"%string = Some v -> v = VStr u)
    /\ (forall j0,
          inMemoryJobs st !! jobId = Some j0 ->
          j0 !! "authUrl"%string = Some VNull ->
          forall j1 v,
            record_of jobId w1 = Some j1 ->
            j1 !! "authUrl"%string = Some (VStr v) ->
            exists j2, record_of jobId w2 = Some j2
                       /\ j2 !! "authUrl"%string = Some (VStr v)).
Proof.
  intros st others es1 es2 w1 w2. split.
  - intros u Hu.
    assert (Hset : url_set (vars w1)).
    { destruct (run_url_wellformed es1 (started jobId appName st others))
        as [Hnone|Hset].
      - left. reflexivity.
      - fold w1 in Hnone. congruence.
      - exact Hset. }
    destruct (run_keeps_url es2 w1 Hset) as (Hkeep & new & Hnew & Hcarry).
    fold w2 in Hkeep, Hnew. rewrite Hu in Hkeep, Hcarry.
    split; [exact Hkeep|].
    intros j upd v Hin Hv. rewrite Hnew, drop_app_length in Hin.
    rewrite List.Forall_forall in Hcarry.
    exact (Hcarry (j, upd) Hin v Hv).
  - intros j0 Hj0 Hnull j1 v Hj1 Hv.
    assert (Hinv0 : record_url_inv jobId (started jobId appName st others)).
    { exists j0. split; [exact Hj0 | now left]. }
    destruct (run_record_url es1 _ Hinv0) as (Hinv1 & _).
    destruct (run_record_url es2 _ Hinv1) as (_ & Hkeep).
    exact (Hkeep j1 v Hj1 Hv).
Qed.

(** ** Two callbacks at once *)

Lemma probe_at_auth_check (r : bool) (o : observation) (m : monitor) :
  reaches_auth_check r o m = true ->
  probe r o m = after_auth_check (authCheck o) m.
Proof.
  unfold reaches_auth_check, probe, after_auth_check.
  destruct (outputCheck o) as [[? ?]|]; [|discriminate].
  destruct (appDirCheck o) as [[dir ?]|]; [|discriminate].
  intros H. apply andb_true_iff in H as [Hdir Hgo].
  apply negb_true_iff in Hdir. rewrite Hdir, Hgo. reflexivity.
Qed.

(** [settle] reads the world it is given but for the closure, which it
    is handed apart. *)
Lemma settle_with_vars (r : bool) (nl : list jsstring) (o : observation)
    (w : world) (m m0 : monitor) :
  settle jobId userId appName r nl o (with_vars w m) m0
  = settle jobId userId appName r nl o w m0.
Proof. reflexivity. Qed.

(** A callback that nothing interrupts is a tick. *)
Lemma tick_uninterrupted (o : observation) (w : world) :
  tick jobId userId appName o w
  = match tick_begin jobId userId appName o w with
    | Finished w' => w'
    | AwaitingAuthCheck r nl w' =>
        tick_resume jobId userId appName r nl o w'
    end.
Proof.
  unfold tick, tick_begin.
  destruct (negb (bool_decide (jobId ∈ activeJobs w))
            || isProcessComplete (vars w)); [reflexivity|].
  destruct (processCheck o) as [[ps pserr]|]; [|reflexivity].
  destruct (logRead o) as [[log err]|]; [|reflexivity].
  destruct (read_log (vars w) log) as [nl m].
  destruct (reaches_auth_check _ o m) eqn:E; [|reflexivity].
  unfold tick_resume. rewrite settle_with_vars.
  now rewrite (probe_at_auth_check _ _ _ E).
Qed.

Lemma read_log_complete (m : monitor) (log : jsstring) :
  isProcessComplete (snd (read_log m log)) = isProcessComplete m.
Proof.
  unfold read_log.
  destruct (truthy log && truthy (trim log)); [|reflexivity].
  destruct (negb (truthy_opt (authUrl m))); [|reflexivity].
  now destruct (truthy_opt (extractAuthUrl log)).
Qed.

(** A callback that waits for its foreground run has passed the guard,
    has found no URL in the closure, and has written nothing yet. *)
Lemma begin_waits (o : observation) (w w1 : world) (r : bool)
    (nl : list jsstring) :
  tick_begin jobId userId appName o w = AwaitingAuthCheck r nl w1 ->
  jobId ∈ activeJobs w
  /\ jobs w1 = jobs w /\ activeJobs w1 = activeJobs w
  /\ polling w1 = polling w /\ updates w1 = updates w
  /\ isProcessComplete (vars w1) = false
  /\ truthy_opt (authUrl (vars w1)) = false.
Proof.
  unfold tick_begin.
  destruct (negb (bool_decide (jobId ∈ activeJobs w))
            || isProcessComplete (vars w)) eqn:G; [discriminate|].
  apply orb_false_iff in G as [Hin Hc].
  apply negb_false_iff, bool_decide_eq_true in Hin.
  destruct (processCheck o) as [[ps pserr]|]; [|discriminate].
  destruct (logRead o) as [[log err]|]; [|discriminate].
  pose proof (read_log_complete (vars w) log) as Hrc.
  destruct (read_log (vars w) log) as [nl' m]. cbn [snd] in Hrc.
  destruct (reaches_auth_check _ o m) eqn:E; [|discriminate].
  intros [= <- <- <-]. cbn [with_vars jobs activeJobs polling updates vars].
  repeat split; try reflexivity; [exact Hin | congruence |].
  unfold reaches_auth_check in E.
  destruct (outputCheck o) as [[? ?]|]; [|discriminate].
  destruct (appDirCheck o) as [[dir ?]|]; [|discriminate].
  apply andb_true_iff in E as [_ E]. apply andb_true_iff in E as [_ E].
  now apply negb_true_iff in E.
Qed.

Lemma nothing_printed : extractAuthUrl [] = None.
Proof. vm_compute. reflexivity. Qed.

(** A callback that resumes with a URL printed by its foreground run
    puts it in the closure, whatever is there, and writes it. *)
Lemma resume_sets_url (r : bool) (nl : list jsstring) (o : observation)
    (w : world) (u : jsstring) (j : job) :
  isProcessComplete (vars w) = false ->
  record_of jobId w = Some j ->
  probe_prints o u ->
  authUrl (vars (tick_resume jobId userId appName r nl o w)) = Some u
  /\ isProcessComplete (vars (tick_resume jobId userId appName r nl o w))
     = false
  /\ exists upd,
       updates (tick_resume jobId userId appName r nl o w)
       = updates w ++ [(jobId, upd)]
       /\ upd !! "authUrl"%string = Some (VStr u)
       /\ record_of jobId (tick_resume jobId userId appName r nl o w)
          = Some (merge j upd (VStr (now o))).
Proof.
  intros Hc Hj (out & err & Ha & Hx & Hne).
  assert (Ht : truthy u = true) by now apply truthy_nonempty.
  assert (Hsome : truthy out || truthy err = true).
  { destruct out, err; try reflexivity.
    change (extractAuthUrl [] = Some u) in Hx.
    rewrite nothing_printed in Hx. discriminate. }
  assert (Hafter : after_auth_check (authCheck o) (vars w)
                   = set_auth (vars w) (Some u)).
  { unfold after_auth_check. rewrite Ha, Hsome, Hx. cbn [truthy_opt].
    now rewrite Ht. }
  unfold tick_resume. rewrite Hafter. unfold settle.
  cbn [push set_auth isProcessComplete authUrl isWaitingForAuth
       outputBuffer truthy_opt].
  rewrite Hc, Ht. cbn [andb].
  split; [reflexivity|]. split; [exact Hc|].
  eexists. split; [reflexivity|]. split; [reflexivity|].
  now apply record_after_update.
Qed.

(** C5 fails when two poll callbacks overlap.  The first callback finds
    the process gone and no URL in the closure, and starts the
    foreground run; the interval fires again while it waits, and the
    second callback, which still finds no URL, starts a foreground run
    of its own.  The first one resumes with the URL [u1] printed by its
    run: the closure, the update it issues and the record of a job held
    in memory get [u1].  The second one then resumes with another URL
    [u2]: the assignment after the await is not guarded, and the
    closure, the next update and the record get [u2] in place of
    [u1]. *)
Theorem C5_overlapping_callbacks_overwrite_url :
  forall (o1 o2 : observation) (w w1 w2 : world) (r1 r2 : bool)
         (nl1 nl2 : list jsstring) (u1 u2 : jsstring) (j : job),
    polling w = true ->
    record_of jobId w = Some j ->
    tick_begin jobId userId appName o1 w = AwaitingAuthCheck r1 nl1 w1 ->
    tick_begin jobId userId appName o2 w1 = AwaitingAuthCheck r2 nl2 w2 ->
    probe_prints o1 u1 ->
    probe_prints o2 u2 ->
    u1 <> u2 ->
    let wa := tick_resume jobId userId appName r1 nl1 o1 w2 in
    let wb := tick_resume jobId userId appName r2 nl2 o2 wa in
    polling w1 = true
    /\ authUrl (vars wa) = Some u1
    /\ (exists upd ja,
          updates wa = updates w ++ [(jobId, upd)]
          /\ upd !! "authUrl"%string = Some (VStr u1)
          /\ record_of jobId wa = Some ja
          /\ ja !! "authUrl"%string = Some (VStr u1))
    /\ authUrl (vars wb) = Some u2
    /\ (exists upd jb,
          updates wb = updates wa ++ [(jobId, upd)]
          /\ upd !! "authUrl"%string = Some (VStr u2)
          /\ record_of jobId wb = Some jb
          /\ jb !! "authUrl"%string = Some (VStr u2))
    /\ authUrl (vars wb) <> authUrl (vars wa).
Proof.
  intros o1 o2 w w1 w2 r1 r2 nl1 nl2 u1 u2 j Hpoll Hj Hb1 Hb2 Hp1 Hp2 Hne
    wa wb.
  destruct (begin_waits _ _ _ _ _ Hb1) as (_ & Hj1 & _ & Hpoll1 & Hu1 & _).
  destruct (begin_waits _ _ _ _ _ Hb2) as (_ & Hj2 & _ & _ & Hu2 & Hc2 & _).
  assert (Hrec2 : record_of jobId w2 = Some j).
  { unfold record_of in *. now rewrite Hj2, Hj1. }
  destruct (resume_sets_url r1 nl1 o1 w2 u1 j Hc2 Hrec2 Hp1)
    as (Hua & Hca & upda & Hupda & Hva & Hreca).
  fold wa in Hua, Hca, Hupda, Hreca.
  destruct (resume_sets_url r2 nl2 o2 wa u2 _ Hca Hreca Hp2)
    as (Hub & _ & updb & Hupdb & Hvb & Hrecb).
  fold wb in Hub, Hupdb, Hrecb.
  split; [congruence|]. split; [exact Hua|]. split.
  { exists upda, (merge j upda (VStr (now o1))).
    split; [now rewrite Hupda, Hu2, Hu1|]. split; [exact Hva|].
    split; [exact Hreca|]. now rewrite merge_url, Hva. }
  split; [exact Hub|]. split.
  { exists updb, (merge (merge j upda (VStr (now o1))) updb (VStr (now o2))).
    split; [exact Hupdb|]. split; [exact Hvb|].
    split; [exact Hrecb|]. now rewrite merge_url, Hvb. }
  rewrite Hua, Hub. congruence.
Qed.

(** ** The ceiling *)

Lemma calls_for_snoc_other (j : jsstring) (upd : job)
    (l : list (jsstring * job)) :
  j <> jobId ->
  List.filter (fun c => bool_decide (fst c = jobId)) (l ++ [(j, upd)])
  = List.filter (fun c => bool_decide (fst c = jobId)) l.
Proof.
  intros Hne. rewrite List.filter_app. simpl.
  rewrite bool_decide_eq_false_2 by exact Hne. apply app_nil_r.
Qed.

(** Once the interval is cleared and the job has left the table, no
    timer touches the job again. *)
Lemma step_quiet (w : world) (e : event) :
  quiet jobId w ->
  quiet jobId (step jobId userId appName w e)
  /\ calls_for jobId (step jobId userId appName w e) = calls_for jobId w
  /\ record_of jobId (step jobId userId appName w e) = record_of jobId w.
Proof.
  intros [Hp Ha]. destruct e as [o|t ok|j t ok]; simpl.
  - rewrite Hp. repeat split; assumption.
  - unfold ceiling. simpl.
    rewrite (bool_decide_eq_false_2 _ Ha). simpl.
    repeat split; assumption.
  - unfold abandon. case_bool_decide as Hj.
    + assert (Hne : j <> jobId) by (intros ->; contradiction).
      unfold quiet, calls_for, record_of. simpl.
      rewrite calls_for_snoc_other by exact Hne.
      rewrite update_other_job by exact Hne.
      repeat split; [exact Hp|]. intros Hin.
      apply elem_of_difference in Hin as [Hin _]. contradiction.
    + repeat split; assumption.
Qed.

Lemma run_quiet (es : list event) :
  forall w,
    quiet jobId w ->
    quiet jobId (run jobId userId appName w es)
    /\ calls_for jobId (run jobId userId appName w es) = calls_for jobId w
    /\ record_of jobId (run jobId userId appName w es) = record_of jobId w.
Proof.
  induction es as [|e es IH]; intros w Hq; unfold run in *; simpl.
  - repeat split; apply Hq.
  - destruct (step_quiet w e Hq) as (Hq1 & Hc1 & Hr1).
    destruct (IH _ Hq1) as (Hq2 & Hc2 & Hr2).
    rewrite Hc2, Hc1, Hr2, Hr1. repeat split; apply Hq2.
Qed.

(** A job that left the active table, or that the monitor flagged
    complete, is left alone by the ceiling. *)
Lemma ceiling_skips_finished_job (w : world) (t : jsstring) (ok : bool) :
  jobId ∉ activeJobs w \/ isProcessComplete (vars w) = true ->
  updates (ceiling jobId t ok w) = updates w
  /\ jobs (ceiling jobId t ok w) = jobs w.
Proof.
  intros H. unfold ceiling. simpl.
  destruct H as [Hout | Hdone].
  - now rewrite (bool_decide_eq_false_2 _ Hout).
  - rewrite Hdone, andb_false_r. now split.
Qed.

(** C2, as the code has it: the ceiling callback always clears the poll
    interval.  When the job is still in the active table and not flagged
    complete, it issues the update [status=failed, stage=error] with the
    time-out message, which a record held in memory takes, and from then
    on no tick, ceiling or sweep issues an update for this job or changes
    its record. *)
Theorem C2_ceiling_fails_unfinished_job :
  forall (w : world) (t : jsstring) (ok : bool),
    let w' := ceiling jobId t ok w in
    polling w' = false
    /\ (jobId ∈ activeJobs w -> isProcessComplete (vars w) = false ->
        updates w' = updates w ++ [(jobId, failure timeout_message)]
        /\ (jobId ∉ activeJobs w')
        /\ (forall j, record_of jobId w = Some j ->
              exists j', record_of jobId w' = Some j'
                         /\ failed_record j' timeout_message)
        /\ forall es,
             let w'' := run jobId userId appName w' es in
             polling w'' = false
             /\ calls_for jobId w'' = calls_for jobId w'
             /\ record_of jobId w'' = record_of jobId w').
Proof.
  intros w t ok w'. subst w'. unfold ceiling. simpl.
  split; [now destruct (_ && _)|].
  intros Hact Hrun.
  rewrite (bool_decide_eq_true_2 _ Hact), Hrun. simpl.
  assert (Hgone : jobId ∉ (activeJobs w ∖ {[jobId]})).
  { intros Hin. apply elem_of_difference in Hin as [_ Hin]. apply Hin.
    now apply elem_of_singleton. }
  split; [reflexivity|]. split; [exact Hgone|]. split.
  - intros j Hj. unfold record_of in *. simpl.
    rewrite (update_of_memory_job _ _ _ _ _ _ Hj). simpl.
    rewrite lookup_insert_eq. eexists. split; [reflexivity|].
    unfold failed_record. rewrite !merge_lookup. simpl.
    repeat split; reflexivity.
  - intros es.
    match goal with
    | |- context [run _ _ _ ?x es] =>
        destruct (run_quiet es x) as (Hq & Hc & Hr)
    end.
    { split; [reflexivity | exact Hgone]. }
    split; [apply Hq|]. split; assumption.
Qed.

(** ** Completion markers *)

Lemma includes_truthy (s p : jsstring) :
  includes s p = true -> truthy p = true -> truthy s = true.
Proof.
  intros Hi Hp. destruct s; [|reflexivity].
  destruct p; [discriminate Hp|]. compute in Hi. discriminate Hi.
Qed.

(** The markers make the probe flag the job complete. *)
Lemma probe_markers (r : bool) (o : observation) (m : monitor) :
  markers_observed o -> isProcessComplete (probe r o m) = true.
Proof.
  intros (_ & _ & Hout & (dir & e1 & Hdir & Ht & Hno)
          & (listing & e2 & Hls & Hp & Ha)).
  unfold probe. destruct (outputCheck o); [|discriminate].
  rewrite Hdir, Ht, Hno, Hls, Hp, Ha. simpl.
  rewrite (includes_truthy _ _ Ha) by reflexivity. reflexivity.
Qed.

(** What the tick comes down to when the probe finds the markers. *)
Lemma tick_with_markers (o : observation) (w : world) :
  tick_runs jobId w -> markers_observed o ->
  exists r nl m,
    isProcessComplete m = true
    /\ tick jobId userId appName o w
       = settle jobId userId appName r nl o w m.
Proof.
  intros [Hact Hrun] Hobs. unfold tick.
  rewrite (bool_decide_eq_true_2 _ Hact), Hrun. simpl.
  pose proof Hobs as (Hps & Hlog & _).
  destruct (processCheck o) as [[ps pserr]|]; [|discriminate].
  destruct (logRead o) as [[log err]|]; [|discriminate].
  destruct (read_log (vars w) log) as [nl m].
  eexists _, nl, _. split; [|reflexivity].
  now apply probe_markers.
Qed.

Lemma settle_completed (r : bool)
    (nl : list jsstring) (o : observation) (w : world) (m : monitor) :
  isProcessComplete m = true ->
  db (jobs w) = None \/ meta_ok o = true ->
  exists upd,
    updates (settle jobId userId appName r nl o w m)
    = updates w ++ [(jobId, upd)]
    /\ upd !! "stage"%string = Some (stage_value completed)
    /\ upd !! "status"%string = Some (VStr (js "completed")).
Proof.
  intros Hc Hsave. unfold settle. simpl. rewrite Hc.
  unfold saveShopifyAppMetadata.
  destruct Hsave as [Hdb|Hok].
  - rewrite Hdb. simpl. eexists. split; [reflexivity|]. split; reflexivity.
  - rewrite Hok. destruct (db (jobs w)); simpl;
      (eexists; split; [reflexivity|]; split; reflexivity).
Qed.

(** When the metadata write goes through, or there is no document store,
    the markers complete the job. *)
Lemma markers_complete_job (o : observation) (w : world) :
  tick_runs jobId w -> markers_observed o ->
  db (jobs w) = None \/ meta_ok o = true ->
  exists upd,
    updates (tick jobId userId appName o w) = updates w ++ [(jobId, upd)]
    /\ upd !! "stage"%string = Some (stage_value completed)
    /\ upd !! "status"%string = Some (VStr (js "completed")).
Proof.
  intros Hrun Hobs Hsave.
  destruct (tick_with_markers o w Hrun Hobs)
    as (r & nl & m & Hc & ->).
  now apply settle_completed.
Qed.

(** C1 does not hold on this path: the probe finds the package manifest
    and the app entry, the document store is configured and refuses the
    metadata write.  The tick then appends the three completion lines,
    but the update it issues carries [output] only, so a record held in
    memory keeps the status and the stage it had; polling has stopped and
    no later tick, ceiling or sweep updates the job. *)
Theorem C1_markers_with_refused_metadata :
  forall (o : observation) (w : world),
    tick_runs jobId w -> markers_observed o ->
    db (jobs w) <> None -> meta_ok o = false ->
    let w' := tick jobId userId appName o w in
    (exists lines,
       updates w' = updates w ++ [(jobId, {[ "output"%string := VLines lines ]})]
       /\ outputBuffer (vars w') = lines
       /\ exists before, lines = before ++ completion_lines)
    /\ (forall j, record_of jobId w = Some j ->
          exists j', record_of jobId w' = Some j'
                     /\ j' !! "status"%string = j !! "status"%string
                     /\ j' !! "stage"%string = j !! "stage"%string)
    /\ forall es,
         let w'' := run jobId userId appName w' es in
         polling w'' = false
         /\ calls_for jobId w'' = calls_for jobId w'
         /\ record_of jobId w'' = record_of jobId w'.
Proof.
  intros o w Hrun Hobs Hdb Hmeta w'. subst w'.
  destruct (tick_with_markers o w Hrun Hobs)
    as (r & nl & m & Hc & ->).
  unfold settle. simpl. rewrite Hc.
  unfold saveShopifyAppMetadata.
  destruct (db (jobs w)) as [fs|] eqn:Efs; [|congruence].
  rewrite Hmeta. simpl. split; [|split].
  - eexists. split; [reflexivity|]. split; [reflexivity|].
    eexists. reflexivity.
  - intros j Hj. unfold record_of in *. simpl.
    rewrite (update_of_memory_job _ _ _ _ _ _ Hj). simpl.
    rewrite lookup_insert_eq. eexists. split; [reflexivity|].
    rewrite !merge_lookup. simpl.
    rewrite !lookup_singleton_ne by discriminate. split; reflexivity.
  - intros es.
    match goal with
    | |- context [run _ _ _ ?x es] =>
        destruct (run_quiet es x) as (Hq & Hcalls & Hr)
    end.
    { split; [reflexivity|]. simpl. intros Hin.
      apply elem_of_difference in Hin as [_ Hin]. apply Hin.
      now apply elem_of_singleton. }
    split; [apply Hq|]. split; assumption.
Qed.

End MonitoredJob.

Lemma C1_markers_with_refused_metadata_witness :
  let w := started (js "job_1") (js "shop") outage_store ∅ in
  let w' := tick (js "job_1") (js "u") (js "shop") (markers_found false) w in
  status_of (js "job_1") w' = VStr (js "running")
  /\ stage_of (js "job_1") w' = VStr (js "initializing")
  /\ last (outputBuffer (vars w')) = Some ([55356; 57225] ++ js " Setup complete!")
  /\ forall es,
       calls_for (js "job_1") (run (js "job_1") (js "u") (js "shop") w' es)
       = calls_for (js "job_1") w'.
Proof.
  split; [vm_compute; reflexivity|].
  split; [vm_compute; reflexivity|].
  split; [vm_compute; reflexivity|].
  intros es.
  refine (proj1 (proj2 (proj2 (proj2
    (C1_markers_with_refused_metadata (js "job_1") (js "u") (js "shop")
       (markers_found false)
       (started (js "job_1") (js "shop") outage_store ∅) _ _ _ _)) es))).
  - split; [|reflexivity].
    apply elem_of_union_l, elem_of_singleton. reflexivity.
  - repeat split; try reflexivity.
    + exists (js "total 16"), []. repeat split; vm_compute; reflexivity.
    + eexists _, []. repeat split; vm_compute; reflexivity.
  - vm_compute. discriminate.
  - reflexivity.
Defined.

Lemma C2_ceiling_fails_unfinished_job_witness :
  let w := started (js "job_1") (js "shop") memory_store ∅ in
  let w' := ceiling (js "job_1") (js "t9") true w in
  updates w' = [(js "job_1", failure timeout_message)]
  /\ status_of (js "job_1") w' = VStr (js "failed")
  /\ stage_of (js "job_1") w' = VStr (js "error").
Proof.
  split; [|split; vm_compute; reflexivity].
  refine (proj1 (proj2
    (C2_ceiling_fails_unfinished_job (js "job_1") (js "u") (js "shop")
       (started (js "job_1") (js "shop") memory_store ∅) (js "t9") true)
    _ _)).
  - apply elem_of_union_l, elem_of_singleton. reflexivity.
  - reflexivity.
Defined.

(** C2 as stated fails: the only tick sees no project directory, so no
    completion marker is ever observed, but the process is gone and the
    last log line contains "success".  The tick flags the job complete and
    writes [stage=completed] without a status; the ceiling then leaves the
    record alone, with status [running], and no update ever carries a
    status. *)
Lemma C2_counterexample :
  let w :=
    run (js "job_1") (js "u") (js "shop")
      (started (js "job_1") (js "shop") memory_store ∅)
      [Tick stalled_with_success; Ceiling (js "t2") true] in
  appDirCheck stalled_with_success = ok_cmd (js "no app dir yet")
  /\ status_of (js "job_1") w = VStr (js "running")
  /\ stage_of (js "job_1") w = VStr (js "completed")
  /\ polling w = false
  /\ Forall (fun c => snd c !! "status"%string = None) (updates w).
Proof.
  split; [reflexivity|].
  split; [vm_compute; reflexivity|].
  split; [vm_compute; reflexivity|].
  split; [vm_compute; reflexivity|].
  vm_compute. repeat constructor.
Qed.

Lemma first_url_kept_without_overlap_example :
  let u := js "https://partners.shopify.com/abc123" in
  let w1 :=
    run (js "job_1") (js "u") (js "shop")
      (started (js "job_1") (js "shop") memory_store ∅) [Tick prompt_seen] in
  let w2 := run (js "job_1") (js "u") (js "shop") w1 [Tick other_prompt_seen] in
  authUrl (vars w1) = Some u
  /\ extractAuthUrl
       (js "Open this link: https://partners.shopify.com/zzz999")
     = Some (js "https://partners.shopify.com/zzz999")
  /\ authUrl (vars w2) = Some u
  /\ exists j2, record_of (js "job_1") w2 = Some j2
                /\ j2 !! "authUrl"%string = Some (VStr u).
Proof.
  split; [vm_compute; reflexivity|].
  split; [vm_compute; reflexivity|].
  pose proof (first_url_kept_without_overlap (js "job_1") (js "u")
                (js "shop") memory_store ∅ [Tick prompt_seen]
                [Tick other_prompt_seen])
    as [Hvar Hrec].
  split.
  - refine (proj1 (Hvar (js "https://partners.shopify.com/abc123") _)).
    vm_compute. reflexivity.
  - eapply (Hrec (newJob (js "job_1") (js "u") (js "shop") (js "t0"))).
    + vm_compute. reflexivity.
    + vm_compute. reflexivity.
    + vm_compute. reflexivity.
    + vm_compute. reflexivity.
Defined.

Lemma C5_overlapping_callbacks_overwrite_url_witness :
  let w := started (js "job_1") (js "shop") memory_store ∅ in
  let o1 := login_printed (js "first") (js "t1") in
  let o2 := login_printed (js "second") (js "t2") in
  let nl := [ js "Please log in to continue" ] in
  let wa := tick_resume (js "job_1") (js "u") (js "shop") false nl o1 w in
  let wb := tick_resume (js "job_1") (js "u") (js "shop") false nl o2 wa in
  tick_begin (js "job_1") (js "u") (js "shop") o1 w
  = AwaitingAuthCheck false nl w
  /\ tick_begin (js "job_1") (js "u") (js "shop") o2 w
     = AwaitingAuthCheck false nl w
  /\ authUrl (vars wa) = Some (js "https://partners.shopify.com/first")
  /\ authUrl (vars wb) = Some (js "https://partners.shopify.com/second").
Proof.
  intros w o1 o2 nl wa wb.
  assert (E1 : tick_begin (js "job_1") (js "u") (js "shop") o1 w
               = AwaitingAuthCheck false nl w)
    by (vm_compute; reflexivity).
  assert (E2 : tick_begin (js "job_1") (js "u") (js "shop") o2 w
               = AwaitingAuthCheck false nl w)
    by (vm_compute; reflexivity).
  split; [exact E1|]. split; [exact E2|].
  destruct (C5_overlapping_callbacks_overwrite_url (js "job_1") (js "u")
              (js "shop") o1 o2 w w w false false nl nl
              (js "https://partners.shopify.com/first")
              (js "https://partners.shopify.com/second")
              (newJob (js "job_1") (js "u") (js "shop") (js "t0")))
    as (_ & Ha & _ & Hb & _).
  - reflexivity.
  - reflexivity.
  - exact E1.
  - exact E2.
  - eexists _, []. split; [reflexivity|]. split; [vm_compute; reflexivity|].
    discriminate.
  - eexists _, []. split; [reflexivity|]. split; [vm_compute; reflexivity|].
    discriminate.
  - vm_compute. discriminate.
  - split; [exact Ha | exact Hb].
Defined.


(** * Further properties *)

(** ** Substrings *)

Lemma startsWith_spec (s p : jsstring) :
  startsWith s p = true <-> exists r, s = p ++ r.
Proof.
  revert s. induction p as [|c p IH]; intros s; simpl.
  - split; [intros _; now exists s | intros _; now destruct s].
  - destruct s as [|d s]; [split; [discriminate | intros (r & H); discriminate]|].
    simpl. rewrite andb_true_iff, IH, N.eqb_eq. split.
    + intros (-> & r & ->). now exists r.
    + intros (r & H). injection H as -> ->. split; [reflexivity | now exists r].
Qed.

Lemma includes_spec (s p : jsstring) :
  includes s p = true <-> occurs_in p s.
Proof.
  unfold occurs_in. induction s as [|d s IH]; unfold includes; fold includes.
  - rewrite orb_false_r, startsWith_spec. split.
    + intros (r & H). exists [], r. exact H.
    + intros (a & b & H). destruct a; [now exists b|discriminate].
  - rewrite orb_true_iff, IH, startsWith_spec. split.
    + intros [(r & H) | (a & b & H)].
      * exists [], r. exact H.
      * exists (d :: a), b. simpl. now rewrite H.
    + intros (a & b & H). destruct a as [|e a].
      * left. now exists b.
      * right. injection H as -> H. now exists a, b.
Qed.

Lemma occurs_in_app (p s a b : jsstring) :
  occurs_in p s -> occurs_in p (a ++ s ++ b).
Proof.
  intros (x & y & ->). exists (a ++ x), (y ++ b).
  now rewrite <- !app_assoc.
Qed.

Lemma trimStart_suffix (s : jsstring) : exists a, s = a ++ trimStart s.
Proof.
  induction s as [|c s (a & IH)]; simpl; [now exists []|].
  destruct (isWhiteSpace c).
  - exists (c :: a). simpl. now rewrite <- IH.
  - now exists [].
Qed.

Lemma trim_infix (s : jsstring) : occurs_in (trim s) s.
Proof.
  unfold trim, trimEnd.
  destruct (trimStart_suffix s) as (a & Ha).
  destruct (trimStart_suffix (rev (trimStart s))) as (b & Hb).
  exists a, (rev b).
  rewrite <- rev_app_distr, <- Hb, rev_involutive. exact Ha.
Qed.

Lemma includes_trim (s p : jsstring) :
  includes (trim s) p = true -> includes s p = true.
Proof.
  rewrite !includes_spec. intros H.
  destruct (trim_infix s) as (a & b & Hs). rewrite Hs.
  now apply occurs_in_app.
Qed.

(** ** The matcher finds only what the pattern matches *)

Lemma star_greedy_sound {R : Type} (p : N -> bool)
    (k : jsstring -> option R) (s : jsstring) (x : R) :
  star_greedy p k s = Some x ->
  exists pre rest, s = pre ++ rest /\ forallb p pre = true /\ k rest = Some x.
Proof.
  induction s as [|c s IH]; simpl.
  - intros H. now exists [], [].
  - destruct (p c) eqn:Ec.
    + destruct (star_greedy p k s) as [y|] eqn:Es.
      * intros [= ->]. destruct (IH eq_refl) as (pre & rest & -> & Hp & Hk).
        exists (c :: pre), rest. simpl. now rewrite Ec, Hp.
      * intros H. now exists [], (c :: s).
    + intros H. now exists [], (c :: s).
Qed.

(** A lazy star stops at the first place where the rest of the pattern
    goes through. *)
Lemma star_lazy_sound {R : Type} (p : N -> bool)
    (k : jsstring -> option R) (s : jsstring) (x : R) :
  star_lazy p k s = Some x ->
  exists pre rest,
    s = pre ++ rest /\ forallb p pre = true /\ k rest = Some x
    /\ forall pre1 pre2,
         pre = pre1 ++ pre2 -> pre2 <> [] -> k (pre2 ++ rest) = None.
Proof.
  induction s as [|c s IH]; simpl.
  - destruct (k []) as [y|] eqn:Ek; [|discriminate].
    intros [= ->]. exists [], []. repeat split; auto.
    intros pre1 pre2 H Hne. destruct pre1, pre2; try discriminate.
    now elim Hne.
  - destruct (k (c :: s)) as [y|] eqn:Ek.
    + intros [= ->]. exists [], (c :: s). repeat split; auto.
      intros pre1 pre2 H Hne. destruct pre1, pre2; try discriminate.
      now elim Hne.
    + destruct (p c) eqn:Ec; [|discriminate].
      intros H. destruct (IH H) as (pre & rest & -> & Hp & Hk & Hmin).
      exists (c :: pre), rest. simpl. rewrite Ec, Hp.
      repeat split; auto.
      intros pre1 pre2 Hsplit Hne. destruct pre1 as [|d pre1].
      * simpl in Hsplit. subst pre2. exact Ek.
      * injection Hsplit as -> Hsplit. now apply (Hmin pre1 pre2).
Qed.

Lemma rmatch_sound {R : Type} (r : regex) :
  forall (s : jsstring) (caps : captures)
         (k : jsstring -> captures -> option R) (x : R),
    rmatch r s caps k = Some x ->
    exists pre rest caps',
      s = pre ++ rest /\ matches r pre caps caps' /\ k rest caps' = Some x.
Proof.
  induction r as [|p|r1 IH1 r2 IH2|r1 IH1 r2 IH2|g p|i r IH];
    intros s caps k x; simpl.
  - intros H. exists [], s, caps. repeat split; [apply matches_empty | exact H].
  - destruct s as [|c s]; [discriminate|].
    destruct (p c) eqn:Ec; [|discriminate].
    intros H. exists [c], s, caps.
    repeat split; [now apply matches_class | exact H].
  - intros H.
    destruct (IH1 _ _ _ _ H) as (p1 & s1 & c1 & -> & Hm1 & H1).
    destruct (IH2 _ _ _ _ H1) as (p2 & s2 & c2 & -> & Hm2 & H2).
    exists (p1 ++ p2), s2, c2. rewrite app_assoc.
    repeat split; [eapply matches_cat; eauto | exact H2].
  - destruct (rmatch r1 s caps k) as [y|] eqn:E1.
    + intros [= ->]. destruct (IH1 _ _ _ _ E1) as (p1 & s1 & c1 & -> & Hm & H1).
      exists p1, s1, c1. repeat split; [now apply matches_alt_l | exact H1].
    + intros H. destruct (IH2 _ _ _ _ H) as (p2 & s2 & c2 & -> & Hm & H2).
      exists p2, s2, c2. repeat split; [now apply matches_alt_r | exact H2].
  - destruct g; intros H.
    + apply star_greedy_sound in H as (pre & rest & -> & Hp & Hk).
      exists pre, rest, caps.
      repeat split; [now apply matches_star | exact Hk].
    + apply star_lazy_sound in H as (pre & rest & -> & Hp & Hk & _).
      exists pre, rest, caps.
      repeat split; [now apply matches_star | exact Hk].
  - intros H. destruct (IH _ _ _ _ H) as (pre & rest & c1 & -> & Hm & Hk).
    exists pre, rest, ((i, pre) :: c1).
    repeat split; [now apply matches_capture|].
    rewrite length_app in Hk.
    replace (length pre + length rest - length rest)%nat
      with (length pre) in Hk by lia.
    now rewrite take_app_length in Hk.
Qed.

Lemma search_sound (r : regex) (s : jsstring) (caps : captures) :
  search r s = Some caps ->
  exists before pre after,
    s = before ++ pre ++ after /\ matches r pre [] caps.
Proof.
  induction s as [|c s IH]; simpl.
  - destruct (match_here r []) as [[c0 rest]|] eqn:E; [|discriminate].
    intros [= ->]. unfold match_here in E.
    apply rmatch_sound in E as (pre & rest' & c' & Hs & Hm & Hk).
    injection Hk as -> ->. exists [], pre, rest. now split.
  - destruct (match_here r (c :: s)) as [[c0 rest]|] eqn:E.
    + intros [= ->]. unfold match_here in E.
      apply rmatch_sound in E as (pre & rest' & c' & Hs & Hm & Hk).
      injection Hk as -> ->. exists [], pre, rest. now split.
    + intros H. destruct (IH H) as (before & pre & after & -> & Hm).
      exists (c :: before), pre, after. now split.
Qed.

Lemma lower_of_folded (c d : N) :
  not_upper c = true -> upper1 d = upper1 c -> lower1 d = c.
Proof.
  unfold not_upper, upper1, lower1.
  destruct (N.leb_spec 65 c), (N.leb_spec c 90), (N.leb_spec 97 c),
    (N.leb_spec c 122), (N.leb_spec 97 d), (N.leb_spec d 122),
    (N.leb_spec 65 d), (N.leb_spec d 90); simpl; try discriminate; lia.
Qed.

(** What a literal matches under the [i] flag. *)
Lemma lit_i_matches (l : jsstring) :
  forall (s : jsstring) (c c' : captures),
    matches (lit_i l) s c c' ->
    c' = c /\ length s = length l
    /\ (forallb not_upper l = true -> toLowerCase s = l).
Proof.
  induction l as [|a l IH]; intros s c c' H; simpl in H.
  - inversion H; subst. auto.
  - inversion H as [| |r1 r2 s1 s2 c0 c1 c2 H1 H2| | | |]; subst.
    inversion H1 as [|p ch c0 Hp| | | | |]; subst.
    destruct (IH _ _ _ H2) as (-> & Hlen & Hlow).
    split; [reflexivity|]. split; [simpl; now rewrite Hlen|].
    simpl. intros Hall. apply andb_true_iff in Hall as [Ha Hl].
    apply N.eqb_eq in Hp. unfold toLowerCase in *. simpl.
    now rewrite (lower_of_folded a ch Ha Hp), (Hlow Hl).
Qed.

(** ** The URLs the extractor returns *)

Ltac bools :=
  repeat match goal with
         | H : _ || _ = true |- _ => apply orb_true_iff in H; destruct H
         | H : _ && _ = true |- _ => apply andb_true_iff in H; destruct H
         | H : (_ =? _) = true |- _ => apply N.eqb_eq in H
         | H : (_ <=? _) = true |- _ => apply N.leb_le in H
         end.

Lemma blank_not_letter (d : N) : isWhiteSpace d = true -> lower1 d = d.
Proof.
  intros H. unfold lower1.
  destruct ((65 <=? d) && (d <=? 90)) eqn:E; [|reflexivity].
  unfold isWhiteSpace in H. bools; lia.
Qed.

Lemma not_ws_of_lower (s : jsstring) :
  forallb not_ws (toLowerCase s) = true -> forallb not_ws s = true.
Proof.
  unfold toLowerCase. induction s as [|d s IH]; simpl; [reflexivity|].
  intros H. apply andb_true_iff in H as [Hd Hs].
  rewrite (IH Hs), andb_true_r. unfold not_ws in *.
  destruct (isWhiteSpace d) eqn:E; [|reflexivity].
  now rewrite (blank_not_letter d E), E in Hd.
Qed.

Lemma partner_prefix_matches (s : jsstring) (c c' : captures) :
  matches (lit_i partners) s c c' ->
  c' = c /\ length s = length partners /\ toLowerCase s = partners
  /\ forallb not_ws s = true.
Proof.
  intros H. apply lit_i_matches in H as (-> & Hlen & Hlow).
  specialize (Hlow eq_refl). repeat split; auto.
  apply not_ws_of_lower. now rewrite Hlow.
Qed.

Lemma url_tail_matches (s : jsstring) (c c' : captures) :
  matches (plus true not_ws) s c c' ->
  c' = c /\ s <> [] /\ forallb not_ws s = true.
Proof.
  unfold plus. intros H.
  inversion H as [| |r1 r2 s1 s2 c0 c1 c2 H1 H2| | | |]; subst.
  inversion H1 as [|p ch c0 Hp| | | | |]; subst.
  inversion H2 as [| | | | |g p s c0 Hs|]; subst.
  repeat split; [discriminate|]. simpl. now rewrite Hp, Hs.
Qed.

Lemma phrase_pattern_matches (phrase s : jsstring) (caps : captures) :
  matches (phrase_pattern phrase) s [] caps ->
  exists a u,
    s = a ++ u /\ caps = [(1%nat, u)]
    /\ on_partner_domain u /\ (length partners < length u)%nat.
Proof.
  unfold phrase_pattern. intros H.
  inversion H as [| |r1 r2 s1 s2 c0 c1 c2 H1 H2| | | |]; subst.
  apply lit_i_matches in H1 as (-> & _ & _).
  inversion H2 as [| |r1 r2 s3 s4 c0 c3 c4 H3 H4| | | |]; subst.
  inversion H3 as [| | | | |g p s c0 Hs|]; subst.
  inversion H4 as [| | | | | |i r u c0 c5 H5]; subst.
  inversion H5 as [| |r1 r2 s5 s6 c0 c6 c7 H6 H7| | | |]; subst.
  apply partner_prefix_matches in H6 as (-> & Hlen & Hlow & Hws).
  apply url_tail_matches in H7 as (-> & Hne & Hws').
  exists (s1 ++ s3), (s5 ++ s6). rewrite <- app_assoc.
  repeat split.
  - rewrite <- Hlen, take_app_length. exact Hlow.
  - rewrite forallb_app, Hws, Hws'. reflexivity.
  - rewrite length_app, <- Hlen. destruct s6; [now elim Hne | simpl; lia].
Qed.

Lemma bare_auth_pattern_matches (s : jsstring) (caps : captures) :
  matches bare_auth_pattern s [] caps ->
  caps = [(1%nat, s)]
  /\ on_partner_domain s /\ (length partners < length s)%nat.
Proof.
  unfold bare_auth_pattern. intros H.
  remember (lit_i (js "auth")) as la eqn:Ela.
  remember (lit_i partners) as lp eqn:Elp.
  inversion H as [| | | | | |i r u c0 c5 H5]; subst i r u c0 caps.
  inversion H5 as [| |r1 r2 s1 s2 c0 c1 c2 H1 H2| | | |].
  subst r1 r2 c0 c2 s. rewrite Elp in H1.
  apply partner_prefix_matches in H1 as (-> & Hlen & Hlow & Hws).
  inversion H2 as [| |r1 r2 s3 s4 c0 c3 c4 H3 H4| | | |].
  subst r1 r2 c0 c4 s2.
  inversion H3 as [| | | | |g p s c0 Hs3|]; subst g p s c0 c3.
  inversion H4 as [| |r1 r2 s5 s6 c0 c6 c7 H6 H7| | | |].
  subst r1 r2 c0 c7 s4. rewrite Ela in H6.
  apply lit_i_matches in H6 as (-> & Hlen5 & Hlow5).
  specialize (Hlow5 eq_refl).
  inversion H7 as [| | | | |g p s c0 Hs6|]; subst g p s c0 c5.
  assert (Hws5 : forallb not_ws s5 = true).
  { apply not_ws_of_lower. now rewrite Hlow5. }
  repeat split.
  - rewrite <- Hlen, take_app_length. exact Hlow.
  - rewrite !forallb_app, Hws, Hs3, Hws5, Hs6. reflexivity.
  - rewrite !length_app, <- Hlen, Hlen5. simpl. lia.
Qed.

Lemma first_match_sound (ps : list regex) (output u : jsstring) :
  first_match ps output = Some u ->
  exists p caps,
    In p ps /\ search p output = Some caps /\ group 1 caps = Some u.
Proof.
  induction ps as [|p ps IH]; simpl; [discriminate|].
  destruct (search p output) as [caps|] eqn:E.
  - destruct (group 1 caps) as [v|] eqn:Eg; [|discriminate].
    intros [= ->]. exists p, caps. auto.
  - intros H. destruct (IH H) as (q & caps & Hin & Hs & Hg).
    exists q, caps. auto.
Qed.

(** Where a returned URL sits in the text, and what it looks like. *)
Lemma extractAuthUrl_match (output u : jsstring) :
  extractAuthUrl output = Some u ->
  exists before lead after,
    output = before ++ (lead ++ u) ++ after
    /\ on_partner_domain u /\ (length partners < length u)%nat.
Proof.
  intros H. unfold extractAuthUrl in H.
  apply first_match_sound in H as (p & caps & Hin & Hs & Hg).
  apply search_sound in Hs as (before & pre & after & -> & Hm).
  assert (Hphrase : forall phrase,
             p = phrase_pattern phrase ->
             exists before0 lead after0,
               before ++ pre ++ after = before0 ++ (lead ++ u) ++ after0
               /\ on_partner_domain u /\ (length partners < length u)%nat).
  { intros phrase ->.
    apply phrase_pattern_matches in Hm as (a & v & -> & -> & Hd & Hl).
    simpl in Hg. injection Hg as <-. exists before, a, after. auto. }
  unfold patterns in Hin. simpl in Hin.
  destruct Hin as [<-|[<-|[<-|[<-|[<-|[<-|[]]]]]]]; eauto.
  apply bare_auth_pattern_matches in Hm as (-> & Hd & Hl).
  simpl in Hg. injection Hg as <-. exists before, [], after. auto.
Qed.

(** X1: whatever text it is given, [extractAuthUrl] only returns text
    that occurs in it, starts (up to case) with the partner-portal prefix
    followed by at least one more code unit, and has no white space. *)
Theorem X1_extracted_url_on_partner_domain :
  forall (output u : jsstring),
    extractAuthUrl output = Some u ->
    occurs_in u output
    /\ on_partner_domain u
    /\ (length partners < length u)%nat.
Proof.
  intros output u H.
  apply extractAuthUrl_match in H as (before & lead & after & -> & Hd & Hl).
  split; [|auto].
  exists (before ++ lead), after. now rewrite <- !app_assoc.
Qed.

Lemma X1_extracted_url_on_partner_domain_witness :
  let text :=
    js "Visit this URL to authenticate:  HTTPS://Partners.Shopify.com/oauth?x=1 now" in
  extractAuthUrl text = Some (js "HTTPS://Partners.Shopify.com/oauth?x=1")
  /\ on_partner_domain (js "HTTPS://Partners.Shopify.com/oauth?x=1").
Proof.
  split; [vm_compute; reflexivity|].
  refine (proj1 (proj2
    (X1_extracted_url_on_partner_domain
       (js "Visit this URL to authenticate:  HTTPS://Partners.Shopify.com/oauth?x=1 now")
       (js "HTTPS://Partners.Shopify.com/oauth?x=1") _))).
  vm_compute. reflexivity.
Defined.

(** ** What the code-block pattern captures *)

Lemma rmatch_lit {R : Type} (l : jsstring) :
  forall (s : jsstring) (c : captures)
         (k : jsstring -> captures -> option R),
    rmatch (lit l) s c k
    = if startsWith s l then k (drop (length l) s) c else None.
Proof.
  induction l as [|a l IH]; intros s c k; simpl.
  - now destruct s.
  - destruct s as [|d s]; [reflexivity|]. simpl.
    destruct (a =? d); simpl; [apply IH | reflexivity].
Qed.

Lemma rmatch_cat {R : Type} (r1 r2 : regex) (s : jsstring) (c : captures)
    (k : jsstring -> captures -> option R) :
  rmatch (Cat r1 r2) s c k
  = rmatch r1 s c (fun s' c' => rmatch r2 s' c' k).
Proof. reflexivity. Qed.

Lemma rmatch_capture_lazy {R : Type} (i : nat) (p : N -> bool)
    (s : jsstring) (c : captures) (k : jsstring -> captures -> option R) :
  rmatch (Capture i (Star false p)) s c k
  = star_lazy p
      (fun s' => k s' ((i, take (length s - length s') s) :: c)) s.
Proof. reflexivity. Qed.

(** The body of a block is the shortest text after which a fence
    follows: it has no fence inside. *)
Lemma block_body_has_no_fence (s rest : jsstring) (caps caps' : captures) :
  rmatch (Cat (Capture 2 (Star false any)) (lit fence)) s caps
    (fun rest caps => Some (caps, rest))
  = Some (caps', rest) ->
  exists body,
    s = body ++ fence ++ rest /\ caps' = (2%nat, body) :: caps
    /\ includes body fence = false.
Proof.
  rewrite rmatch_cat, rmatch_capture_lazy. intros H.
  apply star_lazy_sound in H as (body & tail & -> & _ & Hk & Hmin).
  rewrite rmatch_lit in Hk.
  destruct (startsWith tail fence) eqn:Ef; [|discriminate].
  apply startsWith_spec in Ef as (r & ->).
  rewrite drop_app_length in Hk.
  rewrite length_app in Hk.
  replace (length body + length (fence ++ r) - length (fence ++ r))%nat
    with (length body) in Hk by lia.
  rewrite take_app_length in Hk. injection Hk as <- <-.
  exists body. repeat split.
  apply not_true_is_false. intros Hinc.
  apply includes_spec in Hinc as (a & b & Hbody).
  specialize (Hmin a (fence ++ b) Hbody ltac:(discriminate)).
  rewrite rmatch_lit in Hmin.
  assert (Hs : startsWith ((fence ++ b) ++ fence ++ r) fence = true).
  { apply startsWith_spec. exists (b ++ fence ++ r).
    now rewrite <- app_assoc. }
  rewrite Hs in Hmin. discriminate.
Qed.

Lemma code_block_match (s rest : jsstring) (caps : captures) :
  match_here codeBlockRegex s = Some (caps, rest) ->
  exists body,
    occurs_in body s /\ group 2 caps = Some body
    /\ includes body fence = false.
Proof.
  unfold match_here, codeBlockRegex. intros H.
  rewrite rmatch_cat in H.
  apply rmatch_sound in H as (p1 & s1 & c1 & -> & _ & H).
  rewrite rmatch_cat in H.
  apply rmatch_sound in H as (p2 & s2 & c2 & -> & _ & H).
  rewrite rmatch_cat in H.
  apply rmatch_sound in H as (p3 & s3 & c3 & -> & _ & H).
  rewrite rmatch_cat in H.
  apply rmatch_sound in H as (p4 & s4 & c4 & -> & _ & H).
  rewrite rmatch_cat in H.
  apply rmatch_sound in H as (p5 & s5 & c5 & -> & _ & H).
  apply block_body_has_no_fence in H as (body & -> & -> & Hno).
  exists body. split; [|split; [reflexivity | exact Hno]].
  exists (p1 ++ p2 ++ p3 ++ p4 ++ p5), (fence ++ rest).
  now rewrite <- !app_assoc.
Qed.

Lemma exec_all_sound (r : regex) (s : jsstring) :
  forall (skip : nat) (caps : captures),
    In caps (exec_all r skip s) ->
    exists before s1 rest,
      s = before ++ s1 /\ match_here r s1 = Some (caps, rest).
Proof.
  induction s as [|c s IH]; intros skip caps; simpl; [tauto|].
  assert (Hnext : forall n, In caps (exec_all r n s) ->
             exists before s1 rest,
               c :: s = before ++ s1 /\ match_here r s1 = Some (caps, rest)).
  { intros n Hin. destruct (IH n caps Hin) as (before & s1 & rest & -> & Hm).
    now exists (c :: before), s1, rest. }
  destruct skip as [|n]; [|apply Hnext].
  destruct (match_here r (c :: s)) as [[caps0 rest]|] eqn:E; [|apply Hnext].
  intros [<-|Hin]; [|now apply Hnext in Hin].
  now exists [], (c :: s), rest.
Qed.

Lemma stored_content_from_block (bs : list block) :
  forall (files : gmap jsstring jsstring) (f c : jsstring),
    fold_left store_block bs files !! f = Some c ->
    files !! f = Some c \/ exists b, In b bs /\ c = trim (source b).
Proof.
  induction bs as [|b bs IH]; intros files f c; simpl; [now left|].
  intros H. destruct (IH _ _ _ H) as [Hf | (b' & Hin & Hc)].
  - unfold store_block in Hf. rewrite assign_text_lookup in Hf.
    destruct (bool_decide (filename_of files b = f) && negb _).
    + injection Hf as <-. right. exists b. auto.
    + now left.
  - right. exists b'. auto.
Qed.

(** X2: every file content returned by [extractCodeBlocks] is a piece of
    the generated text and contains no code fence. *)
Theorem X2_extracted_content_has_no_fence :
  forall (generatedCode f c : jsstring),
    extractCodeBlocks generatedCode !! f = Some c ->
    occurs_in c generatedCode /\ includes c fence = false.
Proof.
  intros text f c H. unfold extractCodeBlocks in H.
  apply stored_content_from_block in H as [H | (b & Hin & ->)].
  { rewrite lookup_empty in H. discriminate. }
  unfold blocks in Hin. apply in_map_iff in Hin as (caps & <- & Hin).
  apply exec_all_sound in Hin as (before & s1 & rest & -> & Hm).
  apply code_block_match in Hm as (body & Hocc & Hg & Hno).
  unfold block_of. simpl. rewrite Hg. simpl. split.
  - destruct (trim_infix body) as (a & b & Hb).
    destruct Hocc as (x & y & ->).
    exists (before ++ x ++ a), (b ++ y).
    rewrite Hb at 1. now rewrite <- !app_assoc.
  - destruct (includes (trim body) fence) eqn:E; [|reflexivity].
    apply includes_trim in E. congruence.
Qed.

Lemma X2_extracted_content_has_no_fence_witness :
  extractCodeBlocks colliding_blocks !! js "file_1.js" = Some (js "third")
  /\ includes (js "third") fence = false.
Proof.
  split; [vm_compute; reflexivity|].
  refine (proj2 (X2_extracted_content_has_no_fence colliding_blocks
                   (js "file_1.js") (js "third") _)).
  vm_compute. reflexivity.
Defined.

(** ** More on the monitor *)

Ltac break_settle :=
  unfold settle;
  repeat match goal with
         | |- context [saveShopifyAppMetadata ?a ?b ?c ?d ?e ?f ?g ?h] =>
             destruct (saveShopifyAppMetadata a b c d e f g h) as [[?|] ?]
         | |- context [if ?b then _ else _] => destruct b eqn:?
         end.

Lemma generic_url_on_domain : on_partner_domain generic_url.
Proof. split; reflexivity. Qed.

Lemma join_occurs (sep x : jsstring) (l : list jsstring) :
  In x l -> occurs_in x (join sep l).
Proof.
  induction l as [|y l IH]; [intros []|].
  intros [->|Hin].
  - destruct l as [|z l]; simpl.
    + exists [], []. now rewrite app_nil_r.
    + exists [], (sep ++ join sep (z :: l)). reflexivity.
  - destruct (IH Hin) as (a & b & Hj).
    destruct l as [|z l]; [destruct Hin|].
    change (join sep (y :: z :: l)) with (y ++ sep ++ join sep (z :: l)).
    rewrite Hj. exists (y ++ sep ++ a), b. now rewrite <- !app_assoc.
Qed.

Lemma toLowerCase_app (a b : jsstring) :
  toLowerCase (a ++ b) = toLowerCase a ++ toLowerCase b.
Proof. apply map_app. Qed.

(** A buffer that holds the line "Initializing Shopify CLI..." is
    classified as [creating]. *)
Lemma determineStage_of_buffer (buffer : list jsstring) :
  In initializing_line buffer ->
  determineStage (join (js " ") buffer) = creating.
Proof.
  intros Hin. apply (join_occurs (js " ")) in Hin as (a & b & Hj).
  assert (H : includes (toLowerCase (join (js " ") buffer))
                (js "initializing") = true).
  { apply includes_spec. rewrite Hj, !toLowerCase_app.
    apply occurs_in_app. apply includes_spec. vm_compute. reflexivity. }
  unfold determineStage. rewrite H, !orb_true_r. reflexivity.
Qed.

Section MonitoredJobTimers.

Variables jobId userId appName : jsstring.

Lemma read_log_domain (m : monitor) (log : jsstring) :
  url_on_domain m -> url_on_domain (snd (read_log m log)).
Proof.
  unfold read_log. intros Hm.
  destruct (truthy log && truthy (trim log)); [|exact Hm].
  destruct (negb (truthy_opt (authUrl m))); [|exact Hm].
  destruct (truthy_opt (extractAuthUrl log)) eqn:E; [|exact Hm].
  intros u Hu. simpl in Hu.
  now apply extractAuthUrl_match in Hu as (_ & _ & _ & _ & Hd & _).
Qed.

Lemma probe_domain (r : bool) (o : observation) (m : monitor) :
  url_on_domain m -> url_on_domain (probe r o m).
Proof.
  unfold probe. intros Hm.
  repeat match goal with
         | |- context [match ?x with _ => _ end] => destruct x eqn:?
         end; try exact Hm.
  - intros u Hu. simpl in Hu.
    now apply extractAuthUrl_match in Hu as (_ & _ & _ & _ & Hd & _).
  - intros u Hu. simpl in Hu. injection Hu as <-.
    apply generic_url_on_domain.
Qed.

Lemma settle_domain (r : bool) (nl : list jsstring) (o : observation)
    (w : world) (m0 : monitor) :
  url_on_domain m0 ->
  url_on_domain (vars (settle jobId userId appName r nl o w m0)).
Proof.
  intros Hm. break_settle; simpl; try exact Hm.
  all: intros u Hu; simpl in Hu.
  all: try (injection Hu as <-; apply generic_url_on_domain).
  all: now apply Hm.
Qed.

Lemma settle_domain_update (r : bool) (nl : list jsstring) (o : observation)
    (w : world) (m0 : monitor) :
  url_on_domain m0 ->
  exists upd,
    updates (settle jobId userId appName r nl o w m0)
    = updates w ++ [(jobId, upd)]
    /\ domain_update (jobId, upd).
Proof.
  intros Hm.
  pose proof (settle_domain r nl o w m0 Hm) as Hd.
  destruct (settle_is_update jobId userId appName r nl o w m0)
    as (upd & w0 & Hs & _ & Hlog & Hupd).
  exists upd. rewrite Hs in *. simpl in *. rewrite Hlog.
  split; [reflexivity|]. intros v Hv. simpl in Hv.
  destruct Hupd as [Hnone | (u & Hu & _ & Hfield)]; [congruence|].
  exists u. split; [congruence | now apply Hd].
Qed.

Lemma failure_domain_update (j msg : jsstring) :
  domain_update (j, failure msg).
Proof. intros v Hv. simpl in Hv. unfold failure in Hv. simplify_map_eq. Qed.

Lemma step_domain (w : world) (e : event) :
  url_on_domain (vars w) /\ Forall domain_update (updates w) ->
  url_on_domain (vars (step jobId userId appName w e))
  /\ Forall domain_update (updates (step jobId userId appName w e)).
Proof.
  intros [Hm Hu]. destruct e as [o|t ok|j t ok]; simpl.
  - destruct (polling w); [|now split]. unfold tick.
    destruct (_ || _); [now split|].
    destruct (processCheck o) as [[ps pserr]|]; [|now split].
    set (r := truthy ps && includes ps (js "shopify")).
    destruct (logRead o) as [[log err]|].
    + pose proof (read_log_domain (vars w) log Hm) as Hr.
      destruct (read_log (vars w) log) as [nl m]. simpl in Hr.
      pose proof (probe_domain r o m Hr) as Hp.
      split; [now apply settle_domain|].
      destruct (settle_domain_update r nl o w _ Hp) as (upd & -> & Hd).
      apply List.Forall_app. split; [exact Hu | now constructor].
    + split; [now apply settle_domain|].
      destruct (settle_domain_update r [] o w _ Hm) as (upd & -> & Hd).
      apply List.Forall_app. split; [exact Hu | now constructor].
  - unfold ceiling. destruct (_ && _); simpl; [|now split].
    split; [exact Hm|]. apply List.Forall_app. split; [exact Hu|].
    constructor; [apply failure_domain_update | constructor].
  - unfold abandon. destruct (bool_decide _); simpl; [|now split].
    split; [exact Hm|]. apply List.Forall_app. split; [exact Hu|].
    constructor; [apply failure_domain_update | constructor].
Qed.

(** X3: every authentication URL the monitor of a job ever holds, and
    every [authUrl] it ever writes to the job record, is a URL of the
    partner portal without white space: an extracted one or the generic
    one. *)
Theorem X3_monitor_urls_on_partner_domain :
  forall (st : store) (others : gset jsstring) (es : list event),
    let w := run jobId userId appName (started jobId appName st others) es in
    (forall u, authUrl (vars w) = Some u -> on_partner_domain u)
    /\ forall j upd v,
         In (j, upd) (updates w) ->
         upd !! "authUrl"%string = Some v ->
         exists u, v = VStr u /\ on_partner_domain u.
Proof.
  intros st others es.
  assert (H : forall es w,
             url_on_domain (vars w) /\ Forall domain_update (updates w) ->
             url_on_domain (vars (run jobId userId appName w es))
             /\ Forall domain_update
                  (updates (run jobId userId appName w es))).
  { clear es. induction es as [|e es IH]; intros w Hw; unfold run in *;
      simpl; [exact Hw|]. apply IH. now apply step_domain. }
  destruct (H es (started jobId appName st others)) as [Hm Hu].
  { split; [intros u Hu; discriminate | constructor]. }
  intros w. split; [exact Hm|].
  intros j upd v Hin Hv. rewrite List.Forall_forall in Hu.
  exact (Hu (j, upd) Hin v Hv).
Qed.

(** The classifier and the stages written. *)
Lemma settle_stage (r : bool) (nl : list jsstring) (o : observation)
    (w : world) (m0 : monitor) :
  In initializing_line (outputBuffer m0) ->
  exists upd,
    updates (settle jobId userId appName r nl o w m0)
    = updates w ++ [(jobId, upd)]
    /\ timer_stage_update (jobId, upd).
Proof.
  intros Hin.
  assert (Hds : determineStage (join (js " ") (outputBuffer (push m0 nl)))
                = creating).
  { apply determineStage_of_buffer. simpl. apply in_or_app. now left. }
  unfold settle. rewrite Hds. break_settle; simpl.
  all: eexists; split; [reflexivity|].
  all: intros v Hv; simpl in Hv; unfold timer_stage; simplify_map_eq; auto.
Qed.

Lemma failure_stage_update (j msg : jsstring) :
  timer_stage_update (j, failure msg).
Proof.
  intros v Hv. simpl in Hv. unfold failure, timer_stage in *.
  simplify_map_eq. auto.
Qed.

Lemma step_stage (w : world) (e : event) :
  In initializing_line (outputBuffer (vars w)) ->
  Forall timer_stage_update (updates w) ->
  Forall timer_stage_update (updates (step jobId userId appName w e)).
Proof.
  intros Hin Hu. destruct e as [o|t ok|j t ok]; simpl.
  - destruct (polling w); [|exact Hu]. unfold tick.
    destruct (_ || _); [exact Hu|].
    destruct (processCheck o) as [[ps pserr]|]; [|exact Hu].
    set (r := truthy ps && includes ps (js "shopify")).
    destruct (logRead o) as [[log err]|].
    + destruct (read_log_shape (vars w) log) as (_ & _ & _ & Hbuf & _).
      destruct (read_log (vars w) log) as [nl m]. simpl in Hbuf.
      destruct (settle_stage r nl o w (probe r o m)) as (upd & -> & Hs).
      { now rewrite probe_buffer, Hbuf. }
      apply List.Forall_app. split; [exact Hu | now constructor].
    + destruct (settle_stage r [] o w (vars w) Hin) as (upd & -> & Hs).
      apply List.Forall_app. split; [exact Hu | now constructor].
  - unfold ceiling. destruct (_ && _); simpl; [|exact Hu].
    apply List.Forall_app. split; [exact Hu|].
    constructor; [apply failure_stage_update | constructor].
  - unfold abandon. destruct (bool_decide _); simpl; [|exact Hu].
    apply List.Forall_app. split; [exact Hu|].
    constructor; [apply failure_stage_update | constructor].
Qed.

(** X4: the buffer of a monitor always holds its second starting line,
    "Initializing Shopify CLI...", so [determineStage] classifies it as
    [creating] at every point of every run; the stages the timers write
    are therefore only [creating], [waiting_auth], [completed] and
    [error], never [authenticating] or [finalizing]. *)
Theorem X4_classifier_always_creating :
  forall (st : store) (others : gset jsstring) (es : list event),
    let w := run jobId userId appName (started jobId appName st others) es in
    determineStage (join (js " ") (outputBuffer (vars w))) = creating
    /\ forall j upd v,
         In (j, upd) (updates w) ->
         upd !! "stage"%string = Some v -> timer_stage v.
Proof.
  intros st others es.
  assert (Hbuf : forall es,
             In initializing_line
               (outputBuffer
                  (vars (run jobId userId appName
                           (started jobId appName st others) es)))).
  { intros es0.
    destruct (run_buffer_prefix jobId userId appName es0
                (started jobId appName st others)) as (added & ->).
    apply in_or_app. left. simpl. right. left. reflexivity. }
  intros w. split; [apply determineStage_of_buffer, Hbuf|].
  assert (H : Forall timer_stage_update (updates w)).
  { subst w. induction es as [|e es IH] using rev_ind.
    - constructor.
    - unfold run in *. rewrite fold_left_app. simpl.
      apply step_stage; [apply Hbuf | exact IH]. }
  intros j upd v Hin Hv. rewrite List.Forall_forall in H.
  exact (H (j, upd) Hin v Hv).
Qed.

(** The sweep. *)
Lemma step_inactive (w : world) (e : event) :
  jobId ∉ activeJobs w ->
  (jobId ∉ activeJobs (step jobId userId appName w e))
  /\ calls_for jobId (step jobId userId appName w e) = calls_for jobId w
  /\ record_of jobId (step jobId userId appName w e) = record_of jobId w.
Proof.
  intros Ha. destruct e as [o|t ok|j t ok]; simpl.
  - destruct (polling w); [|auto]. unfold tick.
    rewrite (bool_decide_eq_false_2 _ Ha). simpl. auto.
  - unfold ceiling. simpl. rewrite (bool_decide_eq_false_2 _ Ha). simpl. auto.
  - unfold abandon. case_bool_decide as Hj; [|auto].
    assert (Hne : j <> jobId) by (intros ->; contradiction).
    unfold calls_for, record_of. simpl.
    rewrite calls_for_snoc_other by exact Hne.
    rewrite update_other_job by exact Hne.
    repeat split. intros Hin.
    apply elem_of_difference in Hin as [Hin _]. contradiction.
Qed.

Lemma run_inactive (es : list event) :
  forall w,
    jobId ∉ activeJobs w ->
    (jobId ∉ activeJobs (run jobId userId appName w es))
    /\ calls_for jobId (run jobId userId appName w es) = calls_for jobId w
    /\ record_of jobId (run jobId userId appName w es) = record_of jobId w.
Proof.
  induction es as [|e es IH]; intros w Ha; unfold run in *; simpl; [auto|].
  destruct (step_inactive w e Ha) as (Ha1 & Hc1 & Hr1).
  destruct (IH _ Ha1) as (Ha2 & Hc2 & Hr2).
  rewrite Hc2, Hc1, Hr2, Hr1. auto.
Qed.

(** X5: the sweep of abandoned jobs fails every job it finds in the
    active table, whether or not the monitor flagged it complete: it
    issues [status=failed, stage=error] with "Job abandoned due to
    timeout", a record held in memory takes it, and no timer updates the
    job afterwards, even though the poll interval is still set. *)
Theorem X5_sweep_fails_active_job :
  forall (w : world) (t : jsstring) (ok : bool),
    jobId ∈ activeJobs w ->
    let w' := abandon jobId t ok w in
    updates w' = updates w ++ [(jobId, failure abandoned_message)]
    /\ polling w' = polling w
    /\ (forall j, record_of jobId w = Some j ->
          exists j', record_of jobId w' = Some j'
                     /\ failed_record j' abandoned_message)
    /\ forall es,
         calls_for jobId (run jobId userId appName w' es)
         = calls_for jobId w'
         /\ record_of jobId (run jobId userId appName w' es)
            = record_of jobId w'.
Proof.
  intros w t ok Hact w'. subst w'. unfold abandon.
  rewrite (bool_decide_eq_true_2 _ Hact). simpl.
  split; [reflexivity|]. split; [reflexivity|]. split.
  - intros j Hj. unfold record_of in *. simpl.
    rewrite (update_of_memory_job _ _ _ _ _ _ Hj). simpl.
    rewrite lookup_insert_eq. eexists. split; [reflexivity|].
    unfold failed_record. rewrite !merge_lookup. simpl.
    repeat split; reflexivity.
  - intros es.
    match goal with
    | |- context [run _ _ _ ?x es] =>
        destruct (run_inactive es x) as (_ & Hc & Hr)
    end.
    { simpl. intros Hin. apply elem_of_difference in Hin as [_ Hin].
      apply Hin. now apply elem_of_singleton. }
    split; assumption.
Qed.







(** X7: when the probe finds the package manifest and the app entry and
    the metadata write goes through, or no document store is configured,
    the tick issues one update with [stage=completed], [status=completed]
    and the application data, a record held in memory takes both, polling
    stops, the job leaves the active table, and no timer updates the job
    afterwards. *)
Theorem X7_markers_complete_the_job :
  forall (o : observation) (w : world),
    tick_runs jobId w -> markers_observed o ->
    db (jobs w) = None \/ meta_ok o = true ->
    let w' := tick jobId userId appName o w in
    (exists upd,
       updates w' = updates w ++ [(jobId, upd)]
       /\ upd !! "stage"%string = Some (stage_value completed)
       /\ upd !! "status"%string = Some (VStr (js "completed"))
       /\ is_Some (upd !! "appData"%string))
    /\ (forall j, record_of jobId w = Some j ->
          exists j', record_of jobId w' = Some j'
                     /\ j' !! "stage"%string = Some (stage_value completed)
                     /\ j' !! "status"%string = Some (VStr (js "completed")))
    /\ polling w' = false
    /\ (jobId ∉ activeJobs w')
    /\ forall es,
         calls_for jobId (run jobId userId appName w' es) = calls_for jobId w'.
Proof.
  intros o w Hrun Hobs Hsave w'. subst w'.
  destruct (tick_with_markers jobId userId appName o w Hrun Hobs)
    as (r & nl & m & Hc & ->).
  unfold settle. simpl. rewrite Hc.
  match goal with
  | |- context [saveShopifyAppMetadata ?a ?b ?c ?d ?e ?f ?g ?h] =>
      pose proof (save_keeps_memory a b c d e f g h) as Hmem;
      assert (Hret : exists d0 st,
                 saveShopifyAppMetadata a b c d e f g h = (Return d0, st))
  end.
  { unfold saveShopifyAppMetadata. destruct Hsave as [Hdb | Hok].
    - rewrite Hdb. eauto.
    - rewrite Hok. destruct (db (jobs w)); eauto. }
  destruct Hret as (d & st & Hsaved). rewrite Hsaved in *. simpl in Hmem.
  assert (Hgone : jobId ∉ (activeJobs w ∖ {[jobId]})).
  { intros Hin. apply elem_of_difference in Hin as [_ Hin]. apply Hin.
    now apply elem_of_singleton. }
  split; [|split; [|split; [reflexivity | split; [exact Hgone|]]]].
  - eexists. split; [reflexivity|]. repeat split. simpl. eauto.
  - intros j Hj. unfold record_of in *. simpl.
    rewrite <- Hmem in Hj.
    rewrite (update_of_memory_job _ _ _ _ _ _ Hj). simpl.
    rewrite lookup_insert_eq. eexists. split; [reflexivity|].
    rewrite !merge_lookup. simpl. split; reflexivity.
  - intros es.
    match goal with
    | |- context [run _ _ _ ?x es] =>
        destruct (run_inactive es x) as (_ & Hcalls & _)
    end; [exact Hgone | exact Hcalls].
Qed.

End MonitoredJobTimers.

Lemma X3_monitor_urls_on_partner_domain_witness :
  let w :=
    run (js "job_1") (js "u") (js "shop")
      (started (js "job_1") (js "shop") memory_store ∅)
      [Tick login_needed] in
  authUrl (vars w) = Some generic_url /\ on_partner_domain generic_url.
Proof.
  split; [vm_compute; reflexivity|].
  refine (proj1
    (X3_monitor_urls_on_partner_domain (js "job_1") (js "u") (js "shop")
       memory_store ∅ [Tick login_needed]) generic_url _).
  vm_compute. reflexivity.
Defined.

Lemma X4_classifier_always_creating_witness :
  let w :=
    run (js "job_1") (js "u") (js "shop")
      (started (js "job_1") (js "shop") memory_store ∅)
      [Tick prompt_seen] in
  exists upd,
    updates w = [(js "job_1", upd)]
    /\ upd !! "stage"%string = Some (stage_value waiting_auth)
    /\ timer_stage (stage_value waiting_auth).
Proof.
  eexists. split; [vm_compute; reflexivity|].
  split; [vm_compute; reflexivity|].
  refine (proj2
    (X4_classifier_always_creating (js "job_1") (js "u") (js "shop")
       memory_store ∅ [Tick prompt_seen]) (js "job_1") _ _ _ _).
  - vm_compute. left. reflexivity.
  - vm_compute. reflexivity.
Defined.

Lemma X5_sweep_fails_active_job_witness :
  let w :=
    run (js "job_1") (js "u") (js "shop")
      (started (js "job_1") (js "shop") memory_store ∅)
      [Tick stalled_with_success; Ceiling (js "t2") true] in
  let w' := abandon (js "job_1") (js "t3") true w in
  isProcessComplete (vars w) = true
  /\ status_of (js "job_1") w = VStr (js "running")
  /\ status_of (js "job_1") w' = VStr (js "failed")
  /\ updates w' = updates w ++ [(js "job_1", failure abandoned_message)].
Proof.
  split; [vm_compute; reflexivity|].
  split; [vm_compute; reflexivity|].
  split; [vm_compute; reflexivity|].
  refine (proj1
    (X5_sweep_fails_active_job (js "job_1") (js "u") (js "shop")
       (run (js "job_1") (js "u") (js "shop")
          (started (js "job_1") (js "shop") memory_store ∅)
          [Tick stalled_with_success; Ceiling (js "t2") true])
       (js "t3") true _)).
  apply (bool_decide_unpack _). vm_compute. exact I.
Defined.


Lemma X7_markers_complete_the_job_witness :
  let w := started (js "job_1") (js "shop") memory_store ∅ in
  let w' := tick (js "job_1") (js "u") (js "shop") (markers_found true) w in
  status_of (js "job_1") w' = VStr (js "completed")
  /\ polling w' = false.
Proof.
  split; [vm_compute; reflexivity|].
  refine (proj1 (proj2 (proj2
    (X7_markers_complete_the_job (js "job_1") (js "u") (js "shop")
       (markers_found true)
       (started (js "job_1") (js "shop") memory_store ∅) _ _ _)))).
  - split; [|reflexivity].
    apply elem_of_union_l, elem_of_singleton. reflexivity.
  - repeat split; try reflexivity.
    + exists (js "total 16"), []. repeat split; vm_compute; reflexivity.
    + eexists _, []. repeat split; vm_compute; reflexivity.
  - left. reflexivity.
Defined.

(** ** The acknowledgement endpoint *)

Lemma owner_field (j : job) (userId : jsstring) :
  is_string (field j "userId") userId = true
  <-> j !! "userId"%string = Some (VStr userId).
Proof.
  rewrite is_string_true. unfold field.
  destruct (j !! "userId"%string); simpl; split; intros; congruence.
Qed.

Lemma truthy_opt_some (o : option jsstring) :
  truthy_opt o = true <-> exists s, o = Some s /\ s <> [].
Proof.
  destruct o as [s|]; simpl.
  - rewrite truthy_nonempty. split; [eauto|]. now intros (? & [= <-] & ?).
  - split; [discriminate|]. now intros (? & ? & _).
Qed.

(** The request goes through exactly when the job is visible and owned,
    and then the store is the one left by the update. *)
Lemma setup_accepts (jobId : option jsstring) (userId : jsstring)
    (get_ok : bool) (t : jsstring) (upd_ok : bool) (st : store) :
  let r := complete_app_setup jobId userId get_ok t upd_ok st in
  (exists id j,
     jobId = Some id /\ id <> []
     /\ getAppCreationJob id get_ok st = Return (Some j)
     /\ j !! "userId"%string = Some (VStr userId)
     /\ code (fst r) = 200
     /\ snd r = snd (updateAppCreationJob id acknowledged t upd_ok st))
  \/ (code (fst r) <> 200 /\ snd r = st
      /\ ~ exists id j,
           jobId = Some id /\ id <> []
           /\ getAppCreationJob id get_ok st = Return (Some j)
           /\ j !! "userId"%string = Some (VStr userId)).
Proof.
  unfold complete_app_setup.
  destruct (truthy_opt jobId) eqn:Eid; simpl.
  - apply truthy_opt_some in Eid as (id & -> & Hne). simpl.
    destruct (getAppCreationJob id get_ok st) as [[j|]|] eqn:Eget.
    + destruct (is_string (field j "userId") userId) eqn:Eown.
      * left. apply owner_field in Eown.
        pose proof (update_never_throws id acknowledged t upd_ok st) as Hu.
        destruct (updateAppCreationJob id acknowledged t upd_ok st)
          as [[[]|] st'] eqn:Eu; simpl in *; [|discriminate].
        exists id, j. rewrite Eu. repeat split; auto.
      * right. simpl. repeat split; [discriminate|].
        intros (id' & j' & [= <-] & _ & Hg & Ho).
        rewrite Eget in Hg. injection Hg as <-.
        apply owner_field in Ho. congruence.
    + right. simpl. repeat split; [discriminate|].
      intros (id' & j' & [= <-] & _ & Hg & _). congruence.
    + right. simpl. repeat split; [discriminate|].
      intros (id' & j' & [= <-] & _ & Hg & _). congruence.
  - right. simpl. repeat split; [discriminate|].
    intros (id & j & -> & Hne & _). simpl in Eid.
    apply truthy_nonempty in Hne. congruence.
Qed.

(** X8: [POST /api/complete-app-setup] answers 200 exactly when the body
    names a job that is visible and whose [userId] is the caller's; any
    other answer leaves the job store as it was, and no answer changes
    the in-memory record of a job other than the one named. *)
Theorem X8_setup_only_for_owner :
  forall (jobId : option jsstring) (userId t : jsstring)
         (get_ok upd_ok : bool) (st : store),
    let r := complete_app_setup jobId userId get_ok t upd_ok st in
    (code (fst r) = 200
     <-> exists id j,
           jobId = Some id /\ id <> []
           /\ getAppCreationJob id get_ok st = Return (Some j)
           /\ j !! "userId"%string = Some (VStr userId))
    /\ (code (fst r) <> 200 -> snd r = st)
    /\ forall k, jobId <> Some k ->
         inMemoryJobs (snd r) !! k = inMemoryJobs st !! k.
Proof.
  intros jobId userId t get_ok upd_ok st r.
  destruct (setup_accepts jobId userId get_ok t upd_ok st)
    as [(id & j & -> & Hne & Hg & Ho & Hc & Hs) | (Hc & Hs & Hno)];
    fold r in Hc, Hs.
  - split; [|split].
    + split; [intros _; eauto 10 | intros _; exact Hc].
    + intros H. contradiction.
    + intros k Hk. rewrite Hs. apply update_other_job. congruence.
  - split; [|split].
    + split; [intros H; contradiction | intros H; contradiction].
    + intros _. exact Hs.
    + intros k _. now rewrite Hs.
Qed.

(** ** Creating, updating and reading a job in either backend *)

Lemma trim_truthy (s : jsstring) : truthy (trim s) = true -> truthy s = true.
Proof. destruct s; [intros H; vm_compute in H; discriminate | reflexivity]. Qed.

Lemma normalize_lookup (doc : job) (k : string) :
  normalize doc !! k
  = if bool_decide (k = "updatedAt"%string \/ k = "createdAt"%string)
    then normalize_time <$> doc !! k
    else doc !! k.
Proof.
  unfold normalize. case_bool_decide as Hk.
  - destruct Hk as [-> | ->].
    + rewrite lookup_alter_eq, lookup_alter_ne by discriminate. reflexivity.
    + rewrite lookup_alter_ne by discriminate. now rewrite lookup_alter_eq.
  - rewrite !lookup_alter_ne by (intros <-; apply Hk; auto). reflexivity.
Qed.

(** What [get] returns right after [create], in either backend: an object
    with the properties of the new job, the two times as strings. *)
Lemma create_then_get (userId appName jobId t : jsstring) (ok get_ok : bool)
    (st : store) :
  inMemoryJobs st !! jobId = None ->
  db st = None \/ ok = false \/ get_ok = true ->
  exists j,
    getAppCreationJob jobId get_ok
      (snd (createAppCreationJob userId appName jobId t ok st))
    = Return (Some j)
    /\ forall k, j !! k = newJob jobId userId appName t !! k.
Proof.
  intros Hfresh Hback. unfold createAppCreationJob, getAppCreationJob.
  destruct (db st) as [fs|] eqn:Edb; [destruct ok|]; simpl.
  - assert (get_ok = true) as -> by (destruct Hback as [|[|]]; congruence).
    rewrite Hfresh, lookup_insert_eq. eexists. split; [reflexivity|].
    intros k. rewrite normalize_lookup. case_bool_decide as Hk.
    + destruct Hk as [-> | ->]; reflexivity.
    + rewrite !lookup_insert_ne by (intros <-; apply Hk; auto). reflexivity.
  - rewrite lookup_insert_eq. eauto.
  - rewrite lookup_insert_eq. eauto.
Qed.

Lemma post_create_response (userId appName jobId t t1 : jsstring)
    (ok : bool) (st : store) :
  fst (post_create_shopify_app userId appName jobId t t1 ok st)
  = fst (create_shopify_app userId appName jobId t ok st).
Proof.
  unfold post_create_shopify_app, create_shopify_app.
  destruct (negb (truthy appName) || negb (truthy (trim appName)));
    [reflexivity|].
  destruct (negb (test_whole validPattern (trim appName))); [reflexivity|].
  now destruct (createAppCreationJob userId (trim appName) jobId t ok st)
    as [[id|] st'].
Qed.

(** The store the creation handler leaves: the one [createAppCreationJob]
    made, with the first update of the background process when the job
    is held in memory. *)
Lemma post_create_store (userId appName jobId t t1 : jsstring)
    (ok : bool) (st : store) :
  name_accepted appName ->
  snd (post_create_shopify_app userId appName jobId t t1 ok st)
  = start_call jobId t1
      (snd (createAppCreationJob userId (trim appName) jobId t ok st)).
Proof.
  intros [Ht Hv]. unfold post_create_shopify_app.
  rewrite (trim_truthy _ Ht), Ht, Hv. cbn [negb orb].
  pose proof (create_stores_job userId (trim appName) jobId t ok st)
    as [Hr _].
  destruct (createAppCreationJob userId (trim appName) jobId t ok st)
    as [[id|] st']; cbn [fst snd] in *; [|discriminate].
  now injection Hr as ->.
Qed.

Lemma first_update_fields (k : string) (v : value) :
  first_update !! k = Some v ->
  forall jobId userId appName t,
    newJob jobId userId appName t !! k = Some v.
Proof.
  intros Ev jobId userId appName t.
  apply elem_of_list_to_map_2 in Ev.
  repeat (apply elem_of_cons in Ev as [[= -> ->] | Ev]; [reflexivity|]).
  now apply elem_of_nil in Ev.
Qed.

(** The call of the background process leaves a new job a new job. *)
Lemma start_call_keeps_job (jobId userId appName t : jsstring) (st : store) :
  job_created st jobId userId appName ->
  job_created (start_call jobId t st) jobId userId appName.
Proof.
  intros (j & Hwhere & Hu & Hn & Hs & Hg). unfold start_call.
  destruct Hwhere as [Hj | (fs & Hdb & Hdoc)].
  - rewrite Hj. exists (merge j first_update (VStr t)).
    split; [left; apply lookup_insert_eq|].
    rewrite !merge_lookup. repeat split; assumption || reflexivity.
  - exists j. split; [|now repeat split].
    right. exists fs. split; [|exact Hdoc].
    now destruct (inMemoryJobs st !! jobId).
Qed.

(** The response of the whole handler is the one of
    [create_shopify_app]; a rejected request leaves the store as it was,
    and an accepted one leaves the new job in it. *)
Lemma post_create_agrees (userId appName jobId t t1 : jsstring) (ok : bool)
    (st : store) :
  fst (post_create_shopify_app userId appName jobId t t1 ok st)
  = fst (create_shopify_app userId appName jobId t ok st)
  /\ (code (fst (create_shopify_app userId appName jobId t ok st)) = 400 ->
      snd (post_create_shopify_app userId appName jobId t t1 ok st) = st)
  /\ (name_accepted appName ->
      job_created
        (snd (post_create_shopify_app userId appName jobId t t1 ok st))
        jobId userId (trim appName)).
Proof.
  split; [apply post_create_response|]. split.
  - unfold post_create_shopify_app, create_shopify_app.
    destruct (negb (truthy appName) || negb (truthy (trim appName)));
      [reflexivity|].
    destruct (negb (test_whole validPattern (trim appName))); [reflexivity|].
    destruct (createAppCreationJob userId (trim appName) jobId t ok st)
      as [[id|] st']; discriminate.
  - intros Hname. rewrite post_create_store by exact Hname.
    apply start_call_keeps_job, create_stores_job.
Qed.

(** For a job held in memory the first update is over when the handler
    responds. *)
Lemma first_update_of_memory_job (jobId t : jsstring) (ok : bool)
    (st : store) :
  is_Some (inMemoryJobs st !! jobId) ->
  first_update_done jobId t ok st = start_call jobId t st.
Proof.
  intros [j Hj]. unfold first_update_done, start_call.
  now rewrite (update_of_memory_job _ _ _ _ _ _ Hj), Hj.
Qed.

(** What [get] returns for a new job until the sandbox service answers:
    when the handler responds, and once the first update is over. *)
Lemma new_job_then_get (userId appName jobId t t1 : jsstring)
    (ok ok1 get_ok : bool) (st : store) :
  inMemoryJobs st !! jobId = None ->
  db st = None \/ ok = false \/ get_ok = true ->
  let created := snd (createAppCreationJob userId appName jobId t ok st) in
  let in_memory := match db st with Some _ => negb ok | None => true end in
  (exists j,
     getAppCreationJob jobId get_ok (start_call jobId t1 created)
     = Return (Some j)
     /\ j !! "updatedAt"%string = Some (VStr (if in_memory then t1 else t))
     /\ forall k, k <> "updatedAt"%string ->
                  j !! k = newJob jobId userId appName t !! k)
  /\ (exists j,
        getAppCreationJob jobId get_ok (first_update_done jobId t1 ok1 created)
        = Return (Some j)
        /\ j !! "updatedAt"%string
           = Some (VStr (if in_memory || ok1 then t1 else t))
        /\ forall k, k <> "updatedAt"%string ->
                     j !! k = newJob jobId userId appName t !! k)
  /\ (in_memory = true ->
      first_update_done jobId t1 ok1 created = start_call jobId t1 created).
Proof.
  intros Hfresh Hback created in_memory.
  destruct (create_then_get userId appName jobId t ok get_ok st
              Hfresh Hback) as (j & Hget & Hj).
  fold created in Hget.
  assert (Hmerged : forall k, k <> "updatedAt"%string ->
            merge (newJob jobId userId appName t) first_update (VStr t1) !! k
            = newJob jobId userId appName t !! k).
  { intros k Hk. rewrite merge_lookup, (bool_decide_eq_false_2 _ Hk).
    destruct (first_update !! k) as [v|] eqn:Ev; [|reflexivity].
    symmetry. now apply first_update_fields. }
  destruct (db st) as [fs|] eqn:Edb; [destruct ok|].
  - (* the document store took the job *)
    assert (get_ok = true) as -> by (destruct Hback as [|[|]]; congruence).
    assert (Hc : created
                 = set_jobs st fs
                     (<[jobId := <["updatedAt"%string := VServerTime t]>
                                   (<["createdAt"%string := VServerTime t]>
                                      (newJob jobId userId appName t))]>
                        (app_creation_jobs fs))).
    { subst created. unfold createAppCreationJob. now rewrite Edb. }
    clearbody created. subst created.
    split; [|split; [|discriminate]].
    + unfold start_call. cbn [inMemoryJobs set_jobs]. rewrite Hfresh.
      exists j. split; [exact Hget|].
      split; [now rewrite Hj | intros k _; apply Hj].
    + unfold first_update_done, updateAppCreationJob, firestore_update.
      cbn [inMemoryJobs db set_jobs app_creation_jobs]. rewrite Hfresh.
      rewrite (bool_decide_eq_true_2 (is_Some (Some _))) by eauto.
      rewrite (bool_decide_eq_false_2 (is_Some None))
        by (intros [? ?]; discriminate).
      cbn [negb orb]. destruct ok1; cbn [orb].
      * rewrite lookup_insert_eq. cbn [snd].
        unfold getAppCreationJob.
        cbn [inMemoryJobs db set_jobs app_creation_jobs]. rewrite Hfresh.
        rewrite lookup_insert_eq. eexists. split; [reflexivity|]. split.
        -- rewrite normalize_lookup. reflexivity.
        -- intros k Hk. rewrite normalize_lookup, lookup_union.
           rewrite (lookup_insert_ne _ "updatedAt"%string k) by congruence.
           destruct (first_update !! k) as [v|] eqn:Ev.
           ++ rewrite (first_update_fields _ _ Ev).
              apply elem_of_list_to_map_2 in Ev.
              repeat (apply elem_of_cons in Ev as [[= -> ->] | Ev];
                      [reflexivity|]).
              now apply elem_of_nil in Ev.
           ++ case_bool_decide as Hc'.
              ** destruct Hc' as [-> | ->]; [congruence | reflexivity].
              ** rewrite !lookup_insert_ne
                   by (intros <-; apply Hc'; auto).
                 now destruct (newJob jobId userId appName t !! k).
      * cbn [inMemoryJobs set_jobs]. rewrite Hfresh. cbn [snd].
        exists j. split; [exact Hget|].
        split; [now rewrite Hj | intros k _; apply Hj].
  - (* the document store refused the job *)
    assert (Hm : inMemoryJobs created !! jobId
                 = Some (newJob jobId userId appName t)).
    { subst created. unfold createAppCreationJob. rewrite Edb.
      apply lookup_insert_eq. }
    assert (Hdone : first_update_done jobId t1 ok1 created
                    = start_call jobId t1 created)
      by (apply first_update_of_memory_job; eauto).
    rewrite Hdone. unfold start_call. rewrite Hm.
    assert (Hg : getAppCreationJob jobId get_ok
                   (update_in_memory jobId (newJob jobId userId appName t)
                      first_update t1 created)
                 = Return (Some (merge (newJob jobId userId appName t)
                                   first_update (VStr t1)))).
    { unfold getAppCreationJob, update_in_memory.
      cbn [inMemoryJobs set_memory]. now rewrite lookup_insert_eq. }
    split; [|split; [|reflexivity]];
      (eexists; split; [exact Hg|]; split;
       [now rewrite merge_lookup | exact Hmerged]).
  - (* no document store *)
    assert (Hm : inMemoryJobs created !! jobId
                 = Some (newJob jobId userId appName t)).
    { subst created. unfold createAppCreationJob. rewrite Edb.
      apply lookup_insert_eq. }
    assert (Hdone : first_update_done jobId t1 ok1 created
                    = start_call jobId t1 created)
      by (apply first_update_of_memory_job; eauto).
    rewrite Hdone. unfold start_call. rewrite Hm.
    assert (Hg : getAppCreationJob jobId get_ok
                   (update_in_memory jobId (newJob jobId userId appName t)
                      first_update t1 created)
                 = Return (Some (merge (newJob jobId userId appName t)
                                   first_update (VStr t1)))).
    { unfold getAppCreationJob, update_in_memory.
      cbn [inMemoryJobs set_memory]. now rewrite lookup_insert_eq. }
    split; [|split; [|reflexivity]];
      (eexists; split; [exact Hg|]; split;
       [now rewrite merge_lookup | exact Hmerged]).
Qed.

(** The answer of the status endpoint for a record that has the
    properties of a new job but for [updatedAt]. *)
Lemma status_of_new_job (jobId userId appName t u : jsstring)
    (get_ok : bool) (st : store) (j : job) :
  getAppCreationJob jobId get_ok st = Return (Some j) ->
  j !! "updatedAt"%string = Some (VStr u) ->
  (forall k, k <> "updatedAt"%string ->
             j !! k = newJob jobId userId appName t !! k) ->
  reports_new_job (app_creation_status jobId userId get_ok st) jobId t u
  /\ forall other, other <> userId ->
       code (app_creation_status jobId other get_ok st) = 403.
Proof.
  intros Hget Hup Hj.
  assert (Hown : field j "userId" = VStr userId)
    by (unfold field; now rewrite Hj by discriminate).
  unfold app_creation_status, reports_new_job. rewrite Hget, Hown.
  cbn [is_string]. split.
  - rewrite (bool_decide_eq_true_2 (userId = userId)) by reflexivity.
    split; [reflexivity|].
    do 7 (split; [cbn [body]; unfold field;
                  rewrite !Hj by discriminate; reflexivity|]).
    cbn [body]. unfold field. rewrite Hup. reflexivity.
  - intros other Hne.
    now rewrite (bool_decide_eq_false_2 (userId = other)) by congruence.
Qed.

(** X9: a job created through [POST /api/create-shopify-app] is reported
    by the status endpoint to its creator as a new job until the sandbox
    service answers the background process: running, in stage
    initializing, with no output, no URL, no error and the creation time
    as [createdAt]; any other user gets 403.  Before it responds the
    handler calls [startShopifyAppCreationProcess], whose first update
    sets the stage and the status again.  In the store the handler leaves
    when it responds, a job held in memory (no document store, or the
    write refused) has taken that update and [updatedAt] is its time,
    while for a job in the document store the update is on its way and
    [updatedAt] is the creation time.  Once the update is over
    ([later]), [updatedAt] is its time unless the document store refused
    it.  The identifier must be new to the in-memory map, and a job put
    in the document store must be readable there.  What the background
    process writes after the sandbox service has answered is not covered
    here. *)
Theorem X9_created_job_is_reported :
  forall (userId appName jobId t t1 : jsstring) (ok ok1 get_ok : bool)
         (st : store),
    name_accepted appName ->
    inMemoryJobs st !! jobId = None ->
    db st = None \/ ok = false \/ get_ok = true ->
    let r := post_create_shopify_app userId appName jobId t t1 ok st in
    let later :=
      first_update_done jobId t1 ok1
        (snd (createAppCreationJob userId (trim appName) jobId t ok st)) in
    let in_memory := match db st with Some _ => negb ok | None => true end in
    body (fst r) !! "jobId"%string = Some (VStr jobId)
    /\ reports_new_job (app_creation_status jobId userId get_ok (snd r))
         jobId t (if in_memory then t1 else t)
    /\ reports_new_job (app_creation_status jobId userId get_ok later)
         jobId t (if in_memory || ok1 then t1 else t)
    /\ (in_memory = true -> later = snd r)
    /\ forall other, other <> userId ->
         code (app_creation_status jobId other get_ok (snd r)) = 403
         /\ code (app_creation_status jobId other get_ok later) = 403.
Proof.
  intros userId appName jobId t t1 ok ok1 get_ok st Hname Hfresh Hback
    r later in_memory.
  destruct (new_job_then_get userId (trim appName) jobId t t1 ok ok1 get_ok
              st Hfresh Hback)
    as ((j & Hget & Hup & Hj) & (j' & Hget' & Hup' & Hj') & Hsame).
  fold later in Hget', Hsame. fold in_memory in Hup, Hup', Hsame.
  rewrite <- (post_create_store userId appName jobId t t1 ok st Hname)
    in Hget, Hsame.
  fold r in Hget, Hsame.
  destruct (status_of_new_job _ _ _ _ _ _ _ _ Hget Hup Hj) as [Hs Hd].
  destruct (status_of_new_job _ _ _ _ _ _ _ _ Hget' Hup' Hj') as [Hs' Hd'].
  split.
  { subst r. rewrite post_create_response.
    destruct Hname as [Ht Hv]. unfold create_shopify_app.
    rewrite (trim_truthy _ Ht), Ht, Hv. cbn [negb orb].
    pose proof (create_stores_job userId (trim appName) jobId t ok st)
      as [Hr _].
    destruct (createAppCreationJob userId (trim appName) jobId t ok st)
      as [[id|] st']; cbn [fst snd] in *; [|discriminate].
    now injection Hr as ->. }
  split; [exact Hs|]. split; [exact Hs'|]. split; [exact Hsame|].
  intros other Hne. split; [now apply Hd | now apply Hd'].
Qed.

Lemma X9_created_job_is_reported_witness :
  let r :=
    post_create_shopify_app (js "alice") (js " my shop ") (js "job_7")
      (js "t0") (js "t1") false outage_store in
  let s := app_creation_status (js "job_7") (js "alice") false (snd r) in
  body s !! "status"%string = Some (VStr (js "running"))
  /\ body s !! "createdAt"%string = Some (VStr (js "t0"))
  /\ body s !! "updatedAt"%string = Some (VStr (js "t1")).
Proof.
  destruct (X9_created_job_is_reported (js "alice") (js " my shop ")
              (js "job_7") (js "t0") (js "t1") false true false
              outage_store)
    as (_ & (_ & _ & Hs & _ & _ & _ & _ & Hc & Hu) & _).
  - split; vm_compute; reflexivity.
  - vm_compute. reflexivity.
  - right. left. reflexivity.
  - split; [exact Hs|]. split; [exact Hc | exact Hu].
Defined.

(** X10: an update that reaches a backend reads back.  For a job that
    [get] shows, held in memory or updated in a document store that takes
    the write, [get] after [update] shows [updatedAt] at the time of the
    update, every updated property at its new value, and every other
    property as before. *)
Theorem X10_update_reads_back :
  forall (jobId t : jsstring) (upd old : job) (get_ok upd_ok : bool)
         (st : store),
    getAppCreationJob jobId get_ok st = Return (Some old) ->
    is_Some (inMemoryJobs st !! jobId) \/ upd_ok = true ->
    exists new,
      getAppCreationJob jobId get_ok
        (snd (updateAppCreationJob jobId upd t upd_ok st))
      = Return (Some new)
      /\ new !! "updatedAt"%string = Some (VStr t)
      /\ (forall k, k <> "updatedAt"%string -> k <> "createdAt"%string ->
            new !! k = match upd !! k with
                       | Some v => Some v
                       | None => old !! k
                       end)
      /\ (upd !! "createdAt"%string = None ->
          new !! "createdAt"%string = old !! "createdAt"%string).
Proof.
  intros jobId t upd old get_ok upd_ok st Hget Hback.
  destruct (inMemoryJobs st !! jobId) as [existing|] eqn:Hmem.
  - assert (existing = old) as ->.
    { unfold getAppCreationJob in Hget. rewrite Hmem in Hget. congruence. }
    rewrite (update_of_memory_job _ _ _ _ _ _ Hmem). simpl.
    unfold getAppCreationJob. simpl. rewrite lookup_insert_eq.
    eexists. split; [reflexivity|]. split; [|split].
    + now rewrite merge_lookup.
    + intros k Hu _. rewrite merge_lookup.
      now rewrite (bool_decide_eq_false_2 _ Hu).
    + intros Hc. rewrite merge_lookup. simpl. now rewrite Hc.
  - assert (upd_ok = true) as ->
      by (destruct Hback as [[? ?]|]; congruence).
    unfold getAppCreationJob in Hget. rewrite Hmem in Hget.
    destruct (db st) as [fs|] eqn:Edb; [|discriminate].
    destruct get_ok; [|discriminate].
    destruct (app_creation_jobs fs !! jobId) as [doc|] eqn:Edoc;
      [|discriminate].
    injection Hget as <-.
    unfold updateAppCreationJob, firestore_update. rewrite Edb, Hmem, Edoc.
    simpl. unfold getAppCreationJob. simpl. rewrite Hmem, lookup_insert_eq.
    eexists. split; [reflexivity|]. split; [|split].
    + rewrite normalize_lookup. simpl.
      rewrite lookup_union, lookup_insert_eq.
      now destruct (doc !! "updatedAt"%string).
    + intros k Hu Hc. rewrite !normalize_lookup.
      rewrite (bool_decide_eq_false_2 (k = _ \/ k = _)) by tauto.
      rewrite lookup_union, lookup_insert_ne by congruence.
      now destruct (upd !! k), (doc !! k).
    + intros Hc. rewrite !normalize_lookup. simpl.
      rewrite lookup_union, lookup_insert_ne, Hc by discriminate.
      now destruct (doc !! "createdAt"%string).
Qed.

Lemma X10_update_reads_back_witness :
  exists new,
    getAppCreationJob (js "job_1") false
      (snd (updateAppCreationJob (js "job_1") (failure timeout_message)
              (js "t5") false outage_store))
    = Return (Some new)
    /\ new !! "status"%string = Some (VStr (js "failed"))
    /\ new !! "appName"%string = Some (VStr (js "shop")).
Proof.
  destruct (X10_update_reads_back (js "job_1") (js "t5")
              (failure timeout_message)
              (newJob (js "job_1") (js "u") (js "shop") (js "t0"))
              false false outage_store)
    as (new & Hget & _ & Hk & _).
  - reflexivity.
  - left. eexists. reflexivity.
  - exists new. split; [exact Hget|].
    split; [now rewrite Hk by discriminate | now rewrite Hk by discriminate].
Defined.

(** ** What stays in the in-memory map *)

Lemma cleanup_keeps_memory (older : jsstring -> bool) (q c : bool)
    (st : store) :
  inMemoryJobs (cleanupOldJobs older q c st) = inMemoryJobs st.
Proof.
  unfold cleanupOldJobs.
  destruct (db st); [|reflexivity]. destruct q; [|reflexivity].
  case_bool_decide; [reflexivity|]. now destruct c.
Qed.

Lemma update_keeps_record (j k : jsstring) (upd : job) (t : jsstring)
    (ok : bool) (st : store) :
  is_Some (inMemoryJobs st !! k) ->
  is_Some (inMemoryJobs (snd (updateAppCreationJob j upd t ok st)) !! k).
Proof.
  intros Hk. destruct (decide (j = k)) as [->|Hne].
  - destruct Hk as [existing Hk].
    rewrite (update_of_memory_job _ _ _ _ _ _ Hk). simpl.
    rewrite lookup_insert_eq. eauto.
  - now rewrite update_other_job.
Qed.

Lemma apply_op_keeps_record (op : store_op) (st : store) (k : jsstring) :
  is_Some (inMemoryJobs st !! k) ->
  is_Some (inMemoryJobs (apply_op st op) !! k).
Proof.
  intros Hk. destruct op; simpl.
  - unfold createAppCreationJob.
    destruct (db st); [destruct ok|]; simpl; try exact Hk;
      apply lookup_insert_is_Some'; auto.
  - now apply update_keeps_record.
  - now rewrite save_keeps_memory.
  - destruct (setup_accepts jobId userId get_ok t upd_ok st)
      as [(id & j & _ & _ & _ & _ & _ & ->) | (_ & -> & _)];
      [now apply update_keeps_record | exact Hk].
  - now rewrite cleanup_keeps_memory.
Qed.

(** X11: no call that writes to the job store ever removes a record from
    the in-memory map: after any sequence of job creations, updates,
    metadata writes, acknowledgements and hourly clean-ups, whatever the
    age of the record and whether or not the document store answers, a
    job that was in the map is still there and [getAppCreationJob]
    returns the record of the map. *)
Theorem X11_memory_records_are_never_removed :
  forall (ops : list store_op) (st : store) (jobId : jsstring),
    is_Some (inMemoryJobs st !! jobId) ->
    let st' := fold_left apply_op ops st in
    exists j,
      inMemoryJobs st' !! jobId = Some j
      /\ forall get_ok, getAppCreationJob jobId get_ok st' = Return (Some j).
Proof.
  intros ops st jobId Hin st'.
  assert (Hkept : is_Some (inMemoryJobs st' !! jobId)).
  { subst st'. revert st Hin.
    induction ops as [|op ops IH]; intros st Hin; simpl; [exact Hin|].
    apply IH. now apply apply_op_keeps_record. }
  destruct Hkept as [j Hj]. exists j. split; [exact Hj|].
  intros get_ok. unfold getAppCreationJob. now rewrite Hj.
Qed.

Lemma X11_memory_records_are_never_removed_witness :
  exists j,
    inMemoryJobs
      (fold_left apply_op
         [ Update (js "job_1") (failure abandoned_message) (js "t1") true;
           Cleanup (fun _ => true) true true ]
         outage_store) !! js "job_1" = Some j.
Proof.
  destruct (X11_memory_records_are_never_removed
              [ Update (js "job_1") (failure abandoned_message) (js "t1") true;
                Cleanup (fun _ => true) true true ]
              outage_store (js "job_1")) as (j & Hj & _).
  - eexists. reflexivity.
  - exists j. exact Hj.
Defined.

(** ** Starting the background process *)

Lemma start_failed_shape (jobId : jsstring) (l : launch) (n : nat)
    (w : world) (j : job) :
  record_of jobId w = Some j ->
  let w' := start_failed jobId l n w in
  polling w' = polling w
  /\ (jobId ∉ activeJobs w')
  /\ exists j' msg,
       record_of jobId w' = Some j' /\ failed_record j' msg
       /\ msg = (if truthy (thrownMessage l) then thrownMessage l
                 else js "Failed to start CLI process").
Proof.
  intros Hj w'. subst w'. unfold start_failed. simpl.
  split; [reflexivity|]. split.
  - intros Hin. apply elem_of_difference in Hin as [_ Hin]. apply Hin.
    now apply elem_of_singleton.
  - unfold record_of in *. simpl.
    rewrite (update_of_memory_job _ _ _ _ _ _ Hj). simpl.
    rewrite lookup_insert_eq. eexists _, _. split; [reflexivity|].
    split; [|reflexivity].
    unfold failed_record. rewrite !merge_lookup. simpl. auto.
Qed.

Lemma call_update_record (jobId : jsstring) (upd : job) (t : jsstring)
    (ok : bool) (w : world) (j : job) :
  record_of jobId w = Some j ->
  record_of jobId (call_update jobId upd t ok w)
  = Some (merge j upd (VStr t)).
Proof.
  intros Hj. unfold record_of in *. simpl.
  rewrite (update_of_memory_job _ _ _ _ _ _ Hj). simpl.
  apply lookup_insert_eq.
Qed.

(** X12: starting the background process either ends with the job
    monitored or with the job failed.  For a job whose record is in the
    in-memory map: when every sandbox call resolves, the job is in the
    active table, polling has started with the initial closure and the
    record is running, in stage creating, with the three start lines as
    output; when one of them is rejected, the job is not in the active
    table, polling has not started, the record is failed with the
    message of the error (or the default one), and no timer event changes
    the record afterwards. *)
Theorem X12_start_monitors_or_fails :
  forall (jobId userId appName : jsstring) (l : launch) (st : store)
         (active : gset jsstring) (j : job),
    inMemoryJobs st !! jobId = Some j ->
    let w := startShopifyAppCreationProcess jobId userId appName l st active in
    (launch_ok l
     /\ polling w = true /\ jobId ∈ activeJobs w
     /\ vars w = initial_monitor appName
     /\ exists j',
          record_of jobId w = Some j'
          /\ j' !! "status"%string = Some (VStr (js "running"))
          /\ j' !! "stage"%string = Some (stage_value creating)
          /\ j' !! "output"%string
             = Some (VLines [ js "E2B sandbox created successfully";
                              js "Initializing Shopify CLI...";
                              js "Running: " ++ shopifyCommand appName ]))
    \/ (~ launch_ok l
        /\ polling w = false /\ (jobId ∉ activeJobs w)
        /\ exists j' msg,
             record_of jobId w = Some j' /\ failed_record j' msg
             /\ forall es,
                  record_of jobId (run jobId userId appName w es)
                  = Some j').
Proof.
  intros jobId userId appName l st active j Hj w. subst w.
  unfold startShopifyAppCreationProcess.
  set (w0 := {| jobs := st; activeJobs := active; polling := false;
                vars := initial_monitor appName; updates := [] |}).
  assert (H0 : record_of jobId w0 = Some j) by exact Hj.
  pose proof (call_update_record jobId
    (list_to_map [ ("stage"%string, stage_value initializing);
                   ("status"%string, VStr (js "running")) ])
    (clock l 0) (write_ok l 0) w0 j H0) as H1.
  set (w1 := call_update jobId _ (clock l 0) (write_ok l 0) w0) in *.
  assert (Hfail : forall n w jw,
             record_of jobId w = Some jw -> polling w = false ->
             ~ launch_ok l ->
             ~ launch_ok l
             /\ polling (start_failed jobId l n w) = false
             /\ (jobId ∉ activeJobs (start_failed jobId l n w))
             /\ exists j' msg,
                  record_of jobId (start_failed jobId l n w) = Some j'
                  /\ failed_record j' msg
                  /\ forall es,
                       record_of jobId
                         (run jobId userId appName
                            (start_failed jobId l n w) es)
                       = Some j').
  { intros n w jw Hw Hp Hno.
    destruct (start_failed_shape jobId l n w jw Hw)
      as (Hp' & Ha & j' & msg & Hr & Hf & _).
    split; [exact Hno|]. split; [congruence|]. split; [exact Ha|].
    exists j', msg. split; [exact Hr|]. split; [exact Hf|].
    intros es.
    destruct (run_inactive jobId userId appName es _ Ha) as (_ & _ & ->).
    exact Hr. }
  destruct (sandboxCreate l) as [sid|] eqn:Esb.
  - set (upd2 := list_to_map
                   [ ("stage"%string, stage_value creating);
                     ("sandboxId"%string, VStr sid);
                     ("output"%string,
                       VLines [ js "E2B sandbox created successfully";
                                js "Initializing Shopify CLI..." ]) ] : job).
    assert (H2 : record_of jobId
                   (call_update jobId upd2 (clock l 1) (write_ok l 1)
                      (set_active jobId w1))
                 = Some (merge (merge j _ (VStr (clock l 0))) upd2
                           (VStr (clock l 1))))
      by (apply call_update_record; exact H1).
    set (w3 := call_update jobId upd2 (clock l 1) (write_ok l 1)
                 (set_active jobId w1)) in *.
    destruct (cdRun l) eqn:Ecd; cbn [negb].
    + pose proof (call_update_record jobId
        {[ "output"%string :=
             VLines [ js "E2B sandbox created successfully";
                      js "Initializing Shopify CLI...";
                      js "Running: " ++ shopifyCommand appName ] ]}
        (clock l 2) (write_ok l 2) w3 _ H2) as H4.
      set (w4 := call_update jobId _ (clock l 2) (write_ok l 2) w3) in *.
      destruct (wrapperRun l) eqn:Ewr; cbn [negb].
      * destruct (touchRun l) eqn:Eto; cbn [negb].
        -- left. split.
           { unfold launch_ok. rewrite Esb, Ecd, Ewr, Eto. auto. }
           split; [reflexivity|]. split.
           { simpl. apply elem_of_union_l, elem_of_singleton. reflexivity. }
           split; [reflexivity|].
           eexists. split; [exact H4|].
           rewrite !merge_lookup. simpl. auto.
        -- right. apply (Hfail 3%nat w4 _ H4); [reflexivity|].
           intros (_ & _ & _ & Hto). congruence.
      * right. apply (Hfail 3%nat w4 _ H4); [reflexivity|].
        intros (_ & _ & Hwr & _). congruence.
    + right. apply (Hfail 2%nat w3 _ H2); [reflexivity|].
      intros (_ & Hcd & _). congruence.
  - right. apply (Hfail 1%nat w1 _ H1); [reflexivity|].
    intros (Hsb & _). rewrite Esb in Hsb. discriminate.
Qed.

Lemma X12_start_monitors_or_fails_witness :
  let w :=
    startShopifyAppCreationProcess (js "job_1") (js "u") (js "shop")
      no_sandbox memory_store ∅ in
  status_of (js "job_1") w = VStr (js "failed")
  /\ (polling w = true -> launch_ok no_sandbox).
Proof.
  split; [reflexivity|].
  destruct (X12_start_monitors_or_fails (js "job_1") (js "u") (js "shop")
              no_sandbox memory_store ∅
              (newJob (js "job_1") (js "u") (js "shop") (js "t0")))
    as [(Hok & _) | (_ & Hp & _)].
  - reflexivity.
  - intros _. exact Hok.
  - intros Hp'. rewrite Hp in Hp'. discriminate.
Defined.

(** ** Acknowledging a job whose monitor is over *)

Section AcknowledgedJob.

Variables jobId userId appName : jsstring.

(** X13: the acknowledgement endpoint does not look at the state of the
    job.  For a job of the caller that is in the in-memory map and no
    longer in the active table (finished, failed or timed out), the
    endpoint answers 200 and sets [status=running, stage=finalizing]
    while the [error] of the record stays; no timer event changes the
    record afterwards, so the status endpoint keeps reporting the job as
    running. *)
Theorem X13_acknowledged_job_runs_again :
  forall (w : world) (j : job) (get_ok upd_ok : bool) (t : jsstring)
         (es : list event),
    jobId <> [] -> jobId ∉ activeJobs w ->
    record_of jobId w = Some j ->
    j !! "userId"%string = Some (VStr userId) ->
    let r := complete_app_setup (Some jobId) userId get_ok t upd_ok (jobs w) in
    let w' := run jobId userId appName (with_jobs w (snd r)) es in
    code (fst r) = 200
    /\ (exists j',
          record_of jobId w' = Some j'
          /\ j' !! "status"%string = Some (VStr (js "running"))
          /\ j' !! "stage"%string = Some (stage_value finalizing)
          /\ j' !! "error"%string = j !! "error"%string)
    /\ forall ok,
         let s := app_creation_status jobId userId ok (jobs w') in
         code s = 200
         /\ body s !! "status"%string = Some (VStr (js "running"))
         /\ body s !! "error"%string = Some (field j "error").
Proof.
  intros w j get_ok upd_ok t es Hne Ha Hj Hown r w'.
  assert (Hget : getAppCreationJob jobId get_ok (jobs w) = Return (Some j)).
  { unfold getAppCreationJob. unfold record_of in Hj. now rewrite Hj. }
  destruct (setup_accepts (Some jobId) userId get_ok t upd_ok (jobs w))
    as [(id & j0 & [= <-] & _ & _ & _ & Hc & Hs) | (_ & _ & Hno)];
    [|exfalso; apply Hno; eauto 10].
  fold r in Hc, Hs.
  assert (Hrec : record_of jobId w'
                 = Some (merge j acknowledged (VStr t))).
  { subst w'.
    destruct (run_inactive jobId userId appName es
                (with_jobs w (snd r)) Ha) as (_ & _ & ->).
    unfold record_of in *. simpl. rewrite Hs.
    rewrite (update_of_memory_job _ _ _ _ _ _ Hj). simpl.
    apply lookup_insert_eq. }
  split; [exact Hc|]. split.
  - eexists. split; [exact Hrec|]. rewrite !merge_lookup. simpl. auto.
  - intros ok s. subst s. unfold app_creation_status, getAppCreationJob.
    unfold record_of in Hrec. rewrite Hrec.
    assert (Ho : field (merge j acknowledged (VStr t)) "userId"
                 = VStr userId).
    { unfold field. rewrite merge_lookup. simpl. now rewrite Hown. }
    rewrite Ho. simpl.
    rewrite (bool_decide_eq_true_2 (userId = userId)) by reflexivity.
    split; [reflexivity|]. split.
    + simpl. unfold field. rewrite !merge_lookup. reflexivity.
    + simpl. unfold field. rewrite !merge_lookup. reflexivity.
Qed.

End AcknowledgedJob.

Lemma X13_acknowledged_job_runs_again_witness :
  let w :=
    ceiling (js "job_1") (js "t9") true
      (started (js "job_1") (js "shop") memory_store ∅) in
  let r :=
    complete_app_setup (Some (js "job_1")) (js "u") true (js "t10") true
      (jobs w) in
  status_of (js "job_1") w = VStr (js "failed")
  /\ body (app_creation_status (js "job_1") (js "u") true (snd r))
       !! "status"%string = Some (VStr (js "running"))
  /\ body (app_creation_status (js "job_1") (js "u") true (snd r))
       !! "error"%string = Some (VStr timeout_message).
Proof.
  split; [reflexivity|].
  pose proof (X13_acknowledged_job_runs_again (js "job_1") (js "u")
                (js "shop")
                (ceiling (js "job_1") (js "t9") true
                   (started (js "job_1") (js "shop") memory_store ∅))
                (merge (newJob (js "job_1") (js "u") (js "shop") (js "t0"))
                   (failure timeout_message) (VStr (js "t9")))
                true true (js "t10") []) as H.
  destruct H as (_ & _ & H).
  - discriminate.
  - apply (bool_decide_unpack _). vm_compute. exact I.
  - reflexivity.
  - reflexivity.
  - destruct (H true) as (_ & Hs & He). split; [exact Hs | exact He].
Defined.

(** ** Saving a project and loading it again *)

(** The object stored for a file. *)
Lemma save_files_all_ok (projectPath : jsstring)
    (entries : list (jsstring * jsstring)) (save_ok : jsstring -> bool)
    (b : bucket_files) :
  (forall p, save_ok p = true) ->
  save_files projectPath entries save_ok b
  = (Return tt,
     fold_left
       (fun acc e =>
          <[projectPath ++ js "/" ++ fst e :=
              {| blob_content := Text (snd e);
                 contentType := getContentType (fst e) |}]> acc)
       entries b).
Proof.
  intros Hok. revert b.
  induction entries as [|[f text] entries IH]; intros b; simpl;
    [reflexivity|].
  rewrite Hok. apply IH.
Qed.

(** What the bucket holds after the loop over the files. *)
Lemma saved_files_lookup (projectPath : jsstring)
    (entries : list (jsstring * jsstring)) (b : bucket_files)
    (path : jsstring) (x : blob) :
  entries_of_object entries ->
  fold_left
    (fun acc e =>
       <[projectPath ++ js "/" ++ fst e :=
           {| blob_content := Text (snd e);
              contentType := getContentType (fst e) |}]> acc)
    entries b !! path = Some x
  <-> (exists f text,
         In (f, text) entries /\ path = projectPath ++ js "/" ++ f
         /\ x = {| blob_content := Text text;
                   contentType := getContentType f |})
      \/ (b !! path = Some x
          /\ forall f text, In (f, text) entries ->
                            path <> projectPath ++ js "/" ++ f).
Proof.
  unfold entries_of_object.
  induction entries as [|[f text] entries IH] using rev_ind; intros Hnd.
  - simpl. split; [intros H; right; split; [exact H | intros ? ? []]|].
    intros [(? & ? & [] & _) | [H _]]. exact H.
  - rewrite map_app in Hnd. simpl in Hnd.
    apply NoDup_app in Hnd as (Hnd & Hnew & _).
    specialize (IH Hnd).
    rewrite fold_left_app. simpl. rewrite lookup_insert_Some. split.
    + intros [[<- <-] | [Hne Hl]].
      * left. exists f, text. split; [|auto].
        apply in_or_app. right. now left.
      * apply IH in Hl as [(g & t & Hin & -> & ->) | [Hb Hno]].
        -- left. exists g, t. split; [|auto]. apply in_or_app. now left.
        -- right. split; [exact Hb|]. intros g t Hin.
           apply in_app_or in Hin as [Hin | [[= <- <-] | []]];
             [now apply (Hno g t) | congruence].
    + intros [(g & t & Hin & -> & ->) | [Hb Hno]].
      * apply in_app_or in Hin as [Hin | [[= <- <-] | []]]; [|left; auto].
        right. split.
        -- intros Heq. apply app_inv_head in Heq.
           assert (g = f) as -> by (injection Heq as Heq; congruence).
           apply (Hnew f); [|apply list_elem_of_singleton; reflexivity].
           apply list_elem_of_In, in_map_iff. now exists (f, t).
        -- apply IH. left. eauto.
      * right. split.
        -- intros Heq. apply (Hno f text); [|now symmetry].
           apply in_or_app. right. now left.
        -- apply IH. right. split; [exact Hb|]. intros g t Hin.
           apply (Hno g t). apply in_or_app. now left.
Qed.

(** What the loop over the listed objects puts in [projectFiles]. *)
Lemma loaded_files_lookup (stringify : gmap string value -> jsstring)
    (r : reads) (prefix : jsstring) (l : list (jsstring * blob))
    (f c : jsstring) :
  NoDup (map fst l) ->
  (forall e, In e l -> exists rest, fst e = prefix ++ rest) ->
  foldr (load_file stringify prefix r) ∅ l !! f = Some c
  <-> f <> [] /\ f <> js "project.json" /\ f <> js "__proto__"
      /\ exists x, In (prefix ++ f, x) l
                   /\ download_ok r (prefix ++ f) = true
                   /\ c = text_of stringify (blob_content x).
Proof.
  induction l as [|[nm x] l IH]; intros Hnd Hpre.
  - simpl. rewrite lookup_empty. split; [discriminate|].
    now intros (_ & _ & _ & ? & [] & _).
  - apply NoDup_cons in Hnd as [Hfresh Hnd].
    assert (Hpre' : forall e, In e l -> exists rest, fst e = prefix ++ rest)
      by (intros e He; apply Hpre; now right).
    specialize (IH Hnd Hpre').
    destruct (Hpre (nm, x) (or_introl eq_refl)) as (rest & Hnm).
    simpl in Hnm. subst nm.
    assert (Hother : forall y, In (prefix ++ rest, y) l -> False).
    { intros y Hy. apply Hfresh. apply list_elem_of_In, in_map_iff.
      now exists (prefix ++ rest, y). }
    cbn [foldr]. unfold load_file at 1. cbn [fst snd].
    rewrite drop_app_length.
    destruct (truthy rest
              && negb (bool_decide (rest = js "project.json"))
              && download_ok r (prefix ++ rest)) eqn:Econd.
    + apply andb_true_iff in Econd as [Econd Hdl].
      apply andb_true_iff in Econd as [Hne Hpj].
      apply truthy_nonempty in Hne.
      apply negb_true_iff, bool_decide_eq_false in Hpj.
      rewrite assign_text_lookup.
      destruct (decide (rest = f)) as [E | E].
      * rewrite (bool_decide_eq_true_2 _ E).
        destruct (decide (rest = js "__proto__")) as [Ep | Ep].
        -- rewrite (bool_decide_eq_true_2 _ Ep). cbn [negb andb].
           rewrite IH. split; intros (_ & _ & H3 & _); congruence.
        -- rewrite (bool_decide_eq_false_2 _ Ep). cbn [negb andb].
           rewrite <- E. split.
           ++ intros [= <-]. repeat split; auto.
              exists x. repeat split; auto. now left.
           ++ intros (_ & _ & _ & y & [[= <-] | Hy] & _ & ->);
                [reflexivity | destruct (Hother y Hy)].
      * rewrite (bool_decide_eq_false_2 _ E). cbn [andb].
        rewrite IH. split.
        -- intros (H1 & H2 & H3 & y & Hy & Hd & ->).
           repeat split; auto. exists y. repeat split; auto. now right.
        -- intros (H1 & H2 & H3 & y & [[= Hp <-] | Hy] & Hd & ->).
           ++ apply app_inv_head in Hp. congruence.
           ++ repeat split; auto. exists y. auto.
    + rewrite IH. split.
      * intros (H1 & H2 & H3 & y & Hy & Hd & ->).
        repeat split; auto. exists y. repeat split; auto. now right.
      * intros (H1 & H2 & H3 & y & [[= Hp <-] | Hy] & Hd & ->).
        -- apply app_inv_head in Hp. subst f.
           apply truthy_nonempty in H1.
           rewrite H1, Hd in Econd.
           rewrite (bool_decide_eq_false_2 _ H2) in Econd. discriminate.
        -- repeat split; auto. exists y. auto.
Qed.

Lemma project_path_assoc (userId projectId rest : jsstring) :
  (js "users/" ++ userId ++ js "/projects/" ++ projectId) ++ js "/" ++ rest
  = object_path userId projectId rest.
Proof. unfold object_path. now rewrite <- !app_assoc. Qed.

Lemma project_prefix_assoc (userId projectId rest : jsstring) :
  (js "users/" ++ userId ++ js "/projects/" ++ projectId ++ js "/") ++ rest
  = object_path userId projectId rest.
Proof. unfold object_path. now rewrite <- !app_assoc. Qed.

Lemma or_null_defined (a : option jsstring) : is_undefined (or_null a) = false.
Proof. destruct a as [s|]; [simpl; destruct (truthy s)|]; reflexivity. Qed.

(** When every write goes through, [saveProject] stores the metadata
    object and then the files, and returns the metadata it stored. *)
Lemma try_save_all_ok (userId : jsstring) (pd : ProjectData)
    (entries : list (jsstring * jsstring)) (ms : N) (rnd t : jsstring)
    (save_ok : jsstring -> bool) (b : bucket_files) :
  files pd = Some entries ->
  (forall p, save_ok p = true) ->
  exists md,
    try_save userId (Some pd) ms rnd t save_ok (Some b)
    = (Return {| projectId := generateProjectId ms rnd; metadata := md |},
       Some
         (fold_left
            (fun acc e =>
               <[(js "users/" ++ userId ++ js "/projects/"
                  ++ generateProjectId ms rnd) ++ js "/" ++ fst e :=
                   {| blob_content := Text (snd e);
                      contentType := getContentType (fst e) |}]> acc)
            entries
            (<[object_path userId (generateProjectId ms rnd)
                 (js "project.json") :=
                 {| blob_content := Json md;
                    contentType := Mime (js "application/json") |}]> b)))
    /\ json_image md = md
    /\ md !! "files"%string = None.
Proof.
  intros Hfiles Hok. unfold try_save.
  rewrite Hok, Hfiles, save_files_all_ok by exact Hok.
  eexists. split; [|split].
  - rewrite <- project_path_assoc. reflexivity.
  - apply map_filter_id. intros i x Hix.
    apply elem_of_list_to_map_2 in Hix.
    repeat (apply elem_of_cons in Hix as [[= -> ->] | Hix];
            [first [reflexivity | apply or_null_defined]|]).
    now apply elem_of_nil in Hix.
  - reflexivity.
Qed.

(** What the bucket holds under the directory of a new project after
    the metadata object and the files were stored. *)
Lemma saved_bucket_lookup (userId ID : jsstring) (md : gmap string value)
    (entries : list (jsstring * jsstring)) (b : bucket_files)
    (f : jsstring) (x : blob) :
  entries_of_object entries ->
  unused_project b userId ID ->
  fold_left
    (fun acc e =>
       <[(js "users/" ++ userId ++ js "/projects/" ++ ID) ++ js "/" ++ fst e :=
           {| blob_content := Text (snd e);
              contentType := getContentType (fst e) |}]> acc)
    entries
    (<[object_path userId ID (js "project.json") :=
         {| blob_content := Json md;
            contentType := Mime (js "application/json") |}]> b)
  !! object_path userId ID f = Some x
  <-> (exists text, In (f, text) entries
         /\ x = {| blob_content := Text text;
                   contentType := getContentType f |})
      \/ (f = js "project.json"
          /\ x = {| blob_content := Json md;
                    contentType := Mime (js "application/json") |}
          /\ forall text, ~ In (f, text) entries).
Proof.
  intros Hnd Hunused.
  set (P := js "users/" ++ userId ++ js "/projects/" ++ ID).
  rewrite (saved_files_lookup P entries _ _ x Hnd). split.
  - intros [(g & text & Hin & Hp & ->) | [Hb Hno]].
    + subst P. rewrite project_path_assoc in Hp.
      apply app_inv_head in Hp. apply app_inv_head in Hp.
      apply app_inv_head in Hp. apply app_inv_head in Hp.
      assert (f = g) as -> by (injection Hp as Hp; exact Hp).
      left. eauto.
    + apply lookup_insert_Some in Hb as [[Hp <-] | [_ Hb]].
      * apply app_inv_head in Hp. apply app_inv_head in Hp.
        apply app_inv_head in Hp. apply app_inv_head in Hp.
        assert (f = js "project.json") as ->
          by (injection Hp as Hp; now symmetry).
        right. split; [reflexivity|]. split; [reflexivity|].
        intros text Hin. apply (Hno _ _ Hin).
        subst P. now rewrite project_path_assoc.
      * rewrite Hunused in Hb; [discriminate|].
        apply startsWith_spec. exists f. unfold object_path.
        rewrite <- !app_assoc. reflexivity.
  - intros [(text & Hin & ->) | (-> & -> & Hno)].
    + left. exists f, text. split; [exact Hin|]. split; [|reflexivity].
      subst P. now rewrite project_path_assoc.
    + right. split; [apply lookup_insert_eq|].
      intros g text Hin Hp. subst P. rewrite project_path_assoc in Hp.
      apply app_inv_head in Hp. apply app_inv_head in Hp.
      apply app_inv_head in Hp. apply app_inv_head in Hp.
      assert (g = js "project.json") as ->
        by (injection Hp as Hp; now symmetry).
      exact (Hno text Hin).
Qed.

(** [getProject] on a bucket that holds, under the directory of the
    project, the metadata object and one object for each entry: the
    entries come back, but for one named [__proto__]. *)
Lemma getProject_of_saved (stringify : gmap string value -> jsstring)
    (parse : jsstring -> outcome (gmap string value))
    (userId ID : jsstring) (md : gmap string value)
    (entries : list (jsstring * jsstring)) (b' : bucket_files) :
  entries_of_object entries ->
  (forall f text, In (f, text) entries -> plain_name f) ->
  json_image md = md ->
  md !! "files"%string = None ->
  (forall f x,
     b' !! object_path userId ID f = Some x
     <-> (exists text, In (f, text) entries
            /\ x = {| blob_content := Text text;
                      contentType := getContentType f |})
         \/ (f = js "project.json"
             /\ x = {| blob_content := Json md;
                       contentType := Mime (js "application/json") |}
             /\ forall text, ~ In (f, text) entries)) ->
  getProject stringify parse userId ID all_reads (Some b')
  = Some {| loaded_metadata := md;
            loaded_files := delete (js "__proto__") (list_to_map entries) |}.
Proof.
  intros Hnd Hplain Hjson Hnofiles Hlook.
  assert (Hmeta : b' !! (js "users/" ++ userId ++ js "/projects/" ++ ID
                         ++ js "/project.json")
                  = Some {| blob_content := Json md;
                            contentType := Mime (js "application/json") |}).
  { apply (Hlook (js "project.json")). right.
    split; [reflexivity|]. split; [reflexivity|].
    intros text Hin. now destruct (Hplain _ _ Hin). }
  unfold getProject. cbn [exists_ok list_ok download_ok all_reads negb].
  rewrite Hmeta. cbn [blob_content parse_content].
  rewrite Hjson, (delete_id _ _ Hnofiles). f_equal. f_equal.
  apply map_eq. intros f. apply option_eq. intros c.
  rewrite lookup_delete_Some.
  rewrite <- elem_of_list_to_map by exact Hnd.
  rewrite list_elem_of_In.
  rewrite loaded_files_lookup.
  - split.
    + intros (Hne & Hpj & Hproto & x & Hin & _ & ->).
      split; [congruence|].
      apply list_elem_of_In, elem_of_map_to_list in Hin.
      apply map_lookup_filter_Some in Hin as [Hin _].
      rewrite project_prefix_assoc in Hin.
      apply Hlook in Hin as [(text & Hin & ->) | (-> & _)];
        [exact Hin | contradiction].
    + intros [Hproto Hin]. destruct (Hplain _ _ Hin) as [Hne Hpj].
      split; [exact Hne|]. split; [exact Hpj|]. split; [congruence|].
      exists {| blob_content := Text c; contentType := getContentType f |}.
      split; [|split; reflexivity].
      apply list_elem_of_In, elem_of_map_to_list, map_lookup_filter_Some.
      split.
      * rewrite project_prefix_assoc. apply Hlook. left. eauto.
      * cbn [fst]. apply startsWith_spec. eauto.
  - apply NoDup_fst_map_to_list.
  - intros [nm x] Hin. cbn [fst].
    apply list_elem_of_In, elem_of_map_to_list in Hin.
    apply map_lookup_filter_Some in Hin as [_ Hin]. cbn [fst] in Hin.
    now apply startsWith_spec.
Qed.

(** X14: a project that [saveProject] stored comes back from
    [getProject], but for a file named [__proto__].  When every storage
    call resolves, the entries of [files] have different names, none of
    them empty or [project.json], and the bucket held nothing under the
    directory of the new project, [saveProject] returns the first
    identifier it drew, and [getProject] with that identifier gives the
    metadata [saveProject] returned and, as [files], the entries that
    were saved under every name other than [__proto__], and no property
    [__proto__]: the assignment that would put it in the plain object
    [projectFiles] stores nothing. *)
Theorem X14_saved_project_loads_back :
  forall (stringify : gmap string value -> jsstring)
         (parse : jsstring -> outcome (gmap string value))
         (userId : jsstring) (pd : ProjectData)
         (entries : list (jsstring * jsstring))
         (ms1 : N) (rnd1 : jsstring) (ms2 : N) (rnd2 t : jsstring)
         (save_ok : jsstring -> bool) (b : bucket_files),
    files pd = Some entries ->
    entries_of_object entries ->
    (forall f text, In (f, text) entries -> plain_name f) ->
    (forall p, save_ok p = true) ->
    unused_project b userId (generateProjectId ms1 rnd1) ->
    exists stored b',
      saveProject userId (Some pd) ms1 rnd1 ms2 rnd2 t save_ok (Some b)
      = (Return stored, Some b')
      /\ projectId stored = generateProjectId ms1 rnd1
      /\ (forall f text,
            In (f, text) entries ->
            b' !! object_path userId (projectId stored) f
            = Some {| blob_content := Text text;
                      contentType := getContentType f |})
      /\ getProject stringify parse userId (projectId stored) all_reads
           (Some b')
         = Some {| loaded_metadata := metadata stored;
                   loaded_files :=
                     delete (js "__proto__") (list_to_map entries) |}.
Proof.
  intros stringify parse userId pd entries ms1 rnd1 ms2 rnd2 t save_ok b
    Hfiles Hnd Hplain Hok Hunused.
  destruct (try_save_all_ok userId pd entries ms1 rnd1 t save_ok b
              Hfiles Hok) as (md & Hsave & Hjson & Hnofiles).
  unfold saveProject. rewrite Hsave.
  eexists _, _. split; [reflexivity|]. split; [reflexivity|].
  cbn [projectId metadata]. split.
  - intros f text Hin. apply saved_bucket_lookup; try assumption.
    left. eauto.
  - apply getProject_of_saved; try assumption.
    intros f x. now apply saved_bucket_lookup.
Qed.

Lemma X14_saved_project_loads_back_witness :
  exists stored b',
    saveProject (js "alice") (Some proto_project) 1700000000000
      (js "0.4fzyo82mvyr") 0 [] (js "t0") (fun _ => true) (Some ∅)
    = (Return stored, Some b')
    /\ b' !! object_path (js "alice") (projectId stored) (js "__proto__")
       = Some {| blob_content := Text (js "{}");
                 contentType := ObjectPrototype |}
    /\ getProject (fun _ => []) (fun _ => Throw) (js "alice")
         (projectId stored) all_reads (Some b')
       = Some {| loaded_metadata := metadata stored;
                 loaded_files :=
                   {[ js "server.js" := js "app.listen(3000)" ]} |}.
Proof.
  destruct (X14_saved_project_loads_back (fun _ => []) (fun _ => Throw)
              (js "alice") proto_project
              [ (js "server.js", js "app.listen(3000)");
                (js "__proto__", js "{}") ]
              1700000000000 (js "0.4fzyo82mvyr") 0 [] (js "t0")
              (fun _ => true) ∅)
    as (stored & b' & Hsave & _ & Hblob & Hget).
  - reflexivity.
  - apply (bool_decide_unpack _). vm_compute. exact I.
  - intros f text [[= <- <-] | [[= <- <-] | []]]; split; discriminate.
  - reflexivity.
  - intros nm _. apply lookup_empty.
  - exists stored, b'. split; [exact Hsave|]. split.
    + apply (Hblob (js "__proto__") (js "{}")). right. now left.
    + exact Hget.
Defined.

(** X15: a generated file named [project.json] takes the place of the
    metadata object.  When every write goes through and the entries of
    [files] include [project.json], [saveProject] still returns the first
    identifier and the metadata, but the object under the metadata path
    holds the text of the file; when that text is not JSON, [getProject]
    returns [null] for the project just saved. *)
Theorem X15_project_json_file_replaces_metadata :
  forall (userId : jsstring) (pd : ProjectData)
         (entries : list (jsstring * jsstring)) (text : jsstring)
         (ms1 : N) (rnd1 : jsstring) (ms2 : N) (rnd2 t : jsstring)
         (save_ok : jsstring -> bool) (b : bucket_files),
    files pd = Some entries ->
    entries_of_object entries ->
    In (js "project.json", text) entries ->
    (forall p, save_ok p = true) ->
    exists stored b',
      saveProject userId (Some pd) ms1 rnd1 ms2 rnd2 t save_ok (Some b)
      = (Return stored, Some b')
      /\ projectId stored = generateProjectId ms1 rnd1
      /\ is_Some (metadata stored !! "name"%string)
      /\ b' !! object_path userId (projectId stored) (js "project.json")
         = Some {| blob_content := Text text;
                   contentType := Mime (js "application/json") |}
      /\ forall stringify parse r,
           parse text = Throw ->
           getProject stringify parse userId (projectId stored) r (Some b')
           = None.
Proof.
  intros userId pd entries text ms1 rnd1 ms2 rnd2 t save_ok b
    Hfiles Hnd Hin Hok.
  unfold saveProject, try_save.
  rewrite Hok, Hfiles, save_files_all_ok by exact Hok.
  eexists _, _. split; [reflexivity|]. split; [reflexivity|].
  split; [eexists; reflexivity|].
  cbn [projectId].
  match goal with
  | |- ?l = _ /\ _ => assert (Hblob : l = Some
        {| blob_content := Text text;
           contentType := Mime (js "application/json") |})
  end.
  { rewrite <- project_path_assoc.
    apply (saved_files_lookup _ entries _ _ _ Hnd).
    left. exists (js "project.json"), text. auto. }
  split; [exact Hblob|].
  intros stringify parse r Hparse. unfold getProject.
  rewrite <- project_path_assoc in Hblob.
  destruct (exists_ok r); [|reflexivity]. cbn [negb].
  replace (js "users/" ++ userId ++ js "/projects/"
           ++ generateProjectId ms1 rnd1 ++ js "/project.json")
    with ((js "users/" ++ userId ++ js "/projects/"
           ++ generateProjectId ms1 rnd1) ++ js "/" ++ js "project.json")
    by (now rewrite <- !app_assoc).
  rewrite Hblob.
  destruct (download_ok r _); [|reflexivity].
  cbn [negb blob_content parse_content]. now rewrite Hparse.
Qed.

Lemma X15_project_json_file_replaces_metadata_witness :
  exists stored b',
    saveProject (js "alice") (Some clobbering_project) 1700000000000
      (js "0.4fzyo82mvyr") 0 [] (js "t0") (fun _ => true) (Some ∅)
    = (Return stored, Some b')
    /\ getProject (fun _ => []) (fun _ => Throw) (js "alice")
         (projectId stored) all_reads (Some b') = None.
Proof.
  destruct (X15_project_json_file_replaces_metadata (js "alice")
              clobbering_project [ (js "project.json", js "not json") ]
              (js "not json") 1700000000000 (js "0.4fzyo82mvyr") 0 []
              (js "t0") (fun _ => true) ∅)
    as (stored & b' & Hsave & _ & _ & _ & Hget).
  - reflexivity.
  - apply (bool_decide_unpack _). vm_compute. exact I.
  - left. reflexivity.
  - reflexivity.
  - exists stored, b'. split; [exact Hsave|]. now apply Hget.
Defined.

(** ** The authentication middleware *)

Lemma bearer_header_passes (h : jsstring) (initialised : bool)
    (verifyIdToken : jsstring -> outcome (jsstring * option jsstring)) :
  startsWith h (js "Bearer ") = true ->
  exists u,
    authenticateUser (Some h) initialised verifyIdToken = Next u
    /\ token u = drop 7 h
    /\ (initialised = false \/ verifyIdToken (drop 7 h) = Throw ->
        u = fallback_user (drop 7 h)).
Proof.
  intros Hb. unfold authenticateUser.
  change (default [] (Some h)) with h. cbn [truthy_opt].
  rewrite Hb.
  assert (truthy h = true) as -> by (destruct h; [discriminate | reflexivity]).
  cbn [negb orb].
  destruct initialised; cbn [negb].
  - destruct (verifyIdToken (drop 7 h)) as [[id mail]|] eqn:Ev.
    + eexists. split; [reflexivity|]. split; [reflexivity|].
      intros [|]; discriminate.
    + eexists. split; [reflexivity|]. split; reflexivity.
  - eexists. split; [reflexivity|]. split; reflexivity.
Qed.

(** X16: a request whose [authorization] header starts with "Bearer " is
    never turned away: whatever the token is and whatever its
    verification says, the handler runs with a user carrying that token.
    When the admin SDK is not initialised or the verification fails, the
    user identifier is "user_" followed by the first ten code units of
    the token, so two tokens that agree on these ten code units are the
    same user, and the status endpoint gives both the same answer for
    every job. *)
Theorem X16_bearer_header_is_never_refused :
  forall (h1 h2 : jsstring) (initialised : bool)
         (verifyIdToken : jsstring -> outcome (jsstring * option jsstring)),
    startsWith h1 (js "Bearer ") = true ->
    startsWith h2 (js "Bearer ") = true ->
    exists u1 u2,
      authenticateUser (Some h1) initialised verifyIdToken = Next u1
      /\ authenticateUser (Some h2) initialised verifyIdToken = Next u2
      /\ token u1 = drop 7 h1 /\ token u2 = drop 7 h2
      /\ (substring0 10 (drop 7 h1) = substring0 10 (drop 7 h2) ->
          initialised = false
          \/ (verifyIdToken (drop 7 h1) = Throw
              /\ verifyIdToken (drop 7 h2) = Throw) ->
          uid u1 = uid u2
          /\ forall jobId ok st,
               app_creation_status jobId (uid u1) ok st
               = app_creation_status jobId (uid u2) ok st).
Proof.
  intros h1 h2 initialised verifyIdToken H1 H2.
  destruct (bearer_header_passes h1 initialised verifyIdToken H1)
    as (u1 & Ha1 & Ht1 & Hf1).
  destruct (bearer_header_passes h2 initialised verifyIdToken H2)
    as (u2 & Ha2 & Ht2 & Hf2).
  exists u1, u2. repeat (split; [assumption|]).
  intros Hten Hfall.
  assert (Hu : uid u1 = uid u2).
  { rewrite Hf1, Hf2 by (destruct Hfall as [|[? ?]]; auto).
    unfold fallback_user. cbn [uid]. now rewrite Hten. }
  split; [exact Hu|]. intros jobId ok st. now rewrite Hu.
Qed.

Lemma X16_bearer_header_is_never_refused_witness :
  exists u1 u2,
    authenticateUser (Some (js "Bearer eyJhbGciOiJSUzI1NiIsImtpZCI6IjEifQ"))
      true (fun _ => Throw) = Next u1
    /\ authenticateUser (Some (js "Bearer eyJhbGciOiJub25lIn0"))
         true (fun _ => Throw) = Next u2
    /\ uid u1 = js "user_eyJhbGciOi"
    /\ uid u1 = uid u2.
Proof.
  destruct (X16_bearer_header_is_never_refused
              (js "Bearer eyJhbGciOiJSUzI1NiIsImtpZCI6IjEifQ")
              (js "Bearer eyJhbGciOiJub25lIn0")
              true (fun _ => Throw))
    as (u1 & u2 & Ha1 & Ha2 & _ & _ & Hsame);
    [reflexivity | reflexivity |].
  exists u1, u2. split; [exact Ha1|]. split; [exact Ha2|].
  destruct Hsame as [Hu _]; [reflexivity | right; split; reflexivity |].
  split; [|exact Hu].
  injection Ha1 as <-. reflexivity.
Defined.

(** ** Content types *)

Lemma split_nonempty (sep : N) (s : jsstring) : split sep s <> [].
Proof.
  destruct s as [|c s]; simpl; [discriminate|].
  destruct (c =? sep); [discriminate|].
  destruct (split sep s); discriminate.
Qed.

Lemma split_without_separator (sep : N) (s : jsstring) :
  ~ In sep s -> split sep s = [s].
Proof.
  induction s as [|c s IH]; intros Hno; simpl; [reflexivity|].
  destruct (N.eqb_spec c sep) as [->|Hne]; [elim Hno; now left|].
  rewrite IH by (intros H; apply Hno; now right). reflexivity.
Qed.

Lemma split_after_separator (sep : N) (p e : jsstring) :
  exists x l, split sep (p ++ sep :: e) = (x :: l) ++ split sep e.
Proof.
  induction p as [|c p (x & l & IH)]; simpl.
  - rewrite N.eqb_refl. now exists [], [].
  - destruct (c =? sep).
    + rewrite IH. now exists [], (x :: l).
    + rewrite IH. now exists (c :: x), l.
Qed.

Lemma last_split (sep : N) (p e : jsstring) :
  ~ In sep e ->
  last (split sep (p ++ sep :: e)) = Some e /\ last (split sep e) = Some e.
Proof.
  intros Hno. rewrite (split_without_separator sep e Hno).
  split; [|reflexivity].
  destruct (split_after_separator sep p e) as (x & l & ->).
  rewrite (split_without_separator sep e Hno).
  now rewrite last_snoc.
Qed.

Lemma lower1_idemp (c : N) : lower1 (lower1 c) = lower1 c.
Proof.
  unfold lower1.
  destruct ((65 <=? c) && (c <=? 90)) eqn:E; [|now rewrite E].
  apply andb_true_iff in E as [E1 E2].
  apply N.leb_le in E1, E2.
  destruct ((65 <=? c + 32) && (c + 32 <=? 90)) eqn:E'; [|reflexivity].
  apply andb_true_iff in E' as [_ E']. apply N.leb_le in E'. lia.
Qed.

Lemma lower1_dot (c : N) : lower1 c = 46 -> c = 46.
Proof.
  unfold lower1.
  destruct ((65 <=? c) && (c <=? 90)) eqn:E; [|auto].
  apply andb_true_iff in E as [E1 _]. apply N.leb_le in E1. lia.
Qed.

(** X17: the content type of a file depends only on what follows the
    last dot of its name, letter case apart; a name without a dot counts
    as its own extension. *)
Theorem X17_content_type_from_last_extension :
  forall (p e : jsstring),
    ~ In 46 e ->
    getContentType (p ++ js "." ++ e) = getContentType e
    /\ getContentType (toLowerCase e) = getContentType e.
Proof.
  intros p e Hno. unfold getContentType.
  destruct (last_split 46 p e Hno) as [H1 H2].
  change (p ++ js "." ++ e) with (p ++ 46 :: e).
  rewrite H1, H2. split; [reflexivity|].
  assert (Hno' : ~ In 46 (toLowerCase e)).
  { unfold toLowerCase. intros Hin. apply in_map_iff in Hin as (c & Hc & Hin).
    apply lower1_dot in Hc. now subst c. }
  destruct (last_split 46 [] (toLowerCase e) Hno') as [_ ->]. simpl.
  unfold toLowerCase. rewrite map_map.
  now rewrite (map_ext _ _ lower1_idemp).
Qed.

Lemma X17_content_type_from_last_extension_witness :
  getContentType (js "theme.min" ++ js "." ++ js "CSS")
  = Mime (js "text/css")
  /\ getContentType (js "json") = Mime (js "application/json").
Proof.
  destruct (X17_content_type_from_last_extension (js "theme.min") (js "CSS"))
    as [H1 _].
  - intros [|[|[|[]]]]; discriminate.
  - split; [rewrite H1|]; reflexivity.
Defined.

(** ** One user's projects and another's *)

Lemma save_files_frame (projectPath : jsstring)
    (entries : list (jsstring * jsstring)) (save_ok : jsstring -> bool)
    (b : bucket_files) (nm : jsstring) :
  (forall rest, nm <> projectPath ++ js "/" ++ rest) ->
  snd (save_files projectPath entries save_ok b) !! nm = b !! nm.
Proof.
  intros Hnm. revert b.
  induction entries as [|[f text] entries IH]; intros b; simpl;
    [reflexivity|].
  destruct (save_ok _); [|reflexivity].
  rewrite IH. apply lookup_insert_ne. intros Heq. now apply (Hnm f).
Qed.

Lemma in_user_directory (userId projectId rest : jsstring) :
  startsWith ((js "users/" ++ userId ++ js "/projects/" ++ projectId) ++ rest)
    (user_directory userId) = true.
Proof.
  apply startsWith_spec. exists (projectId ++ rest).
  unfold user_directory. now rewrite <- !app_assoc.
Qed.

(** [saveProject] writes under the directory of its user only. *)
Lemma saveProject_frame (userId : jsstring) (pd : option ProjectData)
    (ms1 : N) (rnd1 : jsstring) (ms2 : N) (rnd2 t : jsstring)
    (save_ok : jsstring -> bool) (b : bucket_files) :
  exists b',
    snd (saveProject userId pd ms1 rnd1 ms2 rnd2 t save_ok (Some b)) = Some b'
    /\ forall nm, startsWith nm (user_directory userId) = false ->
                  b' !! nm = b !! nm.
Proof.
  assert (Hout : forall nm full,
             startsWith nm (user_directory userId) = false ->
             startsWith full (user_directory userId) = true ->
             nm <> full) by (intros nm full Hnm Hfull ->; congruence).
  unfold saveProject, try_save.
  destruct pd as [pd|]; [|eexists; split; [reflexivity | reflexivity]].
  destruct (save_ok _); [|eexists; split; [reflexivity | reflexivity]].
  destruct (files pd) as [entries|].
  - match goal with
    | |- context [save_files ?p ?e ?s ?x] =>
        pose proof (fun nm H => save_files_frame p e s x nm H) as Hfr;
        destruct (save_files p e s x) as [[[]|] b2]
    end; cbn [snd] in *.
    + eexists. split; [reflexivity|]. intros nm Hnm.
      rewrite Hfr
        by (intros rest; apply (Hout _ _ Hnm), in_user_directory).
      apply lookup_insert_ne. apply not_eq_sym.
      apply (Hout _ _ Hnm), in_user_directory.
    + eexists. split; [reflexivity|]. intros nm Hnm.
      rewrite Hfr
        by (intros rest; apply (Hout _ _ Hnm), in_user_directory).
      apply lookup_insert_ne. apply not_eq_sym.
      apply (Hout _ _ Hnm), in_user_directory.
  - cbn [snd]. eexists. split; [reflexivity|]. intros nm Hnm.
    apply lookup_insert_ne. apply not_eq_sym.
    apply (Hout _ _ Hnm), in_user_directory.
Qed.

(** [getProject] reads under the directory of the project only. *)
Lemma getProject_frame (stringify : gmap string value -> jsstring)
    (parse : jsstring -> outcome (gmap string value))
    (userId projectId : jsstring) (r : reads) (b b' : bucket_files) :
  (forall nm, startsWith nm (object_path userId projectId []) = true ->
              b' !! nm = b !! nm) ->
  getProject stringify parse userId projectId r (Some b')
  = getProject stringify parse userId projectId r (Some b).
Proof.
  intros Hsame.
  assert (Hdir : forall nm,
             startsWith nm (js "users/" ++ userId ++ js "/projects/"
                            ++ projectId ++ js "/") = true ->
             b' !! nm = b !! nm).
  { intros nm Hnm. apply Hsame. apply startsWith_spec.
    apply startsWith_spec in Hnm as (rest & ->). exists rest.
    unfold object_path. rewrite <- !app_assoc. reflexivity. }
  unfold getProject.
  rewrite Hdir.
  2: { apply startsWith_spec. exists (js "project.json").
       rewrite <- !app_assoc. reflexivity. }
  assert (Hfilter :
    filter (fun kv => startsWith (fst kv)
                        (js "users/" ++ userId ++ js "/projects/"
                         ++ projectId ++ js "/") = true) b'
    = filter (fun kv => startsWith (fst kv)
                          (js "users/" ++ userId ++ js "/projects/"
                           ++ projectId ++ js "/") = true) b).
  { apply map_eq. intros nm. apply option_eq. intros x.
    rewrite !map_lookup_filter_Some. cbn [fst].
    split; intros [Hl Hp]; (split; [|exact Hp]).
    - now rewrite <- Hdir.
    - now rewrite Hdir. }
  now rewrite Hfilter.
Qed.

Lemma first_slash (u1 u2 x y : jsstring) :
  slash_free u1 -> slash_free u2 ->
  u1 ++ 47 :: x = u2 ++ 47 :: y -> u1 = u2.
Proof.
  unfold slash_free. revert u2.
  induction u1 as [|c u1 IH]; intros [|d u2] H1 H2 Heq; simpl in *.
  - reflexivity.
  - injection Heq as <- _. elim H2. now left.
  - injection Heq as -> _. elim H1. now left.
  - injection Heq as -> Heq. f_equal. apply (IH u2); auto.
Qed.

(** X18: saving a project for one user never changes what another user
    loads.  For two different user identifiers without a slash, whatever
    the project data and whichever writes are refused, [getProject] of
    the second user gives the same result on the bucket left by
    [saveProject] of the first as on the bucket before. *)
Theorem X18_projects_of_other_users_untouched :
  forall (stringify : gmap string value -> jsstring)
         (parse : jsstring -> outcome (gmap string value))
         (u1 u2 projectId : jsstring) (pd : option ProjectData)
         (ms1 : N) (rnd1 : jsstring) (ms2 : N) (rnd2 t : jsstring)
         (save_ok : jsstring -> bool) (r : reads) (b : bucket_files),
    slash_free u1 -> slash_free u2 -> u1 <> u2 ->
    getProject stringify parse u2 projectId r
      (snd (saveProject u1 pd ms1 rnd1 ms2 rnd2 t save_ok (Some b)))
    = getProject stringify parse u2 projectId r (Some b).
Proof.
  intros stringify parse u1 u2 projectId pd ms1 rnd1 ms2 rnd2 t save_ok r b
    H1 H2 Hne.
  destruct (saveProject_frame u1 pd ms1 rnd1 ms2 rnd2 t save_ok b)
    as (b' & -> & Hfr).
  apply getProject_frame. intros nm Hnm. apply Hfr.
  destruct (startsWith nm (user_directory u1)) eqn:E; [|reflexivity].
  exfalso. apply Hne.
  apply startsWith_spec in Hnm as (x & ->).
  apply startsWith_spec in E as (y & E).
  unfold object_path, user_directory in E.
  rewrite <- !app_assoc in E. apply app_inv_head in E.
  symmetry. eapply first_slash; [exact H2 | exact H1 | exact E].
Qed.

Lemma X18_projects_of_other_users_untouched_witness :
  getProject (fun _ => []) (fun _ => Throw) (js "bob") (js "p1") all_reads
    (snd (saveProject (js "alice") (Some full_project) 1700000000000
            (js "0.4fzyo82mvyr") 0 [] (js "t0") (fun _ => true) (Some ∅)))
  = None.
Proof.
  rewrite (X18_projects_of_other_users_untouched (fun _ => [])
             (fun _ => Throw) (js "alice") (js "bob")).
  - reflexivity.
  - intros [|[|[|[|[|[]]]]]]; discriminate.
  - intros [|[|[|[]]]]; discriminate.
  - discriminate.
Defined.

(** ** Project identifiers *)

(** X19: two project identifiers whose random parts have the same length
    are equal only when they were drawn in the same millisecond with the
    same random part. *)
Theorem X19_project_ids_tell_time_and_suffix :
  forall (ms ms' : N) (rnd rnd' : jsstring),
    length (substr 2 5 rnd) = length (substr 2 5 rnd') ->
    generateProjectId ms rnd = generateProjectId ms' rnd' ->
    ms = ms' /\ substr 2 5 rnd = substr 2 5 rnd'.
Proof.
  intros ms ms' rnd rnd' Hlen Heq. unfold generateProjectId in Heq.
  apply app_inj_2 in Heq as [Hms Hsuf]; [|exact Hlen].
  split; [|exact Hsuf].
  rewrite <- (toString36_value ms), <- (toString36_value ms').
  now rewrite Hms.
Qed.

Lemma X19_project_ids_tell_time_and_suffix_witness :
  generateProjectId 1700000000000 (js "0.4fzyo82mvyr")
  = generateProjectId 1700000000000 (js "0.4fzyoaaaaaa")
  /\ (1700000000000 = 1700000000000
      /\ substr 2 5 (js "0.4fzyo82mvyr") = substr 2 5 (js "0.4fzyoaaaaaa")).
Proof.
  split; [reflexivity|].
  apply (X19_project_ids_tell_time_and_suffix 1700000000000 1700000000000
           (js "0.4fzyo82mvyr") (js "0.4fzyoaaaaaa")); reflexivity.
Defined.

(** ** The stage classifier *)

Lemma includes_prefix (s a b : jsstring) :
  includes s (a ++ b) = true -> includes s a = true.
Proof.
  rewrite !includes_spec. intros (x & y & ->).
  exists x, (b ++ y). now rewrite <- !app_assoc.
Qed.

(** X20: [determineStage] answers [authenticating] only for a text that
    contains "completing" and does not contain "auth" in any letter
    case; a text with the word "authenticating" is classified as
    [creating] or [waiting_auth]. *)
Theorem X20_authenticating_needs_completing :
  forall output : jsstring,
    (determineStage output = authenticating ->
     includes (toLowerCase output) (js "completing") = true
     /\ includes (toLowerCase output) (js "auth") = false)
    /\ (includes (toLowerCase output) (js "authenticating") = true ->
        determineStage output = creating
        \/ determineStage output = waiting_auth).
Proof.
  intros output. unfold determineStage.
  set (l := toLowerCase output).
  assert (Hpre : includes l (js "authenticating") = true ->
                 includes l (js "auth") = true)
    by apply (includes_prefix l (js "auth") (js "enticating")).
  destruct (includes l (js "creating app") || includes l (js "setting up")
            || includes l (js "initializing"));
    [split; [discriminate | auto]|].
  destruct (includes l (js "auth")) eqn:Eauth.
  - rewrite orb_true_r. simpl. split; [discriminate | auto].
  - destruct (includes l (js "authenticating")) eqn:Eing;
      [now specialize (Hpre eq_refl)|].
    destruct (includes l (js "authentication") || false
              || includes l (js "visit")
              || includes l (js "partners.shopify.com"));
      [split; [discriminate | discriminate]|].
    simpl. destruct (includes l (js "completing")) eqn:Ecomp.
    + split; [auto | discriminate].
    + split; [|discriminate].
      destruct (_ || _ || _); [discriminate|].
      destruct (_ || _ || _); discriminate.
Qed.

Lemma X20_authenticating_needs_completing_witness :
  determineStage (js "Completing setup") = authenticating
  /\ includes (toLowerCase (js "Completing setup")) (js "completing") = true.
Proof.
  split; [reflexivity|].
  apply (proj1 (X20_authenticating_needs_completing (js "Completing setup"))).
  reflexivity.
Defined.

(** ** The output the status endpoint shows *)

Section ReportedOutput.

Variables jobId userId appName : jsstring.

(** After the second half of the callback the record shows the buffer. *)
Lemma settle_in_sync (r : bool) (nl : list jsstring) (o : observation)
    (w : world) (m0 : monitor) (j : job) :
  record_of jobId w = Some j ->
  in_sync jobId (settle jobId userId appName r nl o w m0).
Proof.
  intros Hj.
  destruct (settle_shape jobId userId appName r nl o w m0)
    as (own & upd' & _ & _ & Hupd & Hout).
  destruct (settle_is_update jobId userId appName r nl o w m0)
    as (upd & w0 & Hs & Hmem & Hlog & _).
  rewrite Hs in *.
  assert (upd' = upd) as ->.
  { simpl in Hupd. rewrite Hlog in Hupd.
    apply app_inv_head in Hupd. congruence. }
  assert (Hj0 : record_of jobId w0 = Some j)
    by (unfold record_of in *; now rewrite Hmem).
  unfold in_sync. rewrite (record_after_update jobId upd _ _ w0 j Hj0).
  eexists. split; [reflexivity|].
  rewrite merge_lookup. simpl. now rewrite Hout.
Qed.

Lemma failure_in_sync (j : jsstring) (msg t : jsstring) (ok : bool)
    (w w0 : world) :
  in_sync jobId w0 -> vars w = vars w0 -> jobs w = jobs w0 ->
  inMemoryJobs (jobs (call_update j (failure msg) t ok w)) !! jobId
  = inMemoryJobs (jobs w) !! jobId
    \/ exists old, record_of jobId w0 = Some old
         /\ inMemoryJobs (jobs (call_update j (failure msg) t ok w)) !! jobId
            = Some (merge old (failure msg) (VStr t)).
Proof.
  intros (old & Hold & _) Hv Hjobs.
  destruct (decide (j = jobId)) as [->|Hne].
  - right. exists old. split; [exact Hold|]. simpl. rewrite Hjobs.
    unfold record_of in Hold.
    rewrite (update_of_memory_job _ _ _ _ _ _ Hold). simpl.
    apply lookup_insert_eq.
  - left. simpl. now apply update_other_job.
Qed.

Lemma failure_keeps_sync (j : jsstring) (msg t : jsstring) (ok : bool)
    (w : world) :
  in_sync jobId w -> in_sync jobId (call_update j (failure msg) t ok w).
Proof.
  intros Hs.
  destruct (failure_in_sync j msg t ok w w Hs eq_refl eq_refl)
    as [Hsame | (old & Hold & Hnew)].
  - destruct Hs as (old & Hold & Hout). exists old.
    split; [|exact Hout]. unfold record_of in *. now rewrite Hsame.
  - destruct Hs as (old' & Hold' & Hout).
    assert (old' = old) as -> by congruence.
    eexists. split; [exact Hnew|].
    rewrite merge_lookup. simpl. exact Hout.
Qed.

Lemma step_in_sync (w : world) (e : event) :
  in_sync jobId w -> in_sync jobId (step jobId userId appName w e).
Proof.
  intros Hs. destruct e as [o|t ok|j t ok]; simpl.
  - destruct (polling w); [|exact Hs]. unfold tick.
    destruct (_ || _); [exact Hs|].
    destruct (processCheck o) as [[ps pserr]|]; [|exact Hs].
    destruct Hs as (old & Hold & _).
    destruct (logRead o) as [[log err]|].
    + destruct (read_log (vars w) log) as [nl m].
      now apply (settle_in_sync _ _ _ _ _ old).
    + now apply (settle_in_sync _ _ _ _ _ old).
  - unfold ceiling. destruct (_ && _); [|exact Hs].
    apply (failure_keeps_sync jobId timeout_message t ok (clear_interval w)).
    exact Hs.
  - unfold abandon. case_bool_decide; [|exact Hs].
    apply (failure_keeps_sync j abandoned_message t ok (delete_active j w)).
    exact Hs.
Qed.

Lemma run_in_sync (es : list event) :
  forall w, in_sync jobId w -> in_sync jobId (run jobId userId appName w es).
Proof.
  induction es as [|e es IH]; intros w Hs; unfold run in *; simpl;
    [exact Hs|].
  apply IH. now apply step_in_sync.
Qed.

Lemma in_sync_reported (w : world) :
  in_sync jobId w -> reported_output jobId w = outputBuffer (vars w).
Proof.
  intros (j & Hj & Hout). unfold reported_output. now rewrite Hj, Hout.
Qed.

(** X21: the output the status endpoint shows for a job only grows once
    a poll has written it.  A tick that gets as far as reading the log
    leaves the record of a job held in memory with the buffer of the
    monitor as its output; from then on, after any sequence of ticks,
    ceiling time-outs and sweeps, the record still shows the buffer, and
    the output it shows is the earlier output followed by new lines. *)
Theorem X21_reported_output_only_grows :
  forall (w : world) (o : observation) (j : job) (es : list event),
    tick_runs jobId w -> polling w = true ->
    returned (processCheck o) = true ->
    record_of jobId w = Some j ->
    let w1 := step jobId userId appName w (Tick o) in
    let w2 := run jobId userId appName w1 es in
    reported_output jobId w1 = outputBuffer (vars w1)
    /\ reported_output jobId w2 = outputBuffer (vars w2)
    /\ exists added,
         reported_output jobId w2 = reported_output jobId w1 ++ added.
Proof.
  intros w o j es [Ha Hc] Hp Hps Hj w1 w2.
  assert (Hs1 : in_sync jobId w1).
  { subst w1. simpl. rewrite Hp. unfold tick.
    rewrite (bool_decide_eq_true_2 _ Ha), Hc. simpl.
    destruct (processCheck o) as [[ps pserr]|]; [|discriminate].
    destruct (logRead o) as [[log err]|].
    - destruct (read_log (vars w) log) as [nl m].
      now apply (settle_in_sync _ _ _ _ _ j).
    - now apply (settle_in_sync _ _ _ _ _ j). }
  assert (Hs2 : in_sync jobId w2) by (subst w2; now apply run_in_sync).
  rewrite !in_sync_reported by assumption.
  split; [reflexivity|]. split; [reflexivity|].
  subst w2. apply run_buffer_prefix.
Qed.

(** X22: a tick whose process check is rejected does nothing, so while
    the check keeps being rejected a job stays as it is, also when the
    project directory already holds the completion markers, until the
    ceiling fails it. *)
Theorem X22_rejected_check_hides_completion :
  forall (os : list observation) (w : world) (t : jsstring) (ok : bool),
    tick_runs jobId w ->
    Forall (fun o => processCheck o = Throw) os ->
    let w1 := run jobId userId appName w (map Tick os) in
    let w2 := step jobId userId appName w1 (Ceiling t ok) in
    w1 = w
    /\ updates w2 = updates w ++ [(jobId, failure timeout_message)]
    /\ quiet jobId w2.
Proof.
  intros os w t ok [Ha Hc] Hos w1 w2.
  assert (H1 : w1 = w).
  { subst w1. induction Hos as [|o os Ho _ IH]; [reflexivity|].
    unfold run in *. simpl. destruct (polling w); [|exact IH].
    unfold tick. rewrite (bool_decide_eq_true_2 _ Ha), Hc, Ho. exact IH. }
  split; [exact H1|]. subst w2. rewrite H1. simpl. unfold ceiling. simpl.
  rewrite (bool_decide_eq_true_2 _ Ha), Hc. simpl.
  split; [reflexivity|]. split; [reflexivity|].
  intros Hin. apply elem_of_difference in Hin as [_ Hin]. apply Hin.
  now apply elem_of_singleton.
Qed.

End ReportedOutput.

Lemma X21_reported_output_only_grows_witness :
  let w := started (js "job_1") (js "shop") memory_store ∅ in
  let w1 := step (js "job_1") (js "u") (js "shop") w (Tick prompt_seen) in
  let w2 :=
    run (js "job_1") (js "u") (js "shop") w1
      [Tick other_prompt_seen; Ceiling (js "t9") true] in
  reported_output (js "job_1") w = []
  /\ length (reported_output (js "job_1") w1) = 5%nat
  /\ exists added,
       reported_output (js "job_1") w2
       = reported_output (js "job_1") w1 ++ added.
Proof.
  split; [reflexivity|]. split; [reflexivity|].
  refine (proj2 (proj2
    (X21_reported_output_only_grows (js "job_1") (js "u") (js "shop")
       (started (js "job_1") (js "shop") memory_store ∅) prompt_seen
       (newJob (js "job_1") (js "u") (js "shop") (js "t0"))
       [Tick other_prompt_seen; Ceiling (js "t9") true] _ _ _ _))).
  - split; [|reflexivity].
    apply elem_of_union_l, elem_of_singleton. reflexivity.
  - reflexivity.
  - reflexivity.
  - reflexivity.
Defined.

Lemma X22_rejected_check_hides_completion_witness :
  let w := started (js "job_1") (js "shop") memory_store ∅ in
  let w2 :=
    run (js "job_1") (js "u") (js "shop") w
      [Tick check_rejected; Tick check_rejected; Ceiling (js "t9") true] in
  markers_observed (markers_found true)
  /\ filesCheck check_rejected = filesCheck (markers_found true)
  /\ updates w2 = [(js "job_1", failure timeout_message)]
  /\ status_of (js "job_1") w2 = VStr (js "failed").
Proof.
  split.
  { repeat split; try reflexivity.
    - exists (js "total 16"), []. repeat split; reflexivity.
    - eexists _, []. repeat split; reflexivity. }
  split; [reflexivity|]. split; [|reflexivity].
  refine (proj1 (proj2
    (X22_rejected_check_hides_completion (js "job_1") (js "u") (js "shop")
       [check_rejected; check_rejected]
       (started (js "job_1") (js "shop") memory_store ∅) (js "t9") true
       _ _))).
  - split; [|reflexivity].
    apply elem_of_union_l, elem_of_singleton. reflexivity.
  - repeat constructor.
Defined.

Lemma X8_setup_only_for_owner_witness :
  let r :=
    complete_app_setup (Some (js "job_1")) (js "bob") true (js "t1") true
      two_users_store in
  code (fst r) = 403 /\ snd r = two_users_store.
Proof.
  split; [reflexivity|].
  apply (proj1 (proj2
    (X8_setup_only_for_owner (Some (js "job_1")) (js "bob") (js "t1")
       true true two_users_store))).
  discriminate.
Defined.

(** ** The page and the endpoints *)

Lemma trimStart_fixed (s : jsstring) :
  (forall c r, s = c :: r -> isWhiteSpace c = false) -> trimStart s = s.
Proof.
  destruct s as [|c r]; [reflexivity|]. intros H. simpl.
  now rewrite (H c r eq_refl).
Qed.

Lemma trimStart_head (s : jsstring) (c : N) (r : jsstring) :
  trimStart s = c :: r -> isWhiteSpace c = false.
Proof.
  induction s as [|d s IH]; simpl; [discriminate|].
  destruct (isWhiteSpace d) eqn:E; [exact IH|].
  intros [= <- <-]. exact E.
Qed.

Lemma trim_idemp (s : jsstring) : trim (trim s) = trim s.
Proof.
  unfold trim, trimEnd.
  set (t := trimStart s).
  set (u := rev (trimStart (rev t))).
  assert (Hu : trimStart u = u).
  { apply trimStart_fixed. intros c r Hc.
    destruct (trimStart_suffix (rev t)) as (a & Ha).
    apply (f_equal (@rev N)) in Ha. rewrite rev_involutive, rev_app_distr in Ha.
    fold u in Ha. rewrite Hc in Ha. simpl in Ha.
    apply (trimStart_head s c (r ++ rev a)). exact Ha. }
  rewrite Hu. subst u. rewrite rev_involutive.
  rewrite (trimStart_fixed (trimStart (rev t))); [reflexivity|].
  intros c r Hc. now apply (trimStart_head (rev t) c r).
Qed.

(** X23: the set-up page and the creation endpoint agree on app names.
    For every text of the input field, the page of a signed-in user
    sends a request exactly when the endpoint would accept that text,
    what it sends is the trimmed text, and the endpoint accepts what the
    page sends. *)
Theorem X23_page_and_endpoint_agree_on_names :
  forall (value userId jobId t : jsstring) (ok : bool) (st : store),
    (is_Some (handleCreateApp value true)
     <-> code (fst (create_shopify_app userId value jobId t ok st)) = 200)
    /\ forall appName,
         handleCreateApp value true = Some appName ->
         appName = trim value
         /\ code (fst (create_shopify_app userId appName jobId t ok st)) = 200.
Proof.
  intros value userId jobId t ok st.
  assert (Hsent : handleCreateApp value true
                  = if truthy (trim value)
                       && forallb name_class (trim value)
                    then Some (trim value) else None).
  { unfold handleCreateApp, validateAppName, validPattern.
    rewrite test_whole_plus, trim_idemp.
    destruct (truthy (trim value)) eqn:Et; [|reflexivity]. simpl.
    destruct (forallb name_class (trim value)); [|reflexivity]. simpl.
    destruct (trim value); [discriminate | reflexivity]. }
  rewrite Hsent, !create_accepts_iff, <- truthy_nonempty.
  destruct (truthy (trim value)) eqn:Et; simpl.
  - destruct (forallb name_class (trim value)) eqn:Ef.
    + split; [split; [auto | eauto]|].
      intros appName [= <-]. split; [reflexivity|].
      rewrite create_accepts_iff, trim_idemp, <- truthy_nonempty. auto.
    + split; [|discriminate].
      split; [intros [? ?]; discriminate | intros [_ ?]; discriminate].
  - split; [|discriminate].
    split; [intros [? ?]; discriminate | intros [? _]; discriminate].
Qed.

Lemma X23_page_and_endpoint_agree_on_names_witness :
  handleCreateApp (js "  my shop ") true = Some (js "my shop")
  /\ code (fst (create_shopify_app (js "u") (js "my shop") (js "job_1")
                  (js "t0") true memory_store)) = 200.
Proof.
  split; [reflexivity|].
  apply (proj2 (X23_page_and_endpoint_agree_on_names (js "  my shop ")
                  (js "u") (js "job_1") (js "t0") true memory_store)).
  reflexivity.
Defined.

Lemma show_stage_output (d : gmap string value) (p : page) :
  outputLines (show_stage d p) = outputLines p.
Proof.
  unfold show_stage. destruct (field d "stage"); try reflexivity.
  case_bool_decide.
  { now destruct (truthy_value (field d "authUrl")). }
  case_bool_decide; [reflexivity|].
  destruct (_ || _); reflexivity.
Qed.

Lemma show_stage_keeps_polling (d : gmap string value) (p : page) :
  ~ final_stage (field d "stage") ->
  isPolling (show_stage d p) = isPolling p
  /\ (section (show_stage d p) = section p
      \/ section (show_stage d p) = AuthView).
Proof.
  unfold show_stage, final_stage. intros Hnf.
  destruct (field d "stage") as [| | |stage| | |]; auto.
  case_bool_decide as H1.
  - destruct (truthy_value (field d "authUrl")); auto.
  - case_bool_decide as H2; [subst; exfalso; auto|].
    case_bool_decide as H3; [subst; exfalso; auto|].
    case_bool_decide as H4; [subst; exfalso; auto|].
    auto.
Qed.

Lemma fold_append (l : list jsstring) (p : page) :
  outputLines (fold_left appendToOutput l p) = outputLines p ++ l
  /\ isPolling (fold_left appendToOutput l p) = isPolling p
  /\ section (fold_left appendToOutput l p) = section p.
Proof.
  revert p. induction l as [|x l IH]; intros p; simpl.
  - now rewrite app_nil_r.
  - destruct (IH (appendToOutput p x)) as (-> & -> & ->). simpl.
    now rewrite <- app_assoc.
Qed.

(** What the status endpoint answers to the owner of a record held in
    memory. *)
Lemma status_of_memory_job (jobId userId : jsstring) (ok : bool)
    (st : store) (j : job) :
  inMemoryJobs st !! jobId = Some j ->
  j !! "userId"%string = Some (VStr userId) ->
  let r := app_creation_status jobId userId ok st in
  code r = 200
  /\ field (body r) "stage" = field j "stage"
  /\ field (body r) "error" = field j "error"
  /\ field (body r) "authUrl" = field j "authUrl"
  /\ field (body r) "output" = output_or_empty (field j "output").
Proof.
  intros Hj Hown r. subst r.
  unfold app_creation_status, getAppCreationJob. rewrite Hj.
  assert (Ho : field j "userId" = VStr userId)
    by (unfold field; now rewrite Hown).
  rewrite Ho. simpl.
  rewrite (bool_decide_eq_true_2 (userId = userId)) by reflexivity.
  repeat split.
Qed.

(** One poll of a job whose record is in memory and shows lines. *)
Lemma poll_of_memory_job (jobId userId : jsstring) (ok : bool) (st : store)
    (j : job) (lines : list jsstring) (p : page) :
  inMemoryJobs st !! jobId = Some j ->
  j !! "userId"%string = Some (VStr userId) ->
  j !! "output"%string = Some (VLines lines) ->
  isPolling p = true ->
  let p' := checkAppCreationStatus
              (app_creation_status jobId userId ok st) p in
  outputLines p' = outputLines p ++ lines
  /\ (~ final_stage (field j "stage") ->
      isPolling p' = true
      /\ (section p' = section p \/ section p' = AuthView)).
Proof.
  intros Hj Hown Hout Hp p'. subst p'.
  destruct (status_of_memory_job jobId userId ok st j Hj Hown)
    as (Hc & Hst & _ & _ & Ho).
  remember (body (app_creation_status jobId userId ok st)) as d eqn:Ed in *.
  unfold checkAppCreationStatus. rewrite Hp, Hc.
  change ((200 <=? 200) && (200 <=? 299)) with true. cbv iota.
  assert (Hfo : output_or_empty (field j "output") = VLines lines)
    by (unfold field; now rewrite Hout).
  unfold updateProgressUI. rewrite <- Ed, Ho, Hfo.
  destruct (fold_append lines p) as (Hl & Hpol & Hsec).
  split; [now rewrite show_stage_output|].
  intros Hnf. rewrite <- Hst in Hnf.
  destruct (show_stage_keeps_polling _
              (fold_left appendToOutput lines p) Hnf) as [Hk Hs].
  rewrite Hk, Hpol, Hp. split; [reflexivity|].
  now rewrite Hsec in Hs.
Qed.

Lemma polls_of_unfinished_job (jobId userId : jsstring) (ok : bool)
    (ws : list world) :
  forall p,
    isPolling p = true ->
    Forall (unfinished jobId userId) ws ->
    outputLines (polls jobId userId ok ws p)
    = outputLines p ++ concat (map (reported_output jobId) ws)
    /\ isPolling (polls jobId userId ok ws p) = true.
Proof.
  induction ws as [|w ws IH]; intros p Hp Hws; simpl.
  - now rewrite app_nil_r.
  - apply List.Forall_cons_iff in Hws as [(j & lines & Hj & Hown & Hout & Hnf) Hws].
    destruct (poll_of_memory_job jobId userId ok (jobs w) j lines p
                Hj Hown Hout Hp) as [Hl Hk].
    destruct (Hk Hnf) as [Hp' _].
    destruct (IH _ Hp' Hws) as [-> ->].
    rewrite Hl. split; [|reflexivity].
    unfold reported_output. rewrite Hj, Hout. now rewrite <- app_assoc.
Qed.

(** X24: the page shows every reported line again at each poll.  While
    the record of a job of the user is in memory at a stage other than
    completed, failed and error, every poll appends the whole output of
    the record to the output panel and polling goes on: after polls in
    the worlds [ws] the panel holds what it held followed by the
    outputs reported in each of these worlds, one after the other. *)
Theorem X24_page_repeats_reported_lines :
  forall (jobId userId : jsstring) (ok : bool) (ws : list world) (p : page),
    isPolling p = true ->
    Forall (unfinished jobId userId) ws ->
    let p' := polls jobId userId ok ws p in
    outputLines p'
    = outputLines p ++ concat (map (reported_output jobId) ws)
    /\ isPolling p' = true.
Proof.
  intros jobId userId ok ws p Hp Hws p'. subst p'.
  now apply polls_of_unfinished_job.
Qed.

Lemma X24_page_repeats_reported_lines_witness :
  let w :=
    run (js "job_1") (js "u") (js "shop")
      (started (js "job_1") (js "shop") memory_store ∅)
      [Tick login_needed] in
  let p' := polls (js "job_1") (js "u") true [w; w] polling_page in
  length (reported_output (js "job_1") w) = 5%nat
  /\ outputLines p'
     = [js "Starting Shopify CLI..."]
       ++ reported_output (js "job_1") w ++ reported_output (js "job_1") w.
Proof.
  split; [reflexivity|].
  pose proof (X24_page_repeats_reported_lines (js "job_1") (js "u") true
                [ run (js "job_1") (js "u") (js "shop")
                    (started (js "job_1") (js "shop") memory_store ∅)
                    [Tick login_needed];
                  run (js "job_1") (js "u") (js "shop")
                    (started (js "job_1") (js "shop") memory_store ∅)
                    [Tick login_needed] ]
                polling_page eq_refl) as H.
  destruct H as [H _].
  - assert (Hu : unfinished (js "job_1") (js "u")
                   (run (js "job_1") (js "u") (js "shop")
                      (started (js "job_1") (js "shop") memory_store ∅)
                      [Tick login_needed])).
    { eexists _, _. split; [reflexivity|]. split; [reflexivity|].
      split; [reflexivity|].
      intros [H | [H | H]]; vm_compute in H; discriminate. }
    repeat constructor; exact Hu.
  - rewrite H. simpl. now rewrite app_nil_r.
Defined.

(** ** The page after a refused metadata write *)

Section EndlessPolling.

Variables jobId userId appName : jsstring.

(** X25: after the poll that finds the completion markers while the
    document store refuses the metadata, the set-up page of the owner
    never leaves the polling state.  The record of the job, held in
    memory at a stage other than completed, failed and error, keeps its
    stage; whatever timer events follow, each later poll of the page is
    answered with that stage, so after any number of polls the page is
    still polling. *)
Theorem X25_page_polls_forever_after_refused_metadata :
  forall (o : observation) (w : world) (j : job) (ok : bool)
         (ess : list (list event)) (p : page),
    tick_runs jobId w -> markers_observed o ->
    db (jobs w) <> None -> meta_ok o = false ->
    record_of jobId w = Some j ->
    j !! "userId"%string = Some (VStr userId) ->
    ~ final_stage (field j "stage") ->
    isPolling p = true ->
    let w' := tick jobId userId appName o w in
    isPolling
      (polls jobId userId ok (map (run jobId userId appName w') ess) p)
    = true.
Proof.
  intros o w j ok ess p Hrun Hobs Hdb Hmeta Hj Hown Hnf Hp w'.
  assert (Hfrozen : forall es,
             unfinished jobId userId (run jobId userId appName w' es)).
  { intros es. subst w'.
    destruct (tick_with_markers jobId userId appName o w Hrun Hobs)
      as (r & nl & m & Hc & ->).
    unfold settle. simpl. rewrite Hc.
    unfold saveShopifyAppMetadata.
    destruct (db (jobs w)) as [fs|] eqn:Efs; [|congruence].
    rewrite Hmeta. simpl.
    match goal with
    | |- unfinished _ _ (run _ _ _ ?x es) =>
        destruct (run_quiet jobId userId appName es x) as (_ & _ & Hr)
    end.
    { split; [reflexivity|]. simpl. intros Hin.
      apply elem_of_difference in Hin as [_ Hin]. apply Hin.
      now apply elem_of_singleton. }
    unfold unfinished. rewrite Hr. unfold record_of in *. simpl.
    rewrite (update_of_memory_job _ _ _ _ _ _ Hj). simpl.
    rewrite lookup_insert_eq. eexists _, _. split; [reflexivity|].
    rewrite !merge_lookup. simpl.
    rewrite lookup_singleton_ne by discriminate.
    split; [exact Hown|]. split; [reflexivity|].
    unfold field in *. rewrite merge_lookup. simpl.
    now rewrite lookup_singleton_ne by discriminate. }
  apply polls_of_unfinished_job; [exact Hp|].
  apply List.Forall_forall. intros x Hx.
  apply in_map_iff in Hx as (es & <- & _). apply Hfrozen.
Qed.

End EndlessPolling.

Lemma X25_page_polls_forever_after_refused_metadata_witness :
  let w' :=
    tick (js "job_1") (js "u") (js "shop") (markers_found false)
      (started (js "job_1") (js "shop") outage_store ∅) in
  isPolling
    (polls (js "job_1") (js "u") true
       (map (run (js "job_1") (js "u") (js "shop") w')
          [[]; [Tick (markers_found true)]; [Ceiling (js "t9") true]])
       polling_page)
  = true.
Proof.
  apply (X25_page_polls_forever_after_refused_metadata (js "job_1") (js "u")
           (js "shop") (markers_found false)
           (started (js "job_1") (js "shop") outage_store ∅)
           (newJob (js "job_1") (js "u") (js "shop") (js "t0"))).
  - split; [|reflexivity].
    apply elem_of_union_l, elem_of_singleton. reflexivity.
  - repeat split; try reflexivity.
    + exists (js "total 16"), []. repeat split; reflexivity.
    + eexists _, []. repeat split; reflexivity.
  - discriminate.
  - reflexivity.
  - reflexivity.
  - reflexivity.
  - intros [H | [H | H]]; vm_compute in H; discriminate.
  - reflexivity.
Defined.

(** ** From the generated text to the loaded project *)

Lemma stored_names_nonempty (bs : list block) :
  forall (files : gmap jsstring jsstring) (f : jsstring),
    is_Some (fold_left store_block bs files !! f) ->
    is_Some (files !! f) \/ f <> [].
Proof.
  induction bs as [|b bs IH]; intros files f; simpl; [now left|].
  intros H. destruct (IH _ _ H) as [Hf | Hne]; [|now right].
  unfold store_block in Hf. rewrite assign_text_lookup in Hf.
  destruct (decide (filename_of files b = f)) as [<-|Hdiff].
  - right. apply filename_of_nonempty.
  - rewrite (bool_decide_eq_false_2 _ Hdiff) in Hf. now left.
Qed.

(** What [deployCodeToSandbox] returns when it returns: the extracted
    blocks, with the default manifest when the blocks have none or an
    empty one. *)
Lemma deployed_blocks (mkdir_ok : bool)
    (write_ok : jsstring -> jsstring -> bool)
    (generatedCode : jsstring) (codeBlocks : gmap jsstring jsstring) :
  deployCodeToSandbox mkdir_ok write_ok generatedCode = Return codeBlocks ->
  (exists c, codeBlocks !! js "package.json" = Some c /\ c <> [])
  /\ (forall f, f <> js "package.json" ->
                codeBlocks !! f = extractCodeBlocks generatedCode !! f)
  /\ (forall f, is_Some (codeBlocks !! f) -> f <> [])
  /\ codeBlocks !! js "__proto__" = None.
Proof.
  unfold deployCodeToSandbox.
  destruct mkdir_ok; [|discriminate]. cbn [negb].
  destruct (bool_decide _); [|discriminate]. cbn [negb].
  pose proof (extracted_has_no_proto generatedCode) as Hproto.
  assert (Hnames : forall f,
             is_Some (extractCodeBlocks generatedCode !! f) -> f <> []).
  { intros f Hf. unfold extractCodeBlocks in Hf.
    destruct (stored_names_nonempty _ _ _ Hf) as [[x Hx]|]; [|assumption].
    now rewrite lookup_empty in Hx. }
  destruct (truthy_opt (extractCodeBlocks generatedCode !! js "package.json"))
    eqn:Epkg.
  - intros [= <-].
    split; [|split; [reflexivity | split; [exact Hnames | exact Hproto]]].
    apply truthy_opt_some in Epkg as (c & Hc & Hne). eauto.
  - destruct (write_ok _ _); [|discriminate]. intros [= <-].
    split; [|split; [|split]].
    + exists basicPackageJson. split; [apply lookup_insert_eq | discriminate].
    + intros f Hf. now rewrite lookup_insert_ne.
    + intros f Hf. apply lookup_insert_is_Some' in Hf as [<- | Hf];
        [discriminate | now apply Hnames].
    + rewrite lookup_insert_ne by discriminate. exact Hproto.
Qed.

(** X26: from the generated text to the loaded project.  When
    [deployCodeToSandbox] returns, the blocks it returns hold a non-empty
    [package.json] (the one of the text, or the default manifest) and
    otherwise exactly the extracted blocks.  When none of the blocks is
    named [project.json], every storage call resolves and the bucket held
    nothing under the directory of the new project, [getProject] gives
    back, for the identifier [saveProject] returned, exactly these blocks
    as [files] and the metadata [saveProject] returned. *)
Theorem X26_generated_files_load_back :
  forall (stringify : gmap string value -> jsstring)
         (parse : jsstring -> outcome (gmap string value))
         (userId generatedCode projectName promptText url sandbox : jsstring)
         (mkdir_ok : bool) (write_ok : jsstring -> jsstring -> bool)
         (codeBlocks : gmap jsstring jsstring)
         (ms1 : N) (rnd1 : jsstring) (ms2 : N) (rnd2 t : jsstring)
         (save_ok : jsstring -> bool) (b : bucket_files),
    deployCodeToSandbox mkdir_ok write_ok generatedCode = Return codeBlocks ->
    codeBlocks !! js "project.json" = None ->
    (forall p, save_ok p = true) ->
    unused_project b userId (generateProjectId ms1 rnd1) ->
    (exists c, codeBlocks !! js "package.json" = Some c /\ c <> [])
    /\ (forall f, f <> js "package.json" ->
                  codeBlocks !! f = extractCodeBlocks generatedCode !! f)
    /\ exists stored b',
         saveProject userId
           (Some (generated_project projectName promptText url sandbox
                    codeBlocks))
           ms1 rnd1 ms2 rnd2 t save_ok (Some b)
         = (Return stored, Some b')
         /\ getProject stringify parse userId (projectId stored) all_reads
              (Some b')
            = Some {| loaded_metadata := metadata stored;
                      loaded_files := codeBlocks |}.
Proof.
  intros stringify parse userId generatedCode projectName promptText url
    sandbox mkdir_ok write_ok codeBlocks ms1 rnd1 ms2 rnd2 t save_ok b
    Hdeploy Hnopj Hok Hunused.
  destruct (deployed_blocks _ _ _ _ Hdeploy)
    as (Hpkg & Hrest & Hnames & Hproto).
  split; [exact Hpkg|]. split; [exact Hrest|].
  set (pd := generated_project projectName promptText url sandbox codeBlocks).
  assert (Hnd : entries_of_object (map_to_list codeBlocks))
    by apply NoDup_fst_map_to_list.
  assert (Hplain : forall f text,
             In (f, text) (map_to_list codeBlocks) -> plain_name f).
  { intros f text Hin.
    apply list_elem_of_In, elem_of_map_to_list in Hin. split.
    - apply Hnames. eauto.
    - intros ->. congruence. }
  destruct (try_save_all_ok userId pd (map_to_list codeBlocks) ms1 rnd1 t
              save_ok b eq_refl Hok) as (md & Hsave & Hjson & Hnofiles).
  unfold saveProject. rewrite Hsave.
  eexists _, _. split; [reflexivity|]. cbn [projectId metadata].
  rewrite (getProject_of_saved stringify parse userId _ md
             (map_to_list codeBlocks) _ Hnd Hplain Hjson Hnofiles).
  - now rewrite list_to_map_to_list, (delete_id _ _ Hproto).
  - intros f x. now apply saved_bucket_lookup.
Qed.

Lemma X26_generated_files_load_back_witness :
  exists codeBlocks stored b',
    deployCodeToSandbox true (fun _ _ => true) one_block = Return codeBlocks
    /\ codeBlocks !! js "server.js"
       = Some (js "const express = require('express');")
    /\ codeBlocks !! js "package.json" = Some basicPackageJson
    /\ saveProject (js "alice")
         (Some (generated_project (js "alice-001") (js "a shop")
                  (js "https://3000-abc.e2b.dev") (js "abc") codeBlocks))
         1700000000000 (js "0.4fzyo82mvyr") 0 [] (js "t0") (fun _ => true)
         (Some ∅)
       = (Return stored, Some b')
    /\ getProject (fun _ => []) (fun _ => Throw) (js "alice")
         (projectId stored) all_reads (Some b')
       = Some {| loaded_metadata := metadata stored;
                 loaded_files := codeBlocks |}.
Proof.
  assert (Hd : deployCodeToSandbox true (fun _ _ => true) one_block
               = Return (<[js "package.json" := basicPackageJson]>
                           (extractCodeBlocks one_block)))
    by (vm_compute; reflexivity).
  destruct (X26_generated_files_load_back (fun _ => []) (fun _ => Throw)
              (js "alice") one_block (js "alice-001") (js "a shop")
              (js "https://3000-abc.e2b.dev") (js "abc") true
              (fun _ _ => true) _ 1700000000000 (js "0.4fzyo82mvyr") 0 []
              (js "t0") (fun _ => true) ∅ Hd)
    as (_ & _ & stored & b' & Hsave & Hget).
  - vm_compute. reflexivity.
  - reflexivity.
  - intros nm _. apply lookup_empty.
  - eexists _, stored, b'. split; [exact Hd|].
    split; [vm_compute; reflexivity|].
    split; [vm_compute; reflexivity|].
    split; [exact Hsave | exact Hget].
Defined.

(** ** Generated code on the page *)

Lemma text_and_breaks_app (a b : jsstring) :
  text_and_breaks a -> text_and_breaks b -> text_and_breaks (a ++ b).
Proof.
  intros Ha Hb. induction Ha as [|c s H1 H2 _ IH|s _ IH].
  - exact Hb.
  - simpl. now apply tb_unit.
  - rewrite <- app_assoc. now apply tb_break.
Qed.

Lemma plain_text (s : jsstring) :
  ~ In 60 s -> ~ In 62 s -> text_and_breaks s.
Proof.
  induction s as [|c s IH]; intros H1 H2; [apply tb_nil|].
  apply tb_unit.
  - intros ->. apply H1. now left.
  - intros ->. apply H2. now left.
  - apply IH; intros H; [apply H1 | apply H2]; now right.
Qed.

Lemma replace_unit_in (c : N) (r s : jsstring) (x : N) :
  In x (replace_unit c r s) -> In x r \/ (In x s /\ x <> c).
Proof.
  induction s as [|d s IH]; simpl; [intros []|].
  intros H. apply in_app_or in H as [H | H].
  - destruct (N.eqb_spec d c) as [->|Hne]; [now left|].
    destruct H as [<- | []]. right. split; [now left | exact Hne].
  - destruct (IH H) as [? | [? ?]]; [now left | right; split; auto].
Qed.

Lemma replace_newlines (s : jsstring) :
  ~ In 60 s -> ~ In 62 s ->
  text_and_breaks (replace_unit 10 (js "<br>") s).
Proof.
  induction s as [|d s IH]; intros H1 H2; simpl; [apply tb_nil|].
  assert (IH' : text_and_breaks (replace_unit 10 (js "<br>") s))
    by (apply IH; intros H; [apply H1 | apply H2]; now right).
  destruct (N.eqb_spec d 10) as [->|Hne].
  - now apply tb_break.
  - apply tb_unit; [| |exact IH'].
    + intros ->. apply H1. now left.
    + intros ->. apply H2. now left.
Qed.

Lemma replace_two_spaces_cons (r : jsstring) (c d : N) (s : jsstring) :
  replace_two_spaces r (c :: d :: s)
  = if (c =? 32) && (d =? 32) then r ++ replace_two_spaces r s
    else c :: replace_two_spaces r (d :: s).
Proof. reflexivity. Qed.

Lemma replace_two_spaces_keeps (n : nat) :
  forall s, (length s <= n)%nat ->
            text_and_breaks s ->
            text_and_breaks (replace_two_spaces (js "&nbsp;&nbsp;") s).
Proof.
  induction n as [|n IH]; intros s Hlen Hs.
  - destruct s; [apply tb_nil | simpl in Hlen; lia].
  - destruct Hs as [|c s H1 H2 Hs|s Hs].
    + apply tb_nil.
    + simpl in Hlen. destruct s as [|d s]; [now apply tb_unit, tb_nil|].
      rewrite replace_two_spaces_cons.
      destruct ((c =? 32) && (d =? 32)) eqn:E.
      * apply andb_true_iff in E as [_ Ed]. apply N.eqb_eq in Ed. subst d.
        apply text_and_breaks_app.
        -- apply plain_text; intros H; vm_compute in H; intuition discriminate.
        -- apply IH; [simpl in Hlen; lia|].
           inversion Hs as [|c' s' _ _ Hs' Heq|s' Hs' Heq]; subst.
           exact Hs'.
      * apply tb_unit; [exact H1 | exact H2|].
        apply IH; [lia | exact Hs].
    + change (js "<br>" ++ s) with (60 :: 98 :: 114 :: 62 :: s) in *.
      simpl in Hlen.
      assert (Hrest : text_and_breaks
                        (replace_two_spaces (js "&nbsp;&nbsp;") s))
        by (apply IH; [lia | exact Hs]).
      destruct s as [|d s].
      * apply (tb_break []), tb_nil.
      * rewrite replace_two_spaces_cons.
        change ((60 =? 32) && (98 =? 32)) with false. cbv iota.
        rewrite replace_two_spaces_cons.
        change ((98 =? 32) && (114 =? 32)) with false. cbv iota.
        rewrite replace_two_spaces_cons.
        change ((114 =? 32) && (62 =? 32)) with false. cbv iota.
        rewrite replace_two_spaces_cons.
        replace ((62 =? 32) && (d =? 32)) with false by reflexivity.
        apply (tb_break (replace_two_spaces (js "&nbsp;&nbsp;") (d :: s))).
        exact Hrest.
Qed.

Lemma bracket_opens_break (s : jsstring) :
  text_and_breaks s ->
  forall a b, s = a ++ 60 :: b -> startsWith b (js "br>") = true.
Proof.
  induction 1 as [|c s H1 H2 _ IH|s _ IH]; intros a b Heq.
  - now destruct a.
  - destruct a as [|x a]; simpl in Heq.
    + injection Heq as -> _. contradiction.
    + injection Heq as _ Heq. now apply (IH a b).
  - change (js "<br>" ++ s) with (60 :: 98 :: 114 :: 62 :: s) in Heq.
    destruct a as [|x1 a]; simpl in Heq.
    { injection Heq as <-. apply startsWith_spec. now exists s. }
    injection Heq as _ Heq.
    destruct a as [|x2 a]; simpl in Heq; [discriminate|].
    injection Heq as _ Heq.
    destruct a as [|x3 a]; simpl in Heq; [discriminate|].
    injection Heq as _ Heq.
    destruct a as [|x4 a]; simpl in Heq; [discriminate|].
    injection Heq as _ Heq. now apply (IH a b).
Qed.

(** X27: the text [formatCodeForDisplay] hands to [innerHTML] carries no
    markup but line breaks: whatever the generated code is, the result
    is made of code units other than the two angle brackets and of
    [<br>] tags, so every opening bracket in it starts a [<br>] tag. *)
Theorem X27_displayed_code_has_only_line_breaks :
  forall code : jsstring,
    text_and_breaks (formatCodeForDisplay code)
    /\ forall a b,
         formatCodeForDisplay code = a ++ 60 :: b ->
         startsWith b (js "br>") = true.
Proof.
  intros code.
  assert (Hsafe : text_and_breaks (formatCodeForDisplay code)).
  { unfold formatCodeForDisplay.
    apply (replace_two_spaces_keeps _ _ (Nat.le_refl _)).
    apply replace_newlines.
    - intros H. apply replace_unit_in in H as [H | [H _]].
      + vm_compute in H. intuition discriminate.
      + apply replace_unit_in in H as [H | [_ H]]; [|now apply H].
        vm_compute in H. intuition discriminate.
    - intros H. apply replace_unit_in in H as [H | [_ H]]; [|now apply H].
      vm_compute in H. intuition discriminate. }
  split; [exact Hsafe|]. now apply bracket_opens_break.
Qed.

Lemma X27_displayed_code_has_only_line_breaks_witness :
  formatCodeForDisplay (js "<script>a  b</script>" ++ newline ++ js "x")
  = js "&lt;script&gt;a&nbsp;&nbsp;b&lt;/script&gt;<br>x"
  /\ startsWith (js "br>x") (js "br>") = true.
Proof.
  split; [reflexivity|].
  apply (proj2 (X27_displayed_code_has_only_line_breaks
                  (js "<script>a  b</script>" ++ newline ++ js "x"))
           (js "&lt;script&gt;a&nbsp;&nbsp;b&lt;/script&gt;")).
  reflexivity.
Defined.

(** ** The link the set-up page offers *)

Lemma show_stage_link (d : gmap string value) (p : page) :
  authLink (show_stage d p) = authLink p
  \/ (authLink (show_stage d p) = Some (field d "authUrl")
      /\ truthy_value (field d "authUrl") = true).
Proof.
  unfold show_stage. destruct (field d "stage"); auto.
  case_bool_decide.
  { destruct (truthy_value (field d "authUrl")) eqn:E; auto. }
  case_bool_decide; [auto|].
  destruct (_ || _); auto.
Qed.

Lemma fold_append_link (l : list jsstring) (p : page) :
  authLink (fold_left appendToOutput l p) = authLink p.
Proof.
  revert p. induction l as [|x l IH]; intros p; simpl; [reflexivity|].
  now rewrite IH.
Qed.

(** A poll changes the link only to the [authUrl] of the response. *)
Lemma poll_link (r : response) (p : page) :
  authLink (checkAppCreationStatus r p) = authLink p
  \/ (authLink (checkAppCreationStatus r p) = Some (field (body r) "authUrl")
      /\ truthy_value (field (body r) "authUrl") = true
      /\ (200 <=? code r) && (code r <=? 299) = true).
Proof.
  unfold checkAppCreationStatus.
  destruct (isPolling p); [|now left].
  destruct ((200 <=? code r) && (code r <=? 299)) eqn:Eok; [|now left].
  unfold updateProgressUI.
  destruct (field (body r) "output") as [| | |[|c s]| l | |].
  5: now left.
  5: { destruct (show_stage_link (body r) (fold_left appendToOutput l p))
         as [H | [H1 H2]].
       - left. cbv iota. now rewrite H, fold_append_link.
       - right. repeat split; assumption. }
  all: destruct (show_stage_link (body r) p) as [H | [H1 H2]];
    [left; exact H | right; repeat split; assumption].
Qed.

Section OfferedLink.

Variables jobId userId appName : jsstring.

Lemma run_domain (es : list event) :
  forall w,
    url_on_domain (vars w) /\ Forall domain_update (updates w) ->
    url_on_domain (vars (run jobId userId appName w es)).
Proof.
  induction es as [|e es IH]; intros w Hw; unfold run in *; simpl;
    [apply Hw|].
  apply IH. now apply step_domain.
Qed.

(** X28: the link the set-up page offers for a job leads to the partner
    portal.  For a job whose record is in the in-memory map without a
    URL when monitoring starts, after any sequence of poll ticks,
    ceiling time-outs and sweeps, a poll of the page by any user either
    leaves the authentication link as it was or sets it to a string that
    starts (letter case apart) with https://partners.shopify.com/ and
    has no white space. *)
Theorem X28_page_links_to_partner_portal :
  forall (st : store) (others : gset jsstring) (es : list event) (j : job)
         (user : jsstring) (ok : bool) (p : page),
    inMemoryJobs st !! jobId = Some j ->
    j !! "authUrl"%string = Some VNull ->
    let w := run jobId userId appName (started jobId appName st others) es in
    let p' :=
      checkAppCreationStatus (app_creation_status jobId user ok (jobs w)) p in
    authLink p' = authLink p
    \/ exists u, authLink p' = Some (VStr u) /\ on_partner_domain u.
Proof.
  intros st others es j user ok p Hj Hnull w p'.
  assert (Hinv : record_url_inv jobId w).
  { apply run_record_url. exists j. split; [exact Hj | now left]. }
  assert (Hdom : url_on_domain (vars w)).
  { apply run_domain. split; [intros u Hu; discriminate | constructor]. }
  destruct Hinv as (j' & Hj' & Hurl).
  destruct (poll_link (app_creation_status jobId user ok (jobs w)) p)
    as [Hsame | (Hlink & Htruthy & Hok)]; [now left|].
  fold p' in Hlink.
  unfold app_creation_status, getAppCreationJob in Hlink, Htruthy, Hok.
  unfold record_of in Hj'. rewrite Hj' in Hlink, Htruthy, Hok.
  destruct (is_string (field j' "userId") user); [|discriminate].
  change (field (body _) "authUrl") with (field j' "authUrl")
    in Hlink, Htruthy.
  unfold field in Hlink, Htruthy.
  destruct Hurl as [Hn | (u & Hu & _ & Hv)].
  - rewrite Hn in Htruthy. discriminate.
  - rewrite Hv in Hlink. right. exists u. split; [exact Hlink|].
    now apply Hdom.
Qed.

End OfferedLink.

Lemma X28_page_links_to_partner_portal_witness :
  let w :=
    run (js "job_1") (js "u") (js "shop")
      (started (js "job_1") (js "shop") memory_store ∅) [Tick prompt_seen] in
  let p' :=
    checkAppCreationStatus
      (app_creation_status (js "job_1") (js "u") true (jobs w))
      polling_page in
  authLink p' = Some (VStr (js "https://partners.shopify.com/abc123"))
  /\ (authLink p' = authLink polling_page
      \/ exists u, authLink p' = Some (VStr u) /\ on_partner_domain u).
Proof.
  split; [reflexivity|].
  apply (X28_page_links_to_partner_portal (js "job_1") (js "u") (js "shop")
           memory_store ∅ [Tick prompt_seen]
           (newJob (js "job_1") (js "u") (js "shop") (js "t0"))).
  - reflexivity.
  - reflexivity.
Defined.
